(** * Task execution, provider fallback and text sanitization

    A shallow embedding of the Python backend (FastAPI routers, [AIService],
    [TaskService], [RedisClient] and [TextProcessor]) together with the
    properties its specification states about it.

    Conventions.
    - A Python [str] is a list of Unicode code points, each an [N].
    - A call that may raise returns a [res]: [Ok v] or [Raise e].
    - Code that reads the clock or the task store threads a [World]. *)

From Stdlib Require Import String Ascii NArith ZArith Lia Bool DecimalString.
From stdpp Require Import gmap list.

Local Open Scope N_scope.

(** ** Python strings *)

Module PyStr.

Abbreviation char := N.
Abbreviation str := (list N).

(** Source literals are written as UTF-8 text and decoded to code points,
    so that [py "你好"] is the two-character Python string. *)
Fixpoint utf8_decode (bs : list N) : str :=
  match bs with
  | [] => []
  | b0 :: r0 =>
      if b0 <? 0x80 then b0 :: utf8_decode r0
      else if b0 <? 0xE0 then
        match r0 with
        | b1 :: r1 =>
            (N.land b0 0x1F * 64 + N.land b1 0x3F) :: utf8_decode r1
        | _ => []
        end
      else if b0 <? 0xF0 then
        match r0 with
        | b1 :: b2 :: r2 =>
            (N.land b0 0x0F * 4096 + N.land b1 0x3F * 64 + N.land b2 0x3F)
              :: utf8_decode r2
        | _ => []
        end
      else
        match r0 with
        | b1 :: b2 :: b3 :: r3 =>
            (N.land b0 0x07 * 262144 + N.land b1 0x3F * 4096
             + N.land b2 0x3F * 64 + N.land b3 0x3F) :: utf8_decode r3
        | _ => []
        end
  end.

Definition py (s : string) : str :=
  utf8_decode (List.map N_of_ascii (list_ascii_of_string s)).

Definition LF : char := 10.
Definition CR : char := 13.
Definition TAB : char := 9.
Definition SP : char := 32.
Definition QUOTE : char := 34.
Definition APOS : char := 39.
Definition BACKSLASH : char := 92.

(** [Py_UNICODE_ISSPACE]: the test behind [str.strip()], [str.split()] and
    the [\s] class of [re] on [str] patterns. *)
Definition isspace (c : char) : bool :=
  ((9 <=? c) && (c <=? 13)) || ((28 <=? c) && (c <=? 32))
  || (c =? 0x85) || (c =? 0xA0) || (c =? 0x1680)
  || ((0x2000 <=? c) && (c <=? 0x200A))
  || (c =? 0x2028) || (c =? 0x2029) || (c =? 0x202F) || (c =? 0x205F)
  || (c =? 0x3000).

Fixpoint drop_while (f : char -> bool) (s : str) : str :=
  match s with
  | c :: t => if f c then drop_while f t else s
  | [] => []
  end.

(** [s.lstrip()], [s.rstrip()], [s.strip()] *)
Definition lstrip (s : str) : str := drop_while isspace s.

Definition rstrip (s : str) : str := rev (lstrip (rev s)).

Definition strip (s : str) : str := rstrip (lstrip s).

(** [s.replace(old, new)] for a one-character [old] *)
Definition replace (old : char) (new : str) (s : str) : str :=
  flat_map (fun c => if c =? old then new else [c]) s.

(** [s.split()]: maximal runs of non-whitespace characters, in order *)
Fixpoint split_go (cur : str) (s : str) : list str :=
  match s with
  | [] => match cur with [] => [] | _ => [rev cur] end
  | c :: t =>
      if isspace c
      then match cur with [] => split_go [] t | _ => rev cur :: split_go [] t end
      else split_go (c :: cur) t
  end.

Definition split (s : str) : list str := split_go [] s.

(** [sub in s] *)
Fixpoint startswith (p s : str) : bool :=
  match p, s with
  | [], _ => true
  | a :: p', b :: s' => (a =? b) && startswith p' s'
  | _ :: _, [] => false
  end.

Fixpoint contains (sub s : str) : bool :=
  startswith sub s || match s with [] => false | _ :: t => contains sub t end.

(** [bool(s)] *)
Definition truthy (s : str) : bool :=
  match s with [] => false | _ => true end.

Definition str_eqb (a b : str) : bool := bool_decide (a = b).

End PyStr.
Export PyStr.

(** ** The fragment of [re] used by the sanitizer

    A pattern is a sequence of character classes, each matched once, [*]
    or [+]; quantifiers are greedy and give characters back on failure,
    as the backtracking engine of [re] does. *)

Module Re.

Inductive quant := Once | Star | Plus.

Record atom := Atom { cls : char -> bool; rep : quant }.

Definition regex := list atom.

(** [star c k s]: take as many characters of class [c] as possible, then
    continue with [k]; on failure of [k] give back one character at a
    time. The result is the text left after the match. *)
Fixpoint star (c : char -> bool) (k : str -> option str) (s : str)
  : option str :=
  match s with
  | x :: t =>
      if c x
      then match star c k t with
           | Some r => Some r
           | None => k s
           end
      else k s
  | [] => k []
  end.

Fixpoint match_here (p : regex) : str -> option str :=
  match p with
  | [] => fun s => Some s
  | Atom c Once :: p' =>
      fun s => match s with
               | x :: t => if c x then match_here p' t else None
               | [] => None
               end
  | Atom c Star :: p' => star c (match_here p')
  | Atom c Plus :: p' =>
      fun s => match s with
               | x :: t => if c x then star c (match_here p') t else None
               | [] => None
               end
  end.

(** [re.sub(p, repl, s)]: scan left to right; at the leftmost position
    where [p] matches, emit [repl] and resume after the match; elsewhere
    copy one character. Every pattern of this program consumes at least
    one character, so [length s] rounds are enough; a match that consumed
    nothing is treated as no match. *)
Fixpoint sub_loop (fuel : nat) (p : regex) (repl s : str) : str :=
  match fuel with
  | O => s
  | S n =>
      match s with
      | [] => []
      | x :: t =>
          match match_here p s with
          | Some r =>
              if (length r <? length s)%nat
              then repl ++ sub_loop n p repl r
              else x :: sub_loop n p repl t
          | None => x :: sub_loop n p repl t
          end
      end
  end.

Definition sub (p : regex) (repl s : str) : str :=
  sub_loop (length s) p repl s.

End Re.

(** ** Results and exceptions *)

Inductive exn :=
| ValueError (msg : str)
| TypeError (msg : str)
| AttributeError (msg : str)
| JSONDecodeError
| ValidationError
| ConnectionError
| ProviderError (msg : str)
| HTTPException (status_code : Z) (detail : str).

Inductive res (A : Type) :=
| Ok (a : A)
| Raise (e : exn).
Arguments Ok {A} a.
Arguments Raise {A} e.

(** [str(e)] *)
Definition exn_str (e : exn) : str :=
  match e with
  | ValueError m | TypeError m | AttributeError m | ProviderError m => m
  | HTTPException _ detail => detail
  | JSONDecodeError => py "Expecting value"
  | ValidationError => py "validation error"
  | ConnectionError => py "Connection refused"
  end.

(** [isinstance(e, json.JSONDecodeError)] *)
Definition is_JSONDecodeError (e : exn) : bool :=
  match e with JSONDecodeError => true | _ => false end.

(** ** The [json] codec on the documents this program writes

    [dumps] follows [json.dumps(obj, ensure_ascii=False)] on a dictionary
    whose values are strings or [None]; [loads] follows [json.loads] with
    its default strict string scanner. Documents of another shape (arrays,
    numbers, nested objects) are rejected by [loads] here although the
    library accepts them: the program never stores one. *)

Module Json.

Inductive value := JNull | JString (s : str).

(** A dictionary, as its items in insertion order. *)
Definition object := list (str * value).

Definition LBRACE : char := 123.
Definition RBRACE : char := 125.
Definition COLON : char := 58.
Definition COMMA : char := 44.

Definition hexdigit (n : N) : char :=
  if n <? 10 then 48 + n else 87 + n.

(** [ESCAPE_DCT] of [json.encoder] *)
Definition escape_char (c : char) : str :=
  if c =? QUOTE then [BACKSLASH; QUOTE]
  else if c =? BACKSLASH then [BACKSLASH; BACKSLASH]
  else if c =? 10 then [BACKSLASH; 110]
  else if c =? 13 then [BACKSLASH; 114]
  else if c =? 9 then [BACKSLASH; 116]
  else if c =? 8 then [BACKSLASH; 98]
  else if c =? 12 then [BACKSLASH; 102]
  else if c <? 0x20
       then [BACKSLASH; 117; 48; 48; hexdigit (c / 16); hexdigit (c mod 16)]
  else [c].

Definition encode_basestring (s : str) : str :=
  QUOTE :: flat_map escape_char s ++ [QUOTE].

Definition encode_value (v : value) : str :=
  match v with
  | JNull => py "null"
  | JString s => encode_basestring s
  end.

Fixpoint encode_items (item_sep key_sep : str) (o : object) : str :=
  match o with
  | [] => []
  | [(k, v)] => encode_basestring k ++ key_sep ++ encode_value v
  | (k, v) :: o' =>
      encode_basestring k ++ key_sep ++ encode_value v ++ item_sep
        ++ encode_items item_sep key_sep o'
  end.

Definition dumps_with (item_sep key_sep : str) (o : object) : str :=
  LBRACE :: encode_items item_sep key_sep o ++ [RBRACE].

(** [json.dumps(o, ensure_ascii=False)], separators [", "] and [": "]; on a
    dictionary of texts the call does not raise. *)
Definition dumps (o : object) : res str :=
  Ok (dumps_with (py ", ") (py ": ") o).

(** Decoding. *)
Definition hexval (c : char) : option N :=
  if (48 <=? c) && (c <=? 57) then Some (c - 48)
  else if (97 <=? c) && (c <=? 102) then Some (c - 87)
  else if (65 <=? c) && (c <=? 70) then Some (c - 55)
  else None.

Definition hex4 (a b c d : char) : option N :=
  match hexval a, hexval b, hexval c, hexval d with
  | Some x, Some y, Some z, Some w => Some (x * 4096 + y * 256 + z * 16 + w)
  | _, _, _, _ => None
  end.

(** [BACKSLASH] table of [json.decoder] *)
Definition unescape (e : char) : option char :=
  if e =? QUOTE then Some QUOTE
  else if e =? BACKSLASH then Some BACKSLASH
  else if e =? 47 then Some 47
  else if e =? 98 then Some 8
  else if e =? 102 then Some 12
  else if e =? 110 then Some 10
  else if e =? 114 then Some 13
  else if e =? 116 then Some 9
  else None.

Definition push (c : char) (r : option (str * str)) : option (str * str) :=
  match r with
  | Some (d, rest) => Some (c :: d, rest)
  | None => None
  end.

Definition is_high_surrogate (u : N) : bool := (0xd800 <=? u) && (u <=? 0xdbff).
Definition is_low_surrogate (u : N) : bool := (0xdc00 <=? u) && (u <=? 0xdfff).

(** [py_scanstring], entered after the opening quote: the decoded text
    and what follows the closing quote; [None] where the library raises
    [JSONDecodeError]. *)
Fixpoint scanstring (s : str) : option (str * str) :=
  match s with
  | [] => None
  | c :: t =>
      if c =? QUOTE then Some ([], t)
      else if c =? BACKSLASH then
        match t with
        | [] => None
        | e :: t1 =>
            if e =? 117 then
              match t1 with
              | h1 :: h2 :: h3 :: h4 :: t2 =>
                  match hex4 h1 h2 h3 h4 with
                  | None => None
                  | Some u =>
                      match t2 with
                      | b :: u' :: l1 :: l2 :: l3 :: l4 :: t3 =>
                          match hex4 l1 l2 l3 l4 with
                          | Some u2 =>
                              if is_high_surrogate u && (b =? BACKSLASH)
                                 && (u' =? 117) && is_low_surrogate u2
                              then push (0x10000 + ((u - 0xd800) * 1024
                                                    + (u2 - 0xdc00)))
                                        (scanstring t3)
                              else push u (scanstring t2)
                          | None => push u (scanstring t2)
                          end
                      | _ => push u (scanstring t2)
                      end
                  end
              | _ => None
              end
            else
              match unescape e with
              | Some x => push x (scanstring t1)
              | None => None
              end
        end
      else if c <? 0x20 then None
      else push c (scanstring t)
  end.

Definition is_json_ws (c : char) : bool :=
  (c =? 32) || (c =? 9) || (c =? 10) || (c =? 13).

Fixpoint skip_ws (s : str) : str :=
  match s with
  | c :: t => if is_json_ws c then skip_ws t else s
  | [] => []
  end.

Definition parse_value (s : str) : option (value * str) :=
  match s with
  | c :: t =>
      if c =? QUOTE then
        match scanstring t with
        | Some (d, r) => Some (JString d, r)
        | None => None
        end
      else if startswith (py "null") s then Some (JNull, drop 4 s)
      else None
  | [] => None
  end.

(** The members of an object, entered at the first key; one round per
    member. *)
Fixpoint parse_members (fuel : nat) (s : str) : option (object * str) :=
  match fuel with
  | O => None
  | S n =>
      match s with
      | [] => None
      | q :: s1 =>
          if negb (q =? QUOTE) then None else
          match scanstring s1 with
          | None => None
          | Some (k, s2) =>
              match skip_ws s2 with
              | [] => None
              | col :: s3 =>
                  if negb (col =? COLON) then None else
                  match parse_value (skip_ws s3) with
                  | None => None
                  | Some (v, s4) =>
                      match skip_ws s4 with
                      | [] => None
                      | d :: s5 =>
                          if d =? RBRACE then Some ([(k, v)], s5)
                          else if d =? COMMA then
                            match parse_members n (skip_ws s5) with
                            | Some (o, r) => Some ((k, v) :: o, r)
                            | None => None
                            end
                          else None
                      end
                  end
              end
          end
      end
  end.

Definition at_end (s : str) : bool :=
  match skip_ws s with [] => true | _ => false end.

(** [json.loads(s)] *)
Definition loads (s : str) : res object :=
  match skip_ws s with
  | [] => Raise JSONDecodeError
  | b :: s1 =>
      if negb (b =? LBRACE) then Raise JSONDecodeError else
      match skip_ws s1 with
      | [] => Raise JSONDecodeError
      | e :: s2 =>
          if e =? RBRACE
          then if at_end s2 then Ok [] else Raise JSONDecodeError
          else match parse_members (length s) (e :: s2) with
               | Some (o, r) => if at_end r then Ok o else Raise JSONDecodeError
               | None => Raise JSONDecodeError
               end
      end
  end.

(** [d.get(k)] on a parsed dictionary: a repeated key keeps its last
    value. *)
Fixpoint get (k : str) (o : object) : option value :=
  match o with
  | [] => None
  | (k', v) :: o' =>
      match get k o' with
      | Some v' => Some v'
      | None => if str_eqb k k' then Some v else None
      end
  end.

End Json.

(** ** utils/text_processor.py *)

Module TextProcessor.
Import Re.

(** The argument of a sanitizer call: a [str], or any other object. *)
Inductive pyarg := PyStr (s : str) | PyOther.

(** [clean_user_input] *)
Definition clean_user_input (text : str) : str :=
  if negb (truthy text) then [] else
  let cleaned := replace QUOTE [BACKSLASH; QUOTE] text in
  let cleaned := replace APOS [BACKSLASH; APOS] cleaned in
  let cleaned :=
    replace TAB [BACKSLASH; 116]
      (replace CR [BACKSLASH; 114] (replace LF [BACKSLASH; 110] cleaned)) in
  let cleaned := replace BACKSLASH [BACKSLASH; BACKSLASH] cleaned in
  cleaned.

(** The class [[\x20-\x7E\s一-鿿　-〿＀-￯]] *)
Definition allowed (c : char) : bool :=
  ((0x20 <=? c) && (c <=? 0x7E)) || isspace c
  || ((0x4e00 <=? c) && (c <=? 0x9fff))
  || ((0x3000 <=? c) && (c <=? 0x303f))
  || ((0xff00 <=? c) && (c <=? 0xffef)).

Definition is_lf (c : char) : bool := c =? LF.
Definition is_blank (c : char) : bool := (c =? SP) || (c =? TAB).

(** [[^\x20-\x7E\s一-鿿　-〿＀-￯]] *)
Definition re_disallowed : regex := [Atom (fun c => negb (allowed c)) Once].
(** [\n\s*\n\s*\n+] *)
Definition re_blank_lines : regex :=
  [Atom is_lf Once; Atom isspace Star; Atom is_lf Once; Atom isspace Star;
   Atom is_lf Plus].
(** [[ \t]+] *)
Definition re_blanks : regex := [Atom is_blank Plus].

(** [deep_clean_text] *)
Definition deep_clean_text (text : str) : str :=
  if negb (truthy text) then [] else
  let cleaned := sub re_disallowed [] text in
  let cleaned := sub re_blank_lines [LF; LF] cleaned in
  let cleaned := sub re_blanks [SP] cleaned in
  let cleaned := strip cleaned in
  cleaned.

(** [try: json.dumps({"text": cleaned}, ensure_ascii=False); return cleaned]
    with the handler [except json.JSONDecodeError]: another exception is
    not caught. *)
Definition prepare_user_input_for_ai (user_input : pyarg) : res str :=
  match user_input with
  | PyOther => Ok []
  | PyStr user_input =>
      let cleaned := deep_clean_text user_input in
      match Json.dumps [(py "text", Json.JString cleaned)] with
      | Ok _ => Ok cleaned
      | Raise e =>
          if negb (is_JSONDecodeError e) then Raise e else
          let cleaned := clean_user_input user_input in
          match Json.dumps [(py "text", Json.JString cleaned)] with
          | Ok _ => Ok cleaned
          | Raise e' =>
              if negb (is_JSONDecodeError e') then Raise e' else
              Ok (py "用户输入包含无法处理的特殊字符")
          end
      end
  end.

(** [preprocess_text], method and module-level function *)
Definition preprocess_text (text : pyarg) : res str :=
  prepare_user_input_for_ai text.

(** [[\x00-\x08\x0B\x0C\x0E-\x1F\x7F]] *)
Definition is_control_but_newlines (c : char) : bool :=
  (c <=? 0x08) || (c =? 0x0B) || (c =? 0x0C)
  || ((0x0E <=? c) && (c <=? 0x1F)) || (c =? 0x7F).

(** [[\x00-\x1F\x7F]] *)
Definition is_control (c : char) : bool := (c <=? 0x1F) || (c =? 0x7F).

(** [clean_control_characters] *)
Definition clean_control_characters (text : str) (preserve_newlines : bool) : str :=
  if negb (truthy text) then text else
  if preserve_newlines
  then sub [Atom is_control_but_newlines Once] [] text
  else sub [Atom is_control Once] [] text.

Definition is_sp (c : char) : bool := c =? SP.
Definition is_tab (c : char) : bool := c =? TAB.

(** [normalize_whitespace]: [ +] to one space, then [\t+] to one tab *)
Definition normalize_whitespace (text : str) : str :=
  if negb (truthy text) then text else
  let text := sub [Atom is_sp Plus] [SP] text in
  let text := sub [Atom is_tab Plus] [TAB] text in
  text.

(** The slice [s[:n]]: a negative [n] counts from the end. *)
Definition slice_to (n : Z) (s : str) : str :=
  if (n <? 0)%Z then take (Z.to_nat (Z.of_nat (length s) + n)) s
  else take (Z.to_nat n) s.

(** [truncate_text]; [suffix] defaults to three dots. *)
Definition truncate_text (text : str) (max_length : Z) (suffix : str) : str :=
  if negb (truthy text) || (Z.of_nat (length text) <=? max_length)%Z then text
  else slice_to (max_length - Z.of_nat (length suffix)) text ++ suffix.

End TextProcessor.

(** ** Shapes of text the rewrites of [deep_clean_text] are described with *)

Module Shape.
Import TextProcessor.

(** Line feeds in the leading whitespace run of a text. *)
Fixpoint lf_count (s : str) : nat :=
  match s with
  | c :: t => if isspace c then ((if is_lf c then 1 else 0) + lf_count t)%nat else 0%nat
  | [] => 0%nat
  end.

(** What follows the last line feed of the leading whitespace run. *)
Fixpoint after_last_lf (s : str) : option str :=
  match s with
  | c :: t =>
      if isspace c
      then match after_last_lf t with
           | Some r => Some r
           | None => if is_lf c then Some t else None
           end
      else None
  | [] => None
  end.

(** The same, when the run holds two line feeds or more. *)
Fixpoint blank_tail (s : str) : option str :=
  match s with
  | c :: t =>
      if isspace c
      then match blank_tail t with
           | Some r => Some r
           | None => if is_lf c then after_last_lf t else None
           end
      else None
  | [] => None
  end.

(** No position starts a match of [re_blank_lines]. *)
Fixpoint no_blank_lines (s : str) : bool :=
  match s with
  | c :: t => negb (is_lf c && (2 <=? lf_count t)%nat) && no_blank_lines t
  | [] => true
  end.

Definition head_blank (s : str) : bool :=
  match s with c :: _ => is_blank c | [] => false end.

(** No tab, and no space followed by a space. *)
Fixpoint no_blank_runs (s : str) : bool :=
  match s with
  | c :: t =>
      negb (c =? TAB) && negb (is_blank c && head_blank t) && no_blank_runs t
  | [] => true
  end.

(** A property of texts inherited by every contiguous piece. *)
Definition hereditary (P : str -> bool) : Prop :=
  forall a b, P (a ++ b) = true -> P a = true /\ P b = true.

(** The text starts with whitespace. *)
Definition head_space (s : str) : bool :=
  match s with c :: _ => isspace c | [] => false end.

(** What [deep_clean_text] produces: allow-listed characters only, no run
    of three line feeds within whitespace, no run of blanks, nothing to
    trim. *)
Definition clean (s : str) : Prop :=
  forallb allowed s = true /\ no_blank_lines s = true
  /\ no_blank_runs s = true /\ strip s = s.

End Shape.

(** ** config/settings.py *)

Module Config.
(** The settings the modelled code reads. *)
Record t := mk {
  TASK_EXPIRE_SECONDS : Z;
  AI_PROVIDER : str;
  OPENAI_API_KEY : option str;
  CLAUDE_API_KEY : option str;
  QIANWEN_API_KEY : option str
}.
End Config.

(** ** services/ai_providers.py *)

Module AIProviders.

Inductive provider :=
| OpenAIProvider (api_key : str)
| ClaudeProvider (api_key : str)
| QianwenProvider (api_key : str).

(** One run of an asynchronous generator: the items it yields, in order,
    and how it ends, normally ([None]) or by raising. *)
Definition gen : Type := list str * option exn.

(** The remote model endpoints: a blocking request answers with a text or
    fails; a streaming request delivers pieces and then ends or fails. *)
Record Remote := {
  complete : provider -> str -> res str;
  stream : provider -> str -> gen
}.

(** [bool(key)] for an optional setting *)
Definition is_set (k : option str) : bool :=
  match k with Some s => truthy s | None => false end.

Definition OpenAIProvider_init (cfg : Config.t) : res provider :=
  if negb (is_set (Config.OPENAI_API_KEY cfg))
  then Raise (ValueError (py "OPENAI_API_KEY环境变量未设置"))
  else Ok (OpenAIProvider (default [] (Config.OPENAI_API_KEY cfg))).

Definition ClaudeProvider_init (cfg : Config.t) : res provider :=
  if negb (is_set (Config.CLAUDE_API_KEY cfg))
  then Raise (ValueError (py "CLAUDE_API_KEY环境变量未设置"))
  else Ok (ClaudeProvider (default [] (Config.CLAUDE_API_KEY cfg))).

Definition QianwenProvider_init (cfg : Config.t) : res provider :=
  if negb (is_set (Config.QIANWEN_API_KEY cfg))
  then Raise (ValueError (py "QIANWEN_API_KEY环境变量未设置"))
  else Ok (QianwenProvider (default [] (Config.QIANWEN_API_KEY cfg))).

Definition translate_prompt (text source_lang target_lang : str) : str :=
  py "请将以下" ++ source_lang ++ py "文本翻译成" ++ target_lang
    ++ py "，只返回翻译结果：" ++ [LF; LF] ++ text.

Definition summarize_prompt (text : str) : str :=
  py "请对以下文本进行简洁的总结：" ++ [LF; LF] ++ text.

(** [translate], [summarize]: one request, the answer stripped; an
    exception is logged and raised again. *)
Definition translate (r : Remote) (p : provider)
    (text source_lang target_lang : str) : res str :=
  match complete r p (translate_prompt text source_lang target_lang) with
  | Ok answer => Ok (strip answer)
  | Raise e => Raise e
  end.

Definition summarize (r : Remote) (p : provider) (text : str) : res str :=
  match complete r p (summarize_prompt text) with
  | Ok answer => Ok (strip answer)
  | Raise e => Raise e
  end.

(** The streaming variants yield each piece with content; the Claude
    client already delivers text only. *)
Definition yielded (p : provider) (pieces : list str) : list str :=
  match p with
  | ClaudeProvider _ => pieces
  | _ => List.filter truthy pieces
  end.

Definition translate_stream (r : Remote) (p : provider)
    (text source_lang target_lang : str) : gen :=
  let '(pieces, fin) := stream r p (translate_prompt text source_lang target_lang) in
  (yielded p pieces, fin).

Definition summarize_stream (r : Remote) (p : provider) (text : str) : gen :=
  let '(pieces, fin) := stream r p (summarize_prompt text) in
  (yielded p pieces, fin).

(** [AIProviderFactory.create_provider]; the one-time logging of the key
    status is not modelled. *)
Definition create_provider (cfg : Config.t) (provider_name : option str)
  : res provider :=
  let provider_name := default (Config.AI_PROVIDER cfg) provider_name in
  if str_eqb provider_name (py "openai") then OpenAIProvider_init cfg
  else if str_eqb provider_name (py "claude") then ClaudeProvider_init cfg
  else if str_eqb provider_name (py "qianwen") then QianwenProvider_init cfg
  else Raise (ValueError (py "不支持的AI服务提供商: " ++ provider_name)).

(** [AIProviderFactory.get_available_providers]: the names, in the order of
    the table, whose constructor does not raise [ValueError]. *)
Definition get_available_providers (cfg : Config.t) : list (list N) :=
  omap (fun entry : list N * (Config.t -> res provider) =>
          match snd entry cfg with
          | Ok _ => Some (fst entry)
          | Raise _ => None
          end)
       [(py "openai", OpenAIProvider_init);
        (py "claude", ClaudeProvider_init);
        (py "qianwen", QianwenProvider_init)].

End AIProviders.

(** ** services/ai_service.py

    The delays of the mock ([asyncio.sleep]) and the log lines do not affect
    any returned value and are left out. *)

Module AIService.
Import AIProviders TextProcessor.

Record t := mk { provider : option AIProviders.provider }.

(** [__init__] with [_initialize_provider] *)
Definition init (cfg : Config.t) : t :=
  match create_provider cfg None with
  | Ok p => mk (Some p)
  | Raise _ => mk None
  end.

Definition mock_text (text source_lang target_lang : str) : str :=
  if str_eqb source_lang (py "中文") && str_eqb target_lang (py "英文")
  then py "[模拟EN] " ++ text
  else if str_eqb source_lang (py "英文") && str_eqb target_lang (py "中文")
  then py "[模拟中文] " ++ text
  else py "[模拟" ++ target_lang ++ py "] " ++ text.

Definition _mock_translate (text source_lang target_lang : str) : res str :=
  Ok (mock_text text source_lang target_lang).

Definition mock_summary (text : str) : str :=
  py "模拟总结: " ++ take 50 text
    ++ (if (50 <? length text)%nat then py "..." else []).

Definition _mock_summarize (text : str) : res str :=
  Ok (mock_summary text).

Definition words_spaced (result : str) : list str :=
  List.map (fun word => word ++ [SP]) (split result).

Definition _mock_translate_stream (text source_lang target_lang : str) : gen :=
  (words_spaced (mock_text text source_lang target_lang), None).

Definition _mock_summarize_stream (text : str) : gen :=
  (words_spaced (mock_summary text), None).

(** [translate_text] *)
Definition translate_text (r : Remote) (self : t)
    (text source_lang target_lang : str) : res str :=
  match preprocess_text (PyStr text) with
  | Raise e => Raise e
  | Ok cleaned_text =>
      match provider self with
      | None => _mock_translate cleaned_text source_lang target_lang
      | Some p =>
          match translate r p cleaned_text source_lang target_lang with
          | Ok result => Ok result
          | Raise _ => _mock_translate cleaned_text source_lang target_lang
          end
      end
  end.

(** [summarize_text] *)
Definition summarize_text (r : Remote) (self : t) (text : str) : res str :=
  match preprocess_text (PyStr text) with
  | Raise e => Raise e
  | Ok cleaned_text =>
      match provider self with
      | None => _mock_summarize cleaned_text
      | Some p =>
          match summarize r p cleaned_text with
          | Ok result => Ok result
          | Raise _ => _mock_summarize cleaned_text
          end
      end
  end.

(** A generator that yields all of [g1] and, when [g1] raises, goes on
    with [g2] inside the handler. *)
Definition or_else (g1 g2 : gen) : gen :=
  match g1 with
  | (items, None) => (items, None)
  | (items, Some _) => (items ++ fst g2, snd g2)
  end.

(** [translate_stream] *)
Definition translate_stream (r : Remote) (self : t)
    (text source_lang target_lang : str) : gen :=
  match preprocess_text (PyStr text) with
  | Raise e => ([], Some e)
  | Ok cleaned_text =>
      match provider self with
      | None => _mock_translate_stream cleaned_text source_lang target_lang
      | Some p =>
          or_else
            (AIProviders.translate_stream r p cleaned_text source_lang target_lang)
            (_mock_translate_stream cleaned_text source_lang target_lang)
      end
  end.

(** [summarize_stream] *)
Definition summarize_stream (r : Remote) (self : t) (text : str) : gen :=
  match preprocess_text (PyStr text) with
  | Raise e => ([], Some e)
  | Ok cleaned_text =>
      match provider self with
      | None => _mock_summarize_stream cleaned_text
      | Some p =>
          or_else (AIProviders.summarize_stream r p cleaned_text)
                  (_mock_summarize_stream cleaned_text)
      end
  end.

End AIService.

(** ** schemas/responses.py *)

Module Schemas.
Import Json.

(** [TaskResult] *)
Record TaskResult := mkTaskResult {
  task_id : str;
  status : str;
  result : option str;
  error : option str;
  created_at : str;
  completed_at : option str
}.

(** [TaskResponse] *)
Record TaskResponse := mkTaskResponse {
  resp_task_id : str;
  resp_status : str;
  message : str
}.

Definition opt_value (o : option str) : value :=
  match o with Some s => JString s | None => JNull end.

(** [task.dict()] *)
Definition dict (t : TaskResult) : object :=
  [(py "task_id", JString (task_id t));
   (py "status", JString (status t));
   (py "result", opt_value (result t));
   (py "error", opt_value (error t));
   (py "created_at", JString (created_at t));
   (py "completed_at", opt_value (completed_at t))].

(** [task.model_dump_json()]: the same items, written compactly *)
Definition model_dump_json (t : TaskResult) : str :=
  dumps_with [COMMA] [COLON] (dict t).

(** A Python object held by the store client: a text or a dictionary. *)
Inductive pyval := VStr (s : str) | VDict (d : object).

Definition pyval_truthy (v : pyval) : bool :=
  match v with
  | VStr s => truthy s
  | VDict d => match d with [] => false | _ => true end
  end.

Definition required (k : str) (d : object) : res str :=
  match get k d with
  | Some (JString s) => Ok s
  | _ => Raise ValidationError
  end.

Definition optional (k : str) (d : object) : option str :=
  match get k d with
  | Some (JString s) => Some s
  | _ => None
  end.

(** The constructor call that unpacks [data] into keyword arguments:
    unpacking needs a mapping; the three required fields must be
    present. *)
Definition TaskResult_new (data : pyval) : res TaskResult :=
  match data with
  | VStr _ =>
      Raise (TypeError (py "argument after ** must be a mapping, not str"))
  | VDict d =>
      match required (py "task_id") d, required (py "status") d,
            required (py "created_at") d with
      | Ok i, Ok s, Ok c =>
          Ok (mkTaskResult i s (optional (py "result") d)
                (optional (py "error") d) c (optional (py "completed_at") d))
      | _, _, _ => Raise ValidationError
      end
  end.

End Schemas.

(** ** The world the handlers run in

    The clock counts seconds. The Redis server is the external store: each
    key holds a text and, when written with [ex], the instant it expires.
    [writes] is a history of the successful store writes, each with the
    expiry it was given, kept to state the lifecycle properties; no code
    reads it. *)

Module Env.
Import Schemas.

Record Server := mkServer {
  reachable : bool;
  db : gmap (list N) (list N * option Z)
}.

Inductive connection := Redis.

(** The attributes of a [RedisClient] object *)
Record ClientState := mkClient {
  client : option connection;
  _memory_storage : gmap (list N) pyval;
  _initialized : bool
}.

Record World := mkWorld {
  now : Z;
  server : Server;
  redis_client : ClientState;
  writes : list (list N * pyval * option Z)
}.

(** Time passing while a handler awaits, or between two handlers. *)
Definition elapse (dt : Z) (w : World) : World :=
  mkWorld (now w + dt) (server w) (redis_client w) (writes w).

(** [datetime.now().isoformat()]: the rendering of the instant, here
    the decimal digits of the clock. *)
Definition isoformat (t : Z) : str :=
  py (NilZero.string_of_int (Z.to_int t)).

(** The expiry of a command the server accepts: Redis answers
    [SET key value EX ex] with an error unless [ex] is positive. *)
Definition valid_expiry (ex : option Z) : bool :=
  match ex with
  | Some e => (0 <? e)%Z
  | None => true
  end.

(** The server once it holds [value] under [key], with the expiry counted
    from the instant [t]. *)
Definition stored (key value : str) (ex : option Z) (t : Z) (s : Server)
  : Server :=
  mkServer (reachable s) (<[key := (value, (fun e => t + e)%Z <$> ex)]> (db s)).

(** Redis [SET key value EX ex]: the server after the command, or [None]
    when the server rejects the command and keeps what it has. *)
Definition server_set (key value : str) (ex : option Z) (t : Z) (s : Server)
  : option Server :=
  if valid_expiry ex then Some (stored key value ex t s) else None.

(** Redis [GET key]: a key with an expiry is returned up to the instant of
    its expiry and is gone after it. *)
Definition server_get (key : str) (t : Z) (s : Server) : option str :=
  match db s !! key with
  | Some (v, Some deadline) => if (t <=? deadline)%Z then Some v else None
  | Some (v, None) => Some v
  | None => None
  end.

(** Redis [DEL key]: whether a live key was removed, and the server
    without the key. *)
Definition server_del (key : str) (t : Z) (s : Server) : bool * Server :=
  (match server_get key t s with Some _ => true | None => false end,
   mkServer (reachable s) (delete key (db s))).

(** The server becoming unreachable, or reachable again. *)
Definition set_reachable (up : bool) (w : World) : World :=
  mkWorld (now w) (mkServer up (db (server w))) (redis_client w) (writes w).

End Env.

(** ** utils/redis_client.py *)

Module RedisClient.
Import Schemas Env.

Definition with_client (c : ClientState) (w : World) : World :=
  mkWorld (now w) (server w) c (writes w).

(** [_initialize]: connect and ping once; on failure fall back to the
    in-process dictionary. *)
Definition _initialize (w : World) : World :=
  let c := redis_client w in
  if _initialized c then w
  else
    with_client
      (mkClient (if reachable (server w) then Some Redis else None)
                (_memory_storage c) true) w.

Definition remember (key : str) (v : pyval) (w : World) : World :=
  with_client
    (mkClient (client (redis_client w))
              (<[key := v]> (_memory_storage (redis_client w)))
              (_initialized (redis_client w))) w.

Definition with_server (s : Server) (w : World) : World :=
  mkWorld (now w) s (redis_client w) (writes w).

(** [self.client.set(key, value, ex=ex)] on a reachable server: the world
    after the command, or [None] when the server answers with an error,
    which the client library raises. *)
Definition send (key value : str) (ex : option Z) (w : World) : option World :=
  match server_set key value ex (now w) (server w) with
  | Some s => Some (with_server s w)
  | None => None
  end.

Definition record (key : str) (v : pyval) (ex : option Z) (w : World) : World :=
  mkWorld (now w) (server w) (redis_client w) (writes w ++ [(key, v, ex)]).

(** [set]: a command sent to an unreachable server, or one the server
    rejects, raises, which the method catches and answers [False]. The
    in-process dictionary takes the value and ignores [ex]. *)
Definition set (key value : str) (ex : option Z) (w : World) : bool * World :=
  let w := _initialize w in
  match client (redis_client w) with
  | Some _ =>
      if reachable (server w)
      then match send key value ex w with
           | Some w' => (true, record key (VStr value) ex w')
           | None => (false, w)
           end
      else (false, w)
  | None => (true, record key (VStr value) ex (remember key (VStr value) w))
  end.

(** [get] *)
Definition get (key : str) (w : World) : option pyval * World :=
  let w := _initialize w in
  match client (redis_client w) with
  | Some _ =>
      if reachable (server w)
      then (VStr <$> server_get key (now w) (server w), w)
      else (None, w)
  | None => (_memory_storage (redis_client w) !! key, w)
  end.

(** [set_json] *)
Definition set_json (key : str) (value : Json.object) (ex : option Z)
    (w : World) : bool * World :=
  let w := _initialize w in
  match client (redis_client w) with
  | Some _ =>
      match Json.dumps value with
      | Ok json_str =>
          if reachable (server w)
          then match send key json_str ex w with
               | Some w' => (true, record key (VDict value) ex w')
               | None => (false, w)
               end
          else (false, w)
      | Raise _ => (false, w)
      end
  | None => (true, record key (VDict value) ex (remember key (VDict value) w))
  end.

(** [get_json] *)
Definition get_json (key : str) (w : World) : option pyval * World :=
  let w := _initialize w in
  match client (redis_client w) with
  | Some _ =>
      if reachable (server w)
      then
        match server_get key (now w) (server w) with
        | Some json_str =>
            if truthy json_str
            then match Json.loads json_str with
                 | Ok d => (Some (VDict d), w)
                 | Raise _ => (None, w)
                 end
            else (None, w)
        | None => (None, w)
        end
      else (None, w)
  | None => (_memory_storage (redis_client w) !! key, w)
  end.

(** [is_connected] *)
Definition is_connected (w : World) : bool * World :=
  let w := _initialize w in
  (match client (redis_client w) with Some _ => true | None => false end, w).

(** [delete] *)
Definition delete (key : str) (w : World) : bool * World :=
  let w := _initialize w in
  match client (redis_client w) with
  | Some _ =>
      if reachable (server w)
      then
        let '(removed, s) := server_del key (now w) (server w) in
        (removed, with_server s w)
      else (false, w)
  | None =>
      (match _memory_storage (redis_client w) !! key with
       | Some _ => true
       | None => false
       end,
       with_client
         (mkClient (client (redis_client w))
                   (base.delete key (_memory_storage (redis_client w)))
                   (_initialized (redis_client w))) w)
  end.

End RedisClient.

(** ** data/redis_keys.py *)

Module RedisKeys.
Definition TASK_PREFIX : str := py "ai_task:".
Definition task_key (task_id : str) : str := TASK_PREFIX ++ task_id.
Definition STATS_PREFIX : str := py "ai_stats:".
Definition stats_key (date : str) : str := STATS_PREFIX ++ date.
End RedisKeys.

(** ** services/task_service.py *)

Module TaskService.
Import Schemas Env.

(** A keyword argument of [update_task]. *)
Inductive update :=
| set_task_id (v : str)
| set_status (v : str)
| set_result (v : option str)
| set_error (v : option str)
| set_created_at (v : str)
| set_completed_at (v : option str).

(** [setattr(task, key, value)] *)
Definition setattr (t : TaskResult) (u : update) : TaskResult :=
  match u with
  | set_task_id v =>
      mkTaskResult v (status t) (result t) (error t) (created_at t) (completed_at t)
  | set_status v =>
      mkTaskResult (task_id t) v (result t) (error t) (created_at t) (completed_at t)
  | set_result v =>
      mkTaskResult (task_id t) (status t) v (error t) (created_at t) (completed_at t)
  | set_error v =>
      mkTaskResult (task_id t) (status t) (result t) v (created_at t) (completed_at t)
  | set_created_at v =>
      mkTaskResult (task_id t) (status t) (result t) (error t) v (completed_at t)
  | set_completed_at v =>
      mkTaskResult (task_id t) (status t) (result t) (error t) (created_at t) v
  end.

(** [create_task] *)
Definition create_task (cfg : Config.t) (task_id : str) (task_result : TaskResult)
    (w : World) : World :=
  snd (RedisClient.set_json (RedisKeys.task_key task_id) (dict task_result)
         (Some (Config.TASK_EXPIRE_SECONDS cfg)) w).

(** [get_task] *)
Definition get_task (task_id : str) (w : World)
  : res (option TaskResult) * World :=
  let '(task_data, w) := RedisClient.get_json (RedisKeys.task_key task_id) w in
  match task_data with
  | Some data =>
      if pyval_truthy data
      then match TaskResult_new data with
           | Ok t => (Ok (Some t), w)
           | Raise e => (Raise e, w)
           end
      else (Ok None, w)
  | None => (Ok None, w)
  end.

(** [update_task] *)
Definition update_task (cfg : Config.t) (task_id : str) (updates : list update)
    (w : World) : res unit * World :=
  match get_task task_id w with
  | (Raise e, w) => (Raise e, w)
  | (Ok None, w) => (Ok tt, w)
  | (Ok (Some task), w) =>
      let task := fold_left setattr updates task in
      (Ok tt, create_task cfg task_id task w)
  end.

(** [process_translation_task]. [call_ai_model] is the method of the
    service object the code calls; the service class of this repository
    defines none, see [call_ai_model_absent]. The awaited call takes [dt]
    seconds, whether it answers or raises. *)
Definition process_translation_task (cfg : Config.t)
    (call_ai_model : str -> str -> res str) (dt : Z)
    (task_id text source_lang target_lang : str) (w : World)
  : res unit * World :=
  let failed (e : exn) (w : World) :=
    update_task cfg task_id
      [set_status (py "failed"); set_error (Some (exn_str e))] w in
  match update_task cfg task_id [set_status (py "processing")] w with
  | (Raise e, w) => failed e w
  | (Ok _, w) =>
      let prompt :=
        if str_eqb target_lang (py "en")
        then py "请将以下中文翻译为英文：" ++ text
        else py "Please translate the following English to Chinese: " ++ text in
      let outcome := call_ai_model prompt (py "translation") in
      let w := elapse dt w in
      match outcome with
      | Raise e => failed e w
      | Ok result =>
          match update_task cfg task_id
                  [set_status (py "completed"); set_result (Some result);
                   set_completed_at (Some (isoformat (now w)))] w with
          | (Raise e, w) => failed e w
          | (Ok _, w) => (Ok tt, w)
          end
      end
  end.

(** [process_summary_task]; [max_length] is shown in decimal digits, and
    the awaited call takes [dt] seconds. *)
Definition process_summary_task (cfg : Config.t)
    (call_ai_model : str -> str -> res str) (dt : Z)
    (task_id text : str) (max_length : Z) (w : World)
  : res unit * World :=
  let failed (e : exn) (w : World) :=
    update_task cfg task_id
      [set_status (py "failed"); set_error (Some (exn_str e))] w in
  match update_task cfg task_id [set_status (py "processing")] w with
  | (Raise e, w) => failed e w
  | (Ok _, w) =>
      let prompt :=
        py "请对以下文本进行总结，限制在"
          ++ py (NilZero.string_of_int (Z.to_int max_length))
          ++ py "字以内：" ++ text in
      let outcome := call_ai_model prompt (py "summary") in
      let w := elapse dt w in
      match outcome with
      | Raise e => failed e w
      | Ok result =>
          match update_task cfg task_id
                  [set_status (py "completed"); set_result (Some result);
                   set_completed_at (Some (isoformat (now w)))] w with
          | (Raise e, w) => failed e w
          | (Ok _, w) => (Ok tt, w)
          end
      end
  end.

(** Looking up [call_ai_model] on an [AIService] object, as the class
    stands. *)
Definition call_ai_model_absent (prompt kind : str) : res str :=
  Raise (AttributeError (py "'AIService' object has no attribute 'call_ai_model'")).

End TaskService.

(** ** routers/translation.py and routers/tasks.py *)

Module Routers.
Import Schemas Env AIProviders.

(** [TranslationRequest] *)
Record TranslationRequest := mkRequest {
  text : str;
  source_lang : str;
  target_lang : str
}.

(** A call queued with [background_tasks.add_task], run after the
    response has been sent. *)
Inductive Job :=
| process_translation (task_id text source_lang target_lang : str).

(** [translate_async]; [task_id] is the identifier drawn by [uuid.uuid4()]. *)
Definition translate_async (request : TranslationRequest) (task_id : str)
    (w : World) : TaskResponse * list Job * World :=
  let task_result :=
    mkTaskResult task_id (py "pending") None None (isoformat (now w)) None in
  let w :=
    snd (RedisClient.set (RedisKeys.task_key task_id)
           (model_dump_json task_result) (Some 3600%Z) w) in
  let background_tasks :=
    [process_translation task_id (text request) (source_lang request)
       (target_lang request)] in
  (mkTaskResponse task_id (py "pending")
     (py "翻译任务已提交，请使用task_id轮询结果"),
   background_tasks, w).

(** [_process_translation_task]; the awaited service call takes [dt]
    seconds, and the two clock readings of one record are taken as equal.
    The whole body is inside [try]; the handler of [Exception] writes the
    failed record. *)
Definition _process_translation_task (r : Remote) (ai_service : AIService.t)
    (dt : Z) (task_id text source_lang target_lang : str) (w : World) : World :=
  let task_result :=
    mkTaskResult task_id (py "processing") None None (isoformat (now w)) None in
  let w :=
    snd (RedisClient.set (RedisKeys.task_key task_id)
           (model_dump_json task_result) (Some 3600%Z) w) in
  let outcome :=
    AIService.translate_text r ai_service text source_lang target_lang in
  let w := elapse dt w in
  match outcome with
  | Ok result =>
      let task_result :=
        mkTaskResult task_id (py "completed") (Some result) None
          (isoformat (now w)) (Some (isoformat (now w))) in
      snd (RedisClient.set (RedisKeys.task_key task_id)
             (model_dump_json task_result) (Some 3600%Z) w)
  | Raise e =>
      let task_result :=
        mkTaskResult task_id (py "failed") None (Some (exn_str e))
          (isoformat (now w)) (Some (isoformat (now w))) in
      snd (RedisClient.set (RedisKeys.task_key task_id)
             (model_dump_json task_result) (Some 3600%Z) w)
  end.

Definition run_job (r : Remote) (ai_service : AIService.t) (dt : Z) (j : Job)
    (w : World) : World :=
  match j with
  | process_translation task_id text source_lang target_lang =>
      _process_translation_task r ai_service dt task_id text source_lang
        target_lang w
  end.

(** One server-sent event: [data: ] followed by the dumped dictionary and
    an empty line. The dictionaries hold texts only. *)
Definition sse (o : Json.object) : str :=
  py "data: " ++ Json.dumps_with (py ", ") (py ": ") o ++ [LF; LF].

Definition start_event : str :=
  sse [(py "type", Json.JString (py "start"));
       (py "message", Json.JString (py "开始翻译"))].

Definition chunk_event (clean_chunk : str) : str :=
  sse [(py "type", Json.JString (py "chunk"));
       (py "content", Json.JString clean_chunk)].

Definition done_event (full_result : str) : str :=
  sse [(py "type", Json.JString (py "done"));
       (py "message", Json.JString (py "翻译完成"));
       (py "full_result", Json.JString full_result)].

Definition error_event (msg : str) : str :=
  sse [(py "type", Json.JString (py "error"));
       (py "message", Json.JString msg)].

(** [if chunk and chunk.strip()] *)
Definition relayed (chunk : str) : bool :=
  truthy chunk && truthy (strip chunk).

Definition clean_chunk (chunk : str) : str :=
  replace TAB [SP] (replace CR [SP] (replace LF [SP] (strip chunk))).

(** [event_stream] of [translate_stream]: the frames sent to the caller. *)
Definition event_stream (r : Remote) (ai_service : AIService.t)
    (request : TranslationRequest) : list str :=
  let '(chunks, fin) :=
    AIService.translate_stream r ai_service (text request)
      (source_lang request) (target_lang request) in
  let shown := List.filter relayed chunks in
  let full_result := concat (List.map strip shown) in
  [start_event]
    ++ List.map (fun chunk => chunk_event (clean_chunk chunk)) shown
    ++ match fin with
       | None => [done_event full_result]
       | Some e => [error_event (exn_str e)]
       end.

(** The answer of the polling route. *)
Record PollResponse := mkPoll {
  success : bool;
  data : Json.object;
  poll_message : str
}.

(** [get_task_result] *)
Definition get_task_result (task_id : str) (w : World)
  : res PollResponse * World :=
  match TaskService.get_task task_id w with
  | (Raise e, w) => (Raise e, w)
  | (Ok None, w) => (Raise (HTTPException 404 (py "任务不存在")), w)
  | (Ok (Some task), w) =>
      (Ok (mkPoll true (dict task) (py "获取任务状态成功")), w)
  end.

(** The answer of the synchronous translation route. *)
Record TranslationData := mkTranslationData {
  original_text : str;
  translated_text : str;
  data_source_lang : str;
  data_target_lang : str
}.

(** [translate_sync]: an exception of the service becomes the HTTP error
    500. *)
Definition translate_sync (r : Remote) (ai_service : AIService.t)
    (request : TranslationRequest) : res (bool * TranslationData * str) :=
  match AIService.translate_text r ai_service (text request)
          (source_lang request) (target_lang request) with
  | Ok result =>
      Ok (true,
          mkTranslationData (text request) result (source_lang request)
            (target_lang request),
          py "翻译成功")
  | Raise e => Raise (HTTPException 500 (py "翻译失败: " ++ exn_str e))
  end.

End Routers.

(** ** routers/summary.py *)

Module Summary.
Import Schemas Env AIProviders.

(** [SummaryRequest]; [max_length] defaults to 200. *)
Record SummaryRequest := mkSummaryRequest {
  text : str;
  max_length : option Z
}.

Record SummaryData := mkSummaryData {
  original_text : str;
  summary : str;
  data_max_length : option Z
}.

(** [summarize_sync] *)
Definition summarize_sync (r : Remote) (ai_service : AIService.t)
    (request : SummaryRequest) : res (bool * SummaryData * str) :=
  match AIService.summarize_text r ai_service (text request) with
  | Ok result =>
      Ok (true, mkSummaryData (text request) result (max_length request),
          py "总结成功")
  | Raise e => Raise (HTTPException 500 (py "总结失败: " ++ exn_str e))
  end.

Inductive Job :=
| process_summary (task_id text : str).

(** [summarize_async] *)
Definition summarize_async (request : SummaryRequest) (task_id : str) (w : World)
  : TaskResponse * list Job * World :=
  let task_result :=
    mkTaskResult task_id (py "pending") None None (isoformat (now w)) None in
  let w :=
    snd (RedisClient.set (RedisKeys.task_key task_id)
           (model_dump_json task_result) (Some 3600%Z) w) in
  let background_tasks := [process_summary task_id (text request)] in
  (mkTaskResponse task_id (py "pending")
     (py "总结任务已提交，请使用task_id轮询结果"),
   background_tasks, w).

(** [_process_summary_task], with the conventions of
    [Routers._process_translation_task]. *)
Definition _process_summary_task (r : Remote) (ai_service : AIService.t)
    (dt : Z) (task_id text : str) (w : World) : World :=
  let task_result :=
    mkTaskResult task_id (py "processing") None None (isoformat (now w)) None in
  let w :=
    snd (RedisClient.set (RedisKeys.task_key task_id)
           (model_dump_json task_result) (Some 3600%Z) w) in
  let outcome := AIService.summarize_text r ai_service text in
  let w := elapse dt w in
  match outcome with
  | Ok result =>
      let task_result :=
        mkTaskResult task_id (py "completed") (Some result) None
          (isoformat (now w)) (Some (isoformat (now w))) in
      snd (RedisClient.set (RedisKeys.task_key task_id)
             (model_dump_json task_result) (Some 3600%Z) w)
  | Raise e =>
      let task_result :=
        mkTaskResult task_id (py "failed") None (Some (exn_str e))
          (isoformat (now w)) (Some (isoformat (now w))) in
      snd (RedisClient.set (RedisKeys.task_key task_id)
             (model_dump_json task_result) (Some 3600%Z) w)
  end.

Definition sse (o : Json.object) : str :=
  py "data: " ++ Json.dumps_with (py ", ") (py ": ") o ++ [LF; LF].

Definition started_event : str :=
  sse [(py "status", Json.JString (py "started"));
       (py "message", Json.JString (py "开始总结"))].

Definition chunk_event (clean_chunk : str) : str :=
  sse [(py "chunk", Json.JString clean_chunk)].

Definition completed_event : str :=
  sse [(py "status", Json.JString (py "completed"));
       (py "message", Json.JString (py "总结完成"))].

Definition done_marker : str := py "data: [DONE]" ++ [LF; LF].

(** [generate] of [summarize_stream]: the frames yielded, and how the
    generator ends; it has no handler, so an exception of the service
    stream ends it. *)
Definition generate (r : Remote) (ai_service : AIService.t)
    (request : SummaryRequest) : gen :=
  let '(chunks, fin) := AIService.summarize_stream r ai_service (text request) in
  let shown := List.filter (fun chunk => truthy (strip chunk)) chunks in
  let frames :=
    [started_event]
      ++ List.map (fun chunk => chunk_event (Routers.clean_chunk chunk)) shown in
  match fin with
  | None => (frames ++ [completed_event; done_marker], None)
  | Some e => (frames, Some e)
  end.

End Summary.

(** ** The lifecycle of a task, as the specification gives it *)

Module Lifecycle.
Import Schemas Env.

Definition pending : list N := py "pending".
Definition processing : list N := py "processing".
Definition completed : list N := py "completed".
Definition failed : list N := py "failed".

(** [pending -> processing -> completed | failed] *)
Definition transition (a b : str) : bool :=
  (str_eqb a pending && str_eqb b processing)
  || (str_eqb a processing && (str_eqb b completed || str_eqb b failed)).

Definition terminal (s : str) : bool :=
  str_eqb s completed || str_eqb s failed.

Fixpoint chained (l : list (list N)) : bool :=
  match l with
  | a :: t => match t with
              | b :: _ => transition a b && chained t
              | [] => true
              end
  | [] => true
  end.

(** A sequence of statuses that starts at [pending] and moves by
    transitions of the machine only. *)
Definition follows_machine (l : list (list N)) : bool :=
  match l with
  | [] => true
  | s :: _ => str_eqb s pending && chained l
  end.

(** The status carried by a value handed to the store. *)
Definition written_status (v : pyval) : option (list N) :=
  match v with
  | VStr s =>
      match Json.loads s with
      | Ok d => optional (py "status") d
      | Raise _ => None
      end
  | VDict d => optional (py "status") d
  end.

(** The statuses written under the key of [task_id], oldest first. *)
Definition statuses_written (task_id : str) (w : World) : list (list N) :=
  omap (fun entry : list N * pyval * option Z =>
          if str_eqb (fst (fst entry)) (RedisKeys.task_key task_id)
          then written_status (snd (fst entry)) else None)
       (writes w).


Definition present (o : option (list N)) : bool :=
  match o with Some _ => true | None => false end.

(** The invariant of a task record: which of [result], [error] and
    [completed_at] are set is decided by [status]. *)
Definition well_formed (t : TaskResult) : bool :=
  if str_eqb (status t) failed
  then present (error t) && present (completed_at t) && negb (present (result t))
  else if str_eqb (status t) completed
  then present (result t) && present (completed_at t) && negb (present (error t))
  else if str_eqb (status t) pending || str_eqb (status t) processing
  then negb (present (result t)) && negb (present (error t))
       && negb (present (completed_at t))
  else false.

(** The store works: once a client is connected, the server stays
    reachable. *)
Definition store_ok (w : World) : Prop :=
  _initialized (redis_client w) = true ->
  client (redis_client w) <> None ->
  reachable (server w) = true.

(** The two modes of an initialized client. *)
Definition external (w : World) : Prop :=
  _initialized (redis_client w) = true
  /\ client (redis_client w) = Some Redis
  /\ reachable (server w) = true.

Definition fallback (w : World) : Prop :=
  _initialized (redis_client w) = true /\ client (redis_client w) = None.

End Lifecycle.

(** ** Notions the properties are stated with *)

Module Spec.
Import Schemas Env Lifecycle TextProcessor AIProviders AIService Routers TaskService.

(** The credential of the configured provider is absent or empty. *)
Definition credential_missing (cfg : Config.t) : Prop :=
  (Config.AI_PROVIDER cfg = py "openai" /\ is_set (Config.OPENAI_API_KEY cfg) = false)
  \/ (Config.AI_PROVIDER cfg = py "claude" /\ is_set (Config.CLAUDE_API_KEY cfg) = false)
  \/ (Config.AI_PROVIDER cfg = py "qianwen" /\ is_set (Config.QIANWEN_API_KEY cfg) = false).

(** The frames for a list of fragments. *)
Definition chunk_events (chunks : list str) : list str :=
  List.map (fun chunk => chunk_event (clean_chunk chunk))
    (List.filter relayed chunks).

(** The statement of the specification, at one request: when the adapter's
    stream fails after [pieces], the caller receives the frames of
    [pieces] and then an error frame. *)
Definition error_terminated (r : Remote) (self : AIService.t)
    (request : TranslationRequest) : Prop :=
  forall p pieces e,
    provider self = Some p ->
    AIProviders.translate_stream r p (deep_clean_text (text request))
      (source_lang request) (target_lang request) = (pieces, Some e) ->
    event_stream r self request
    = [start_event] ++ chunk_events pieces ++ [error_event (exn_str e)].

(** The record written at submission, and the job queued with it. *)
Definition pending_record (task_id : str) (t : Z) : TaskResult :=
  mkTaskResult task_id pending None None (isoformat t) None.

Definition job_of (request : TranslationRequest) (task_id : str) : Job :=
  process_translation task_id (text request) (source_lang request)
    (target_lang request).

(** The record written last by the background job. *)
Definition final_record (task_id : str) (outcome : res (list N)) (t : Z)
  : TaskResult :=
  match outcome with
  | Ok result =>
      mkTaskResult task_id completed (Some result) None (isoformat t)
        (Some (isoformat t))
  | Raise e =>
      mkTaskResult task_id failed None (Some (exn_str e)) (isoformat t)
        (Some (isoformat t))
  end.



(** The statement of the specification on a submission, at one request
    and one state of the world: the record written with status [pending]
    is what a poll of the identifier returns before the job runs. *)
Definition retrievable_when_submitted (request : TranslationRequest)
    (task_id : list N) (w : World) : Prop :=
  fst (get_task_result task_id (snd (translate_async request task_id w)))
  = Ok (mkPoll true (dict (pending_record task_id (now w)))
          (py "获取任务状态成功")).

(** Updates that name neither [task_id] nor [created_at] leave both as
    they were. *)
Definition keeps_identity (u : update) : bool :=
  match u with
  | set_task_id _ | set_created_at _ => false
  | _ => true
  end.

(** The record the service leaves when the model call raises. *)
Definition failed_record (t : TaskResult) (e : exn) : TaskResult :=
  mkTaskResult (task_id t) failed (result t) (Some (exn_str e)) (created_at t)
    (completed_at t).

End Spec.

(** ** Concrete situations used as examples *)

Module Scenario.
Import Schemas Env.

(** A process that has not touched the store yet, with a Redis server that
    answers. *)
Definition world_external : World :=
  mkWorld 100 (mkServer true ∅) (mkClient None ∅ false) [].

(** The same process when no Redis server answers. *)
Definition world_fallback : World :=
  mkWorld 100 (mkServer false ∅) (mkClient None ∅ false) [].

(** A process whose client has connected to a Redis server that no
    longer answers. *)
Definition world_dropped : World :=
  mkWorld 100 (mkServer false ∅) (mkClient (Some Redis) ∅ true) [].

Definition cfg_default : Config.t :=
  Config.mk 3600 (py "qianwen") None None None.


(** The configured provider is [qianwen] and its key is the empty text. *)
Definition cfg_empty_key : Config.t :=
  Config.mk 3600 (py "qianwen") None None (Some []).

(** Every remote request fails. *)
Definition remote_down : AIProviders.Remote :=
  {| AIProviders.complete := fun _ _ => Raise ConnectionError;
     AIProviders.stream := fun _ _ => ([], Some ConnectionError) |}.

(** The stream delivers one piece and then fails. *)
Definition remote_breaks : AIProviders.Remote :=
  {| AIProviders.complete := fun _ _ => Raise ConnectionError;
     AIProviders.stream := fun _ _ => ([py "Hello"], Some ConnectionError) |}.

Definition service_openai : AIService.t :=
  AIService.mk (Some (AIProviders.OpenAIProvider (py "sk-test"))).

Definition request_hi : Routers.TranslationRequest :=
  Routers.mkRequest (py "hi") (py "中文") (py "英文").

Definition t1 : list N := py "t1".

End Scenario.

(** ** Further notions used by the properties of the remaining code *)

Module Notions.
Import Schemas Env.

(** What [clean_user_input] makes of one character: the marks it escapes
    get a backslash, and the last replacement doubles every backslash. *)
Definition escaped_twice (c : char) : list N :=
  if c =? QUOTE then [BACKSLASH; BACKSLASH; QUOTE]
  else if c =? APOS then [BACKSLASH; BACKSLASH; APOS]
  else if c =? LF then [BACKSLASH; BACKSLASH; 110]
  else if c =? CR then [BACKSLASH; BACKSLASH; 114]
  else if c =? TAB then [BACKSLASH; BACKSLASH; 116]
  else if c =? BACKSLASH then [BACKSLASH; BACKSLASH]
  else [c].

(** No two neighbouring characters are both of class [f]. *)
Fixpoint no_run (f : char -> bool) (s : list N) : bool :=
  match s with
  | c :: t =>
      negb (f c && match t with d :: _ => f d | [] => false end) && no_run f t
  | [] => true
  end.

(** The characters of a text that are not whitespace, in order. *)
Definition visible (s : list N) : list N :=
  List.filter (fun c => negb (isspace c)) s.

(** Words separated by exactly one space, nothing else being whitespace,
    and no space at either end; [after_word] tells whether the character
    before the text belongs to a word. The empty text does not count. *)
Fixpoint single_spaced_from (after_word : bool) (s : list N) : bool :=
  match s with
  | [] => after_word
  | c :: t =>
      if isspace c
      then (c =? SP) && after_word && single_spaced_from false t
      else single_spaced_from true t
  end.

Definition single_spaced (s : list N) : bool := single_spaced_from false s.

Definition nonspace (c : N) : bool := negb (isspace c).

(** A word: not empty and free of white space. *)
Definition wordlike (w : list N) : Prop := w <> [] /\ forallb nonspace w = true.

(** The settings hold a key with content for the provider [name], one of the
    three the factory knows. *)
Definition credential_present (cfg : Config.t) (name : list N) : Prop :=
  (name = py "openai" /\ AIProviders.is_set (Config.OPENAI_API_KEY cfg) = true)
  \/ (name = py "claude" /\ AIProviders.is_set (Config.CLAUDE_API_KEY cfg) = true)
  \/ (name = py "qianwen" /\ AIProviders.is_set (Config.QIANWEN_API_KEY cfg) = true).

(** The name and the key a provider object was built with. *)
Definition built_with (cfg : Config.t) (name : list N) (p : AIProviders.provider)
  : Prop :=
  match p with
  | AIProviders.OpenAIProvider k =>
      name = py "openai" /\ Config.OPENAI_API_KEY cfg = Some k
  | AIProviders.ClaudeProvider k =>
      name = py "claude" /\ Config.CLAUDE_API_KEY cfg = Some k
  | AIProviders.QianwenProvider k =>
      name = py "qianwen" /\ Config.QIANWEN_API_KEY cfg = Some k
  end.

Definition is_ok {A : Type} (r : res A) : bool :=
  match r with Ok _ => true | Raise _ => false end.

(** One use of the store client, or one change of its surroundings. *)
Inductive action :=
| do_set (key value : list N) (ex : option Z)
| do_get (key : list N)
| do_set_json (key : list N) (value : Json.object) (ex : option Z)
| do_get_json (key : list N)
| do_delete (key : list N)
| do_is_connected
| time_passes (dt : Z)
| server_becomes (up : bool).

Definition act (a : action) (w : World) : World :=
  match a with
  | do_set key value ex => snd (RedisClient.set key value ex w)
  | do_get key => snd (RedisClient.get key w)
  | do_set_json key value ex => snd (RedisClient.set_json key value ex w)
  | do_get_json key => snd (RedisClient.get_json key w)
  | do_delete key => snd (RedisClient.delete key w)
  | do_is_connected => snd (RedisClient.is_connected w)
  | time_passes dt => elapse dt w
  | server_becomes up => set_reachable up w
  end.

Definition run (acts : list action) (w : World) : World :=
  fold_left (fun w a => act a w) acts w.

End Notions.

(** * Properties *)

(** ** The model on small inputs *)

Module Examples.
Import TextProcessor.

Example py_decodes_utf8 : py "你好" = [0x4f60; 0x597d].
Proof. reflexivity. Qed.

Example strip_unicode_space : strip ([0x3000; 9] ++ py "a b" ++ [0xA0; 10]) = py "a b".
Proof. reflexivity. Qed.

Example split_on_runs :
  split (py "  a b" ++ [LF] ++ py "c ") = [py "a"; py "b"; py "c"].
Proof. reflexivity. Qed.

(** Four line feeds with blanks between them collapse to two; the blanks
    after the last line feed stay and are then merged to one space. *)
Example deep_clean_text_sample :
  deep_clean_text
    (py "  a " ++ [TAB] ++ py " b" ++ [LF; SP; LF; LF; TAB; LF] ++ py "  c"
       ++ [0; 0x200B; LF; LF] ++ py "d  ")
  = py "a b" ++ [LF; LF] ++ py " c" ++ [LF; LF] ++ py "d".
Proof. vm_compute. reflexivity. Qed.

(** Two line feeds are kept as they are. *)
Example deep_clean_text_two_line_feeds :
  deep_clean_text (py "a" ++ [LF; SP; LF] ++ py "b") = py "a" ++ [LF; SP; LF] ++ py "b".
Proof. vm_compute. reflexivity. Qed.

Example clean_user_input_sample :
  clean_user_input (py "a" ++ [QUOTE; LF]) = py "a\\" ++ [QUOTE] ++ py "\\n".
Proof. vm_compute. reflexivity. Qed.

Example dumps_escapes :
  Json.dumps [(py "text", Json.JString (py "a" ++ [QUOTE; LF; 1] ++ py "中"))]
  = Ok (py "{" ++ [QUOTE] ++ py "text" ++ [QUOTE] ++ py ": " ++ [QUOTE]
          ++ py "a\" ++ [QUOTE] ++ py "\n\u0001中" ++ [QUOTE] ++ py "}").
Proof. vm_compute. reflexivity. Qed.

(** A surrogate pair written with two escapes is one character. *)
Example loads_surrogate_pair :
  Json.loads (py "{ " ++ [QUOTE] ++ py "k" ++ [QUOTE] ++ py " : " ++ [QUOTE]
                ++ py "\ud83d\ude00\/" ++ [QUOTE] ++ py ", " ++ [QUOTE] ++ py "n"
                ++ [QUOTE] ++ py ":null}")
  = Ok [(py "k", Json.JString [0x1F600; 47]); (py "n", Json.JNull)].
Proof. vm_compute. reflexivity. Qed.

Example loads_rejects_raw_control :
  Json.loads (py "{" ++ [QUOTE] ++ py "k" ++ [QUOTE] ++ py ":" ++ [QUOTE; LF; QUOTE]
                ++ py "}")
  = Raise JSONDecodeError.
Proof. vm_compute. reflexivity. Qed.

Example mock_summary_truncates :
  AIService.mock_summary (repeat 97 51) = py "模拟总结: " ++ repeat 97 50 ++ py "...".
Proof. vm_compute. reflexivity. Qed.

End Examples.

(** ** The substitution loop *)

Section SubLoop.
Import Re.
Variables (p : regex) (repl : str).

Lemma sub_loop_enough n m (s : str) :
  (length s <= n)%nat -> (length s <= m)%nat ->
  sub_loop n p repl s = sub_loop m p repl s.
Proof.
  revert m s. induction n as [|n IH]; intros m s Hn Hm.
  - destruct s; simpl in Hn; [|lia]. destruct m; reflexivity.
  - destruct m as [|m].
    + destruct s; simpl in Hm; [reflexivity|lia].
    + destruct s as [|x t]; [reflexivity|]. simpl in Hn, Hm.
      cbn [sub_loop].
      destruct (match_here p (x :: t)) as [r|].
      * destruct (length r <? length (x :: t))%nat eqn:Hlt.
        -- apply Nat.ltb_lt in Hlt. simpl in Hlt.
           f_equal. apply IH; lia.
        -- f_equal. apply IH; lia.
      * f_equal. apply IH; lia.
Qed.

(** One round of [re.sub] at the head of the text. *)
Lemma sub_cons x (t : str) :
  sub p repl (x :: t) =
  match match_here p (x :: t) with
  | Some r =>
      if (length r <? length (x :: t))%nat
      then repl ++ sub p repl r
      else x :: sub p repl t
  | None => x :: sub p repl t
  end.
Proof.
  unfold sub. cbn [length sub_loop].
  destruct (match_here p (x :: t)) as [r|]; [|reflexivity].
  destruct (length r <? S (length t))%nat eqn:Hlt; [|reflexivity].
  apply Nat.ltb_lt in Hlt.
  f_equal. apply sub_loop_enough; lia.
Qed.

Lemma sub_nil : sub p repl [] = [].
Proof. reflexivity. Qed.
End SubLoop.

(** ** Shape of the three rewrites of [deep_clean_text] *)

Module ShapeFacts.
Import Re TextProcessor Shape.

Lemma is_lf_isspace c : is_lf c = true -> isspace c = true.
Proof. unfold is_lf, LF. intros ->%N.eqb_eq. reflexivity. Qed.

Lemma is_blank_isspace c : is_blank c = true -> isspace c = true.
Proof.
  unfold is_blank, SP, TAB.
  intros [->%N.eqb_eq | ->%N.eqb_eq]%orb_true_iff; reflexivity.
Qed.

Lemma is_blank_not_lf c : is_blank c = true -> is_lf c = false.
Proof.
  unfold is_blank, is_lf, SP, TAB, LF.
  intros [->%N.eqb_eq | ->%N.eqb_eq]%orb_true_iff; reflexivity.
Qed.

Lemma is_lf_allowed c : is_lf c = true -> allowed c = true.
Proof. unfold is_lf, LF. intros ->%N.eqb_eq. reflexivity. Qed.

(** *** The filter *)

Lemma sub_disallowed s : sub re_disallowed [] s = List.filter allowed s.
Proof.
  induction s as [|c t IH]; [reflexivity|].
  rewrite sub_cons. cbn [re_disallowed match_here List.filter].
  destruct (allowed c); cbn [negb].
  - f_equal. exact IH.
  - assert ((length t <? length (c :: t))%nat = true) as ->
      by (apply Nat.ltb_lt; simpl; lia).
    exact IH.
Qed.

(** *** Runs of blanks *)

Lemma star_all c s : star c Some s = Some (drop_while c s).
Proof.
  induction s as [|x t IH]; [reflexivity|]. cbn [star drop_while].
  destruct (c x); [|reflexivity]. rewrite IH. reflexivity.
Qed.

Lemma drop_while_length f s : (length (drop_while f s) <= length s)%nat.
Proof.
  induction s as [|x t IH]; simpl; [lia|]. destruct (f x); simpl; lia.
Qed.

Lemma sub_blanks_cons c t :
  sub re_blanks [SP] (c :: t) =
  if is_blank c then SP :: sub re_blanks [SP] (drop_while is_blank t)
  else c :: sub re_blanks [SP] t.
Proof.
  rewrite sub_cons. cbn [re_blanks match_here].
  destruct (is_blank c); [|reflexivity].
  change (match_here []) with (@Some str). rewrite star_all.
  assert ((length (drop_while is_blank t) <? length (c :: t))%nat = true) as ->.
  { apply Nat.ltb_lt. pose proof (drop_while_length is_blank t). simpl. lia. }
  reflexivity.
Qed.

(** *** Blank lines *)

Lemma lf_count_zero_head c t :
  lf_count (c :: t) = 0%nat -> is_lf c = false.
Proof.
  cbn [lf_count]. destruct (is_lf c) eqn:E; [|reflexivity].
  rewrite (is_lf_isspace _ E). discriminate.
Qed.

Lemma after_last_lf_spec s :
  match after_last_lf s with
  | Some r => (0 < lf_count s)%nat /\ lf_count r = 0%nat
              /\ (length r < length s)%nat
  | None => lf_count s = 0%nat
  end.
Proof.
  induction s as [|c t IH]; [reflexivity|]. cbn [after_last_lf lf_count].
  destruct (isspace c); [|reflexivity].
  destruct (after_last_lf t) as [r|].
  - destruct IH as (H1 & H2 & H3). simpl. repeat split; try lia.
  - destruct (is_lf c); simpl; [repeat split; lia | lia].
Qed.

Lemma blank_tail_spec s :
  match blank_tail s with
  | Some r => (2 <= lf_count s)%nat /\ lf_count r = 0%nat
              /\ (length r < length s)%nat
  | None => (lf_count s < 2)%nat
  end.
Proof.
  induction s as [|c t IH]; [simpl; lia|]. cbn [blank_tail lf_count].
  destruct (isspace c); [|lia].
  destruct (blank_tail t) as [r|].
  - destruct IH as (H1 & H2 & H3). simpl. repeat split; try lia.
  - pose proof (after_last_lf_spec t) as Ha.
    destruct (is_lf c).
    + destruct (after_last_lf t) as [r|].
      * destruct Ha as (H1 & H2 & H3). simpl. repeat split; lia.
      * lia.
    + lia.
Qed.

Lemma star_lf_plus s :
  star isspace (match_here [Atom is_lf Plus]) s = after_last_lf s.
Proof.
  induction s as [|c t IH]; [reflexivity|].
  cbn [star after_last_lf]. rewrite IH.
  assert (Hk : match_here [Atom is_lf Plus] (c :: t)
               = if is_lf c then Some (drop_while is_lf t) else None).
  { cbn [match_here]. destruct (is_lf c); [|reflexivity].
    change (match_here []) with (@Some str). apply star_all. }
  rewrite Hk. clear Hk.
  destruct (isspace c) eqn:Hs.
  - pose proof (after_last_lf_spec t) as Ha.
    destruct (after_last_lf t) as [r|]; [reflexivity|].
    destruct (is_lf c); [|reflexivity].
    destruct t as [|d t']; [reflexivity|].
    cbn [drop_while]. rewrite (lf_count_zero_head _ _ Ha). reflexivity.
  - destruct (is_lf c) eqn:E; [|reflexivity].
    rewrite (is_lf_isspace _ E) in Hs. discriminate.
Qed.

Lemma star_lf_star_lf_plus s :
  star isspace
    (match_here [Atom is_lf Once; Atom isspace Star; Atom is_lf Plus]) s
  = blank_tail s.
Proof.
  induction s as [|c t IH]; [reflexivity|].
  cbn [star blank_tail]. rewrite IH.
  assert (Hk : match_here
                 [Atom is_lf Once; Atom isspace Star; Atom is_lf Plus] (c :: t)
               = if is_lf c then after_last_lf t else None).
  { cbn [match_here]. destruct (is_lf c); [|reflexivity].
    apply star_lf_plus. }
  rewrite Hk. clear Hk.
  destruct (isspace c) eqn:Hs; [reflexivity|].
  destruct (is_lf c) eqn:E; [|reflexivity].
  rewrite (is_lf_isspace _ E) in Hs. discriminate.
Qed.

Lemma match_blank_lines c t :
  match_here re_blank_lines (c :: t)
  = if is_lf c then blank_tail t else None.
Proof.
  unfold re_blank_lines. cbn [match_here].
  destruct (is_lf c); [|reflexivity]. apply star_lf_star_lf_plus.
Qed.

Lemma sub_blank_lines_cons c t :
  sub re_blank_lines [LF; LF] (c :: t) =
  if is_lf c
  then match blank_tail t with
       | Some r => LF :: LF :: sub re_blank_lines [LF; LF] r
       | None => c :: sub re_blank_lines [LF; LF] t
       end
  else c :: sub re_blank_lines [LF; LF] t.
Proof.
  rewrite sub_cons, match_blank_lines.
  destruct (is_lf c); [|reflexivity].
  pose proof (blank_tail_spec t) as Hb.
  destruct (blank_tail t) as [r|]; [|reflexivity].
  destruct Hb as (_ & _ & Hlen).
  assert ((length r <? length (c :: t))%nat = true) as ->
    by (apply Nat.ltb_lt; simpl; lia).
  reflexivity.
Qed.

(** *** What each rewrite leaves behind *)

Lemma lf_count_sub_blank_lines s :
  lf_count (sub re_blank_lines [LF; LF] s) = Nat.min (lf_count s) 2.
Proof.
  remember (length s) as n eqn:Hn. revert s Hn.
  induction n as [n IH] using lt_wf_ind. intros [|c t] Hn; [reflexivity|].
  simpl in Hn. rewrite sub_blank_lines_cons.
  destruct (is_lf c) eqn:El.
  - pose proof (is_lf_isspace _ El) as Hs.
    pose proof (blank_tail_spec t) as Hb.
    destruct (blank_tail t) as [r|].
    + destruct Hb as (H2 & H0 & Hlen).
      assert (Hr : lf_count (sub re_blank_lines [LF; LF] r) = 0%nat).
      { rewrite (IH (length r)); [|lia|reflexivity]. rewrite H0. reflexivity. }
      cbn [lf_count]. rewrite Hs, El. change (isspace LF) with true.
      change (is_lf LF) with true. cbv iota. rewrite Hr. lia.
    + cbn [lf_count]. rewrite Hs, El.
      rewrite (IH (length t)); [|lia|reflexivity]. lia.
  - cbn [lf_count]. rewrite El.
    destruct (isspace c); [|reflexivity].
    rewrite (IH (length t)); [|lia|reflexivity]. lia.
Qed.

Lemma no_blank_lines_sub s :
  no_blank_lines (sub re_blank_lines [LF; LF] s) = true.
Proof.
  remember (length s) as n eqn:Hn. revert s Hn.
  induction n as [n IH] using lt_wf_ind. intros [|c t] Hn; [reflexivity|].
  simpl in Hn. rewrite sub_blank_lines_cons.
  destruct (is_lf c) eqn:El.
  - pose proof (blank_tail_spec t) as Hb.
    destruct (blank_tail t) as [r|].
    + destruct Hb as (H2 & H0 & Hlen).
      pose proof (lf_count_sub_blank_lines r) as Hr. rewrite H0 in Hr.
      simpl in Hr.
      cbn [no_blank_lines lf_count]. change (isspace LF) with true.
      change (is_lf LF) with true. cbv iota. rewrite Hr.
      rewrite (IH (length r)); [reflexivity|lia|reflexivity].
    + cbn [no_blank_lines]. rewrite El, lf_count_sub_blank_lines.
      rewrite (IH (length t)); [|lia|reflexivity].
      destruct (2 <=? Nat.min (lf_count t) 2)%nat eqn:E; [|reflexivity].
      apply Nat.leb_le in E. lia.
  - cbn [no_blank_lines]. rewrite El.
    rewrite (IH (length t)); [reflexivity|lia|reflexivity].
Qed.

Lemma sub_blank_lines_fixed s :
  no_blank_lines s = true -> sub re_blank_lines [LF; LF] s = s.
Proof.
  induction s as [|c t IH]; [reflexivity|]. cbn [no_blank_lines].
  intros [Hc Ht]%andb_true_iff. rewrite sub_blank_lines_cons, (IH Ht).
  destruct (is_lf c); [|reflexivity].
  pose proof (blank_tail_spec t) as Hb.
  destruct (blank_tail t) as [r|]; [|reflexivity].
  destruct Hb as (H2 & _). apply Nat.leb_le in H2.
  rewrite H2 in Hc. discriminate.
Qed.

Lemma lf_count_drop_blanks t :
  lf_count (drop_while is_blank t) = lf_count t.
Proof.
  induction t as [|c t IH]; [reflexivity|]. cbn [drop_while].
  destruct (is_blank c) eqn:Eb; [|reflexivity].
  cbn [lf_count]. rewrite (is_blank_isspace _ Eb), (is_blank_not_lf _ Eb).
  exact IH.
Qed.

Lemma lf_count_sub_blanks s :
  lf_count (sub re_blanks [SP] s) = lf_count s.
Proof.
  remember (length s) as n eqn:Hn. revert s Hn.
  induction n as [n IH] using lt_wf_ind. intros [|c t] Hn; [reflexivity|].
  simpl in Hn. rewrite sub_blanks_cons.
  destruct (is_blank c) eqn:Eb.
  - cbn [lf_count]. rewrite (is_blank_isspace _ Eb), (is_blank_not_lf _ Eb).
    change (isspace SP) with true. change (is_lf SP) with false. cbv iota.
    pose proof (drop_while_length is_blank t).
    rewrite (IH (length (drop_while is_blank t))); [|lia|reflexivity].
    simpl. apply lf_count_drop_blanks.
  - cbn [lf_count]. destruct (isspace c); [|reflexivity].
    rewrite (IH (length t)); [reflexivity|lia|reflexivity].
Qed.

Lemma no_blank_lines_drop f s :
  no_blank_lines s = true -> no_blank_lines (drop_while f s) = true.
Proof.
  induction s as [|c t IH]; [reflexivity|]. cbn [drop_while].
  destruct (f c); [|tauto]. cbn [no_blank_lines].
  intros [_ Ht]%andb_true_iff. auto.
Qed.

Lemma no_blank_lines_sub_blanks s :
  no_blank_lines s = true -> no_blank_lines (sub re_blanks [SP] s) = true.
Proof.
  remember (length s) as n eqn:Hn. revert s Hn.
  induction n as [n IH] using lt_wf_ind. intros [|c t] Hn; [reflexivity|].
  simpl in Hn. cbn [no_blank_lines]. intros [Hc Ht]%andb_true_iff.
  rewrite sub_blanks_cons. destruct (is_blank c) eqn:Eb.
  - cbn [no_blank_lines]. change (is_lf SP) with false. cbn [andb negb].
    pose proof (drop_while_length is_blank t).
    apply (IH (length (drop_while is_blank t))); [lia|reflexivity|].
    apply no_blank_lines_drop, Ht.
  - cbn [no_blank_lines]. rewrite lf_count_sub_blanks, Hc.
    apply (IH (length t)); [lia|reflexivity|exact Ht].
Qed.

Lemma head_blank_drop t : head_blank (drop_while is_blank t) = false.
Proof.
  induction t as [|c t IH]; [reflexivity|]. cbn [drop_while].
  destruct (is_blank c) eqn:E; [exact IH|exact E].
Qed.

Lemma head_blank_sub_blanks s :
  head_blank s = false -> head_blank (sub re_blanks [SP] s) = false.
Proof.
  destruct s as [|c t]; [reflexivity|]. cbn [head_blank]. intros E.
  rewrite sub_blanks_cons, E. exact E.
Qed.

Lemma no_blank_runs_sub s : no_blank_runs (sub re_blanks [SP] s) = true.
Proof.
  remember (length s) as n eqn:Hn. revert s Hn.
  induction n as [n IH] using lt_wf_ind. intros [|c t] Hn; [reflexivity|].
  simpl in Hn. rewrite sub_blanks_cons. destruct (is_blank c) eqn:Eb.
  - cbn [no_blank_runs]. pose proof (drop_while_length is_blank t).
    rewrite (head_blank_sub_blanks _ (head_blank_drop t)).
    rewrite (IH (length (drop_while is_blank t))); [reflexivity|lia|reflexivity].
  - cbn [no_blank_runs]. rewrite Eb.
    rewrite (IH (length t)); [|lia|reflexivity].
    destruct (c =? TAB) eqn:Et; [|reflexivity].
    apply N.eqb_eq in Et. subst c. discriminate Eb.
Qed.

Lemma sub_blanks_fixed s :
  no_blank_runs s = true -> sub re_blanks [SP] s = s.
Proof.
  induction s as [|c t IH]; [reflexivity|]. cbn [no_blank_runs].
  intros [[Hc1 Hc2]%andb_true_iff Ht]%andb_true_iff.
  rewrite sub_blanks_cons, (IH Ht).
  destruct (is_blank c) eqn:Eb; [|reflexivity].
  cbn [andb] in Hc2. apply negb_true_iff in Hc2.
  assert (c = SP) as ->.
  { unfold is_blank in Eb. apply orb_true_iff in Eb as [E|E].
    - apply N.eqb_eq in E. exact E.
    - rewrite E in Hc1. discriminate. }
  destruct t as [|d t']; [reflexivity|]. cbn [head_blank] in Hc2.
  cbn [drop_while]. rewrite Hc2. rewrite (IH Ht). reflexivity.
Qed.

(** *** Sub-texts *)

Lemma drop_while_suffix f s : exists w, s = w ++ drop_while f s.
Proof.
  induction s as [|c t [w Hw]]; [exists []; reflexivity|]. cbn [drop_while].
  destruct (f c); [|exists []; reflexivity].
  exists (c :: w). simpl. congruence.
Qed.

Lemma rstrip_prefix s : exists w, s = rstrip s ++ w.
Proof.
  unfold rstrip, lstrip.
  destruct (drop_while_suffix isspace (rev s)) as [w Hw].
  exists (rev w). rewrite <- rev_app_distr, <- Hw, rev_involutive.
  reflexivity.
Qed.

Lemma after_last_lf_suffix s r :
  after_last_lf s = Some r -> exists w, s = w ++ r.
Proof.
  revert r. induction s as [|c t IH]; [discriminate|]. intros r.
  cbn [after_last_lf]. destruct (isspace c); [|discriminate].
  destruct (after_last_lf t) as [r'|].
  - intros [= <-]. destruct (IH _ eq_refl) as [w ->].
    exists (c :: w). reflexivity.
  - destruct (is_lf c); [|discriminate]. intros [= <-].
    exists [c]. reflexivity.
Qed.

Lemma blank_tail_suffix s r :
  blank_tail s = Some r -> exists w, s = w ++ r.
Proof.
  revert r. induction s as [|c t IH]; [discriminate|]. intros r.
  cbn [blank_tail]. destruct (isspace c); [|discriminate].
  destruct (blank_tail t) as [r'|].
  - intros [= <-]. destruct (IH _ eq_refl) as [w ->].
    exists (c :: w). reflexivity.
  - destruct (is_lf c); [|discriminate]. intros Ha.
    destruct (after_last_lf_suffix _ _ Ha) as [w ->].
    exists (c :: w). reflexivity.
Qed.

Lemma lf_count_app_le a b : (lf_count a <= lf_count (a ++ b))%nat.
Proof.
  induction a as [|c t IH]; simpl; [lia|].
  destruct (isspace c); lia.
Qed.

Lemma no_blank_lines_app a b :
  no_blank_lines (a ++ b) = true ->
  no_blank_lines a = true /\ no_blank_lines b = true.
Proof.
  induction a as [|c t IH]; [auto|]. cbn [app no_blank_lines].
  intros [Hc Ht]%andb_true_iff. destruct (IH Ht) as [Ha Hb].
  split; [|exact Hb]. rewrite Ha, andb_true_r.
  destruct (is_lf c); [|reflexivity]. cbn [andb] in *.
  apply negb_true_iff in Hc. apply Nat.leb_gt in Hc.
  apply negb_true_iff, Nat.leb_gt.
  pose proof (lf_count_app_le t b). lia.
Qed.

Lemma head_blank_app a b :
  head_blank (a ++ b) = false -> head_blank a = false.
Proof. destruct a; [reflexivity|exact id]. Qed.

Lemma no_blank_runs_app a b :
  no_blank_runs (a ++ b) = true ->
  no_blank_runs a = true /\ no_blank_runs b = true.
Proof.
  induction a as [|c t IH]; [auto|]. cbn [app no_blank_runs].
  intros [[Hc1 Hc2]%andb_true_iff Ht]%andb_true_iff.
  destruct (IH Ht) as [Ha Hb]. split; [|exact Hb].
  rewrite Ha, Hc1, andb_true_r. cbn [andb].
  destruct (is_blank c); [|reflexivity]. cbn [andb] in *.
  apply negb_true_iff in Hc2. apply negb_true_iff.
  exact (head_blank_app _ _ Hc2).
Qed.

Lemma forallb_allowed_app a b :
  forallb allowed (a ++ b) = true ->
  forallb allowed a = true /\ forallb allowed b = true.
Proof. rewrite forallb_app. apply andb_true_iff. Qed.

Lemma hereditary_strip P s : hereditary P -> P s = true -> P (strip s) = true.
Proof.
  intros HP Hs. unfold strip, lstrip.
  destruct (drop_while_suffix isspace s) as [w Hw].
  rewrite Hw in Hs. apply HP in Hs as [_ Hs].
  destruct (rstrip_prefix (drop_while isspace s)) as [w' Hw'].
  rewrite Hw' in Hs. apply HP in Hs as [Hs _]. exact Hs.
Qed.

(** *** [strip] *)

Lemma head_space_drop s : head_space (drop_while isspace s) = false.
Proof.
  induction s as [|c t IH]; [reflexivity|]. cbn [drop_while].
  destruct (isspace c) eqn:E; [exact IH|exact E].
Qed.

Lemma drop_while_fixed s :
  head_space s = false -> drop_while isspace s = s.
Proof. destruct s as [|c t]; [reflexivity|]. simpl. intros ->. reflexivity. Qed.

Lemma head_space_rstrip s :
  head_space s = false -> head_space (rstrip s) = false.
Proof.
  intros H. destruct (rstrip_prefix s) as [w Hw].
  destruct (rstrip s) as [|c r]; [reflexivity|].
  rewrite Hw in H. exact H.
Qed.

Lemma rstrip_rstrip s : rstrip (rstrip s) = rstrip s.
Proof.
  unfold rstrip, lstrip. rewrite rev_involutive.
  rewrite (drop_while_fixed _ (head_space_drop (rev s))). reflexivity.
Qed.

Lemma strip_strip s : strip (strip s) = strip s.
Proof.
  unfold strip at 1. unfold lstrip.
  rewrite drop_while_fixed.
  - unfold strip. apply rstrip_rstrip.
  - unfold strip, lstrip. apply head_space_rstrip, head_space_drop.
Qed.

(** *** The allow-list survives the later rewrites *)

Lemma filter_allowed_fixed s :
  forallb allowed s = true -> List.filter allowed s = s.
Proof.
  induction s as [|c t IH]; [reflexivity|]. cbn [forallb List.filter].
  intros [-> Ht]%andb_true_iff. rewrite (IH Ht). reflexivity.
Qed.

Lemma forallb_allowed_filter s :
  forallb allowed (List.filter allowed s) = true.
Proof.
  induction s as [|c t IH]; [reflexivity|]. cbn [List.filter].
  destruct (allowed c) eqn:E; [|exact IH]. cbn [forallb]. rewrite E. exact IH.
Qed.

Lemma forallb_allowed_sub_blank_lines s :
  forallb allowed s = true ->
  forallb allowed (sub re_blank_lines [LF; LF] s) = true.
Proof.
  remember (length s) as n eqn:Hn. revert s Hn.
  induction n as [n IH] using lt_wf_ind. intros [|c t] Hn; [reflexivity|].
  simpl in Hn. cbn [forallb]. intros [Hc Ht]%andb_true_iff.
  rewrite sub_blank_lines_cons.
  assert (Hcopy : forallb allowed (c :: sub re_blank_lines [LF; LF] t) = true).
  { cbn [forallb]. rewrite Hc. apply (IH (length t)); [lia|reflexivity|exact Ht]. }
  destruct (is_lf c); [|exact Hcopy].
  pose proof (blank_tail_spec t) as Hb.
  destruct (blank_tail t) as [r|] eqn:Er; [|exact Hcopy].
  destruct Hb as (_ & _ & Hlen).
  destruct (blank_tail_suffix _ _ Er) as [w Hw].
  rewrite Hw in Ht. apply forallb_allowed_app in Ht as [_ Hr].
  cbn [forallb]. change (allowed LF) with true. cbn [andb].
  apply (IH (length r)); [lia|reflexivity|exact Hr].
Qed.

Lemma forallb_allowed_sub_blanks s :
  forallb allowed s = true ->
  forallb allowed (sub re_blanks [SP] s) = true.
Proof.
  remember (length s) as n eqn:Hn. revert s Hn.
  induction n as [n IH] using lt_wf_ind. intros [|c t] Hn; [reflexivity|].
  simpl in Hn. cbn [forallb]. intros [Hc Ht]%andb_true_iff.
  rewrite sub_blanks_cons. destruct (is_blank c).
  - cbn [forallb]. change (allowed SP) with true. cbn [andb].
    pose proof (drop_while_length is_blank t).
    destruct (drop_while_suffix is_blank t) as [w Hw].
    rewrite Hw in Ht. apply forallb_allowed_app in Ht as [_ Hr].
    apply (IH (length (drop_while is_blank t))); [lia|reflexivity|exact Hr].
  - cbn [forallb]. rewrite Hc.
    apply (IH (length t)); [lia|reflexivity|exact Ht].
Qed.

(** *** Sanitized texts *)

Lemma deep_clean_text_clean s : clean (deep_clean_text s).
Proof.
  unfold deep_clean_text. destruct (truthy s); cbn [negb].
  2: { repeat split. }
  rewrite sub_disallowed.
  repeat split.
  - apply hereditary_strip; [exact forallb_allowed_app|].
    apply forallb_allowed_sub_blanks, forallb_allowed_sub_blank_lines,
      forallb_allowed_filter.
  - apply hereditary_strip; [exact no_blank_lines_app|].
    apply no_blank_lines_sub_blanks, no_blank_lines_sub.
  - apply hereditary_strip; [exact no_blank_runs_app|].
    apply no_blank_runs_sub.
  - apply strip_strip.
Qed.

Lemma deep_clean_text_fixed s : clean s -> deep_clean_text s = s.
Proof.
  intros (Ha & Hl & Hr & Hs). unfold deep_clean_text.
  destruct s as [|c t]; [reflexivity|]. cbn [truthy negb].
  rewrite sub_disallowed, (filter_allowed_fixed _ Ha).
  rewrite (sub_blank_lines_fixed _ Hl), (sub_blanks_fixed _ Hr).
  exact Hs.
Qed.

End ShapeFacts.

(** ** The JSON codec reads back what it writes *)

Module JsonFacts.
Import Json.

Lemma push_some c d rest : push c (Some (d, rest)) = Some (c :: d, rest).
Proof. reflexivity. Qed.

Lemma scanstring_plain c X :
  c <> QUOTE -> c <> BACKSLASH -> 0x20 <= c ->
  scanstring (c :: X) = push c (scanstring X).
Proof.
  intros Hq Hb Hc. cbn [scanstring].
  apply N.eqb_neq in Hq, Hb. rewrite Hq, Hb.
  apply N.ltb_ge in Hc. rewrite Hc. reflexivity.
Qed.

Lemma scanstring_short e x X :
  unescape e = Some x -> e <> 117 ->
  scanstring (BACKSLASH :: e :: X) = push x (scanstring X).
Proof.
  intros Hu He. cbn [scanstring]. change (BACKSLASH =? QUOTE) with false.
  change (BACKSLASH =? BACKSLASH) with true. cbv iota.
  apply N.eqb_neq in He. rewrite He, Hu. reflexivity.
Qed.

Lemma scanstring_u a b c d u X :
  hex4 a b c d = Some u -> is_high_surrogate u = false ->
  scanstring (BACKSLASH :: 117 :: a :: b :: c :: d :: X)
  = push u (scanstring X).
Proof.
  intros Hh Hs. cbn [scanstring]. change (BACKSLASH =? QUOTE) with false.
  change (BACKSLASH =? BACKSLASH) with true. change (117 =? 117) with true.
  cbv iota. rewrite Hh, Hs. cbn [andb].
  destruct X as [|x1 [|x2 [|x3 [|x4 [|x5 [|x6 X]]]]]]; try reflexivity.
  destruct (hex4 x3 x4 x5 x6); reflexivity.
Qed.

Lemma below_32 (P : N -> Prop) :
  (forall n, (n < 32)%nat -> P (N.of_nat n)) -> forall c, c < 0x20 -> P c.
Proof.
  intros H c Hc. rewrite <- (N2Nat.id c). apply H. lia.
Qed.

Lemma control_hex c :
  c < 0x20 ->
  hex4 48 48 (hexdigit (c / 16)) (hexdigit (c mod 16)) = Some c
  /\ is_high_surrogate c = false.
Proof.
  revert c. apply below_32. intros n Hn.
  do 32 (destruct n as [|n]; [split; vm_compute; reflexivity|]). lia.
Qed.

(** The string scanner inverts the escaping of the encoder. *)
Lemma scanstring_escape s rest :
  scanstring (flat_map escape_char s ++ QUOTE :: rest) = Some (s, rest).
Proof.
  induction s as [|c t IH].
  - cbn [flat_map app scanstring]. rewrite N.eqb_refl. reflexivity.
  - cbn [flat_map]. rewrite <- app_assoc. unfold escape_char at 1.
    destruct (c =? QUOTE) eqn:E1.
    { apply N.eqb_eq in E1. subst c. cbn [app].
      rewrite (scanstring_short QUOTE QUOTE); [|reflexivity|discriminate].
      rewrite IH. reflexivity. }
    destruct (c =? BACKSLASH) eqn:E2.
    { apply N.eqb_eq in E2. subst c. cbn [app].
      rewrite (scanstring_short BACKSLASH BACKSLASH); [|reflexivity|discriminate].
      rewrite IH. reflexivity. }
    destruct (c =? 10) eqn:E3.
    { apply N.eqb_eq in E3. subst c. cbn [app].
      rewrite (scanstring_short 110 10); [|reflexivity|discriminate].
      rewrite IH. reflexivity. }
    destruct (c =? 13) eqn:E4.
    { apply N.eqb_eq in E4. subst c. cbn [app].
      rewrite (scanstring_short 114 13); [|reflexivity|discriminate].
      rewrite IH. reflexivity. }
    destruct (c =? 9) eqn:E5.
    { apply N.eqb_eq in E5. subst c. cbn [app].
      rewrite (scanstring_short 116 9); [|reflexivity|discriminate].
      rewrite IH. reflexivity. }
    destruct (c =? 8) eqn:E6.
    { apply N.eqb_eq in E6. subst c. cbn [app].
      rewrite (scanstring_short 98 8); [|reflexivity|discriminate].
      rewrite IH. reflexivity. }
    destruct (c =? 12) eqn:E7.
    { apply N.eqb_eq in E7. subst c. cbn [app].
      rewrite (scanstring_short 102 12); [|reflexivity|discriminate].
      rewrite IH. reflexivity. }
    destruct (c <? 0x20) eqn:E8.
    { apply N.ltb_lt in E8. destruct (control_hex c E8) as [Hh Hs].
      cbn [app]. rewrite (scanstring_u _ _ _ _ c _ Hh Hs), IH. reflexivity. }
    cbn [app]. rewrite scanstring_plain, IH; [reflexivity| | |].
    + apply N.eqb_neq, E1.
    + apply N.eqb_neq, E2.
    + apply N.ltb_ge, E8.
Qed.

Lemma parse_value_encode v rest :
  parse_value (encode_value v ++ rest) = Some (v, rest).
Proof.
  destruct v as [|s].
  - reflexivity.
  - unfold encode_value, encode_basestring, parse_value.
    cbn [app]. rewrite N.eqb_refl, <- app_assoc. cbn [app].
    rewrite scanstring_escape. reflexivity.
Qed.

(** Separators: the punctuation mark followed by JSON whitespace. *)
Lemma skip_ws_pad w X : forallb is_json_ws w = true -> skip_ws (w ++ X) = skip_ws X.
Proof.
  induction w as [|c w IH]; [reflexivity|]. cbn [forallb app skip_ws].
  intros [-> Hw]%andb_true_iff. auto.
Qed.

Lemma skip_ws_value v X : skip_ws (encode_value v ++ X) = encode_value v ++ X.
Proof. destruct v; reflexivity. Qed.

Section Separators.
Variables wi wk : str.
Hypothesis Hwi : forallb is_json_ws wi = true.
Hypothesis Hwk : forallb is_json_ws wk = true.

Lemma parse_members_encode o :
  o <> [] ->
  forall fuel rest, (length o <= fuel)%nat ->
  parse_members fuel
    (encode_items (COMMA :: wi) (COLON :: wk) o ++ RBRACE :: rest)
  = Some (o, rest).
Proof.
  induction o as [|[k v] o IH]; [congruence|]. intros _ fuel rest Hf.
  destruct fuel as [|fuel]; [simpl in Hf; lia|]. simpl in Hf.
  assert (Hitem : forall Y,
    encode_basestring k ++ (COLON :: wk) ++ encode_value v ++ Y
    = QUOTE :: flat_map escape_char k ++ QUOTE :: COLON :: wk
        ++ encode_value v ++ Y).
  { intros Y. unfold encode_basestring. cbn [app].
    rewrite <- app_assoc. reflexivity. }
  destruct o as [|kv' o'].
  - cbn [encode_items]. rewrite <- !app_assoc, Hitem.
    cbn [parse_members]. rewrite N.eqb_refl. cbn [negb].
    rewrite scanstring_escape. cbn [skip_ws].
    change (is_json_ws COLON) with false. cbv iota.
    rewrite N.eqb_refl. cbn [negb].
    rewrite (skip_ws_pad _ _ Hwk), skip_ws_value, parse_value_encode.
    cbn [skip_ws]. change (is_json_ws RBRACE) with false. cbv iota.
    rewrite N.eqb_refl. reflexivity.
  - change (encode_items (COMMA :: wi) (COLON :: wk) ((k, v) :: kv' :: o'))
      with (encode_basestring k ++ (COLON :: wk) ++ encode_value v
            ++ (COMMA :: wi)
            ++ encode_items (COMMA :: wi) (COLON :: wk) (kv' :: o')).
    rewrite <- !app_assoc, Hitem.
    cbn [parse_members]. rewrite N.eqb_refl. cbn [negb].
    rewrite scanstring_escape. cbn [skip_ws].
    change (is_json_ws COLON) with false. cbv iota.
    rewrite N.eqb_refl. cbn [negb].
    rewrite (skip_ws_pad _ _ Hwk), skip_ws_value, parse_value_encode.
    cbn [app skip_ws]. change (is_json_ws COMMA) with false. cbv iota.
    change (COMMA =? RBRACE) with false. cbv iota. rewrite N.eqb_refl.
    rewrite (skip_ws_pad _ _ Hwi).
    assert (Hsk : forall Y,
      skip_ws (encode_items (COMMA :: wi) (COLON :: wk) (kv' :: o') ++ Y)
      = encode_items (COMMA :: wi) (COLON :: wk) (kv' :: o') ++ Y).
    { intros Y. destruct kv' as [k' v']. destruct o'; reflexivity. }
    rewrite Hsk, IH; [reflexivity|discriminate|simpl in *; lia].
Qed.

Lemma encode_items_length o :
  (length o <= length (encode_items (COMMA :: wi) (COLON :: wk) o))%nat.
Proof.
  induction o as [|[k v] o IH]; [simpl; lia|].
  destruct o as [|kv' o'].
  - cbn [encode_items]. unfold encode_basestring. simpl. lia.
  - change (encode_items (COMMA :: wi) (COLON :: wk) ((k, v) :: kv' :: o'))
      with (encode_basestring k ++ (COLON :: wk) ++ encode_value v
            ++ (COMMA :: wi)
            ++ encode_items (COMMA :: wi) (COLON :: wk) (kv' :: o')).
    rewrite !length_app. unfold encode_basestring. simpl in *. lia.
Qed.

(** Parsing a dumped dictionary gives the dictionary back. *)
Lemma loads_dumps_with o :
  loads (dumps_with (COMMA :: wi) (COLON :: wk) o) = Ok o.
Proof.
  unfold dumps_with, loads.
  destruct o as [|kv o'] eqn:Eo; [reflexivity|]. rewrite <- Eo.
  cbn [skip_ws]. change (is_json_ws LBRACE) with false. cbv iota.
  rewrite N.eqb_refl. cbn [negb].
  assert (Hsk : forall Y,
    skip_ws (encode_items (COMMA :: wi) (COLON :: wk) o ++ Y)
    = encode_items (COMMA :: wi) (COLON :: wk) o ++ Y).
  { intros Y. subst o. destruct kv as [k' v']. destruct o'; reflexivity. }
  rewrite Hsk.
  destruct (encode_items (COMMA :: wi) (COLON :: wk) o ++ [RBRACE])
    as [|e s2] eqn:Ee.
  { destruct (encode_items (COMMA :: wi) (COLON :: wk) o); discriminate. }
  assert (He : (e =? RBRACE) = false).
  { subst o. destruct kv as [k' v']. destruct o'; cbn in Ee;
      injection Ee as <- _; reflexivity. }
  rewrite He, <- Ee.
  rewrite parse_members_encode.
  - reflexivity.
  - subst o. discriminate.
  - pose proof (encode_items_length o). cbn [length].
    rewrite length_app. lia.
Qed.
End Separators.

Lemma loads_dumps_default o : loads (dumps_with (py ", ") (py ": ") o) = Ok o.
Proof. exact (loads_dumps_with [SP] [SP] eq_refl eq_refl o). Qed.

Lemma loads_dumps o s : dumps o = Ok s -> loads s = Ok o.
Proof.
  unfold dumps. intros [= <-].
  exact (loads_dumps_with [SP] [SP] eq_refl eq_refl o).
Qed.

End JsonFacts.

(** ** The sanitizer *)

Module SanitizerFacts.
Import TextProcessor.

Lemma prepare_is_deep_clean (s : str) :
  prepare_user_input_for_ai (PyStr s) = Ok (deep_clean_text s).
Proof. reflexivity. Qed.

Lemma deep_clean_text_idempotent (x : str) :
  deep_clean_text (deep_clean_text x) = deep_clean_text x.
Proof. apply ShapeFacts.deep_clean_text_fixed, ShapeFacts.deep_clean_text_clean. Qed.

End SanitizerFacts.

(** ** The mock adapter and the provider fallback *)

Module ServiceFacts.
Import TextProcessor AIProviders AIService Spec.

Lemma preprocess_text_ok (text : str) :
  preprocess_text (PyStr text) = Ok (deep_clean_text text).
Proof. reflexivity. Qed.

(** Without an adapter every synchronous call is answered by the mock. *)
Lemma translate_text_no_provider r text source_lang target_lang :
  translate_text r (mk None) text source_lang target_lang
  = Ok (mock_text (deep_clean_text text) source_lang target_lang).
Proof. reflexivity. Qed.

Lemma summarize_text_no_provider r text :
  summarize_text r (mk None) text = Ok (mock_summary (deep_clean_text text)).
Proof. reflexivity. Qed.

(** A synchronous call never raises. *)
Lemma translate_text_total r self text source_lang target_lang :
  exists answer, translate_text r self text source_lang target_lang = Ok answer.
Proof.
  unfold translate_text. rewrite preprocess_text_ok.
  destruct (provider self) as [p|]; [|eexists; reflexivity].
  destruct (translate r p _ _ _); eexists; reflexivity.
Qed.

Lemma summarize_text_total r self text :
  exists answer, summarize_text r self text = Ok answer.
Proof.
  unfold summarize_text. rewrite preprocess_text_ok.
  destruct (provider self) as [p|]; [|eexists; reflexivity].
  destruct (summarize r p _); eexists; reflexivity.
Qed.

Lemma translate_raises r p text source_lang target_lang e :
  complete r p (translate_prompt text source_lang target_lang) = Raise e ->
  translate r p text source_lang target_lang = Raise e.
Proof. unfold translate. intros ->. reflexivity. Qed.

Lemma summarize_raises r p text e :
  complete r p (summarize_prompt text) = Raise e ->
  summarize r p text = Raise e.
Proof. unfold summarize. intros ->. reflexivity. Qed.

Lemma create_provider_missing cfg :
  credential_missing cfg ->
  exists msg, create_provider cfg None = Raise (ValueError msg).
Proof.
  unfold create_provider. cbn [default].
  intros [[-> H] | [[-> H] | [-> H]]].
  - change (str_eqb (py "openai") (py "openai")) with true. cbv iota.
    unfold OpenAIProvider_init. rewrite H. eexists; reflexivity.
  - change (str_eqb (py "claude") (py "openai")) with false.
    change (str_eqb (py "claude") (py "claude")) with true. cbv iota.
    unfold ClaudeProvider_init. rewrite H. eexists; reflexivity.
  - change (str_eqb (py "qianwen") (py "openai")) with false.
    change (str_eqb (py "qianwen") (py "claude")) with false.
    change (str_eqb (py "qianwen") (py "qianwen")) with true. cbv iota.
    unfold QianwenProvider_init. rewrite H. eexists; reflexivity.
Qed.

End ServiceFacts.

(** ** Streaming *)

Module StreamFacts.
Import TextProcessor AIProviders AIService Routers Spec.

Lemma event_stream_breaks :
  event_stream Scenario.remote_breaks Scenario.service_openai Scenario.request_hi
  = [start_event; chunk_event (py "Hello"); chunk_event (py "[模拟EN]");
     chunk_event (py "hi"); done_event (py "Hello[模拟EN]hi")].
Proof. vm_compute. reflexivity. Qed.

Lemma translate_stream_or_else r self text source_lang target_lang p pieces e :
  provider self = Some p ->
  AIProviders.translate_stream r p (deep_clean_text text) source_lang target_lang
  = (pieces, Some e) ->
  AIService.translate_stream r self text source_lang target_lang
  = (pieces ++ words_spaced (mock_text (deep_clean_text text) source_lang target_lang),
     None).
Proof.
  intros Hp Hs. unfold AIService.translate_stream.
  rewrite ServiceFacts.preprocess_text_ok, Hp, Hs. reflexivity.
Qed.

Lemma chunk_events_app a b : chunk_events (a ++ b) = chunk_events a ++ chunk_events b.
Proof. unfold chunk_events. rewrite List.filter_app, List.map_app. reflexivity. Qed.

Lemma done_is_not_error full_result msg : done_event full_result <> error_event msg.
Proof. unfold done_event, error_event, sse. vm_compute. discriminate. Qed.

End StreamFacts.

(** ** The store client *)

Module StoreFacts.
Import Schemas Env Lifecycle.

Lemma initialize_mode w :
  store_ok w ->
  external (RedisClient._initialize w) \/ fallback (RedisClient._initialize w).
Proof.
  unfold store_ok, external, fallback, RedisClient._initialize.
  destruct w as [t [up d] [c m i] l]. cbn. intros H.
  destruct i; cbn.
  - destruct c as [[]|]; [left|right; auto].
    repeat split. apply H; [reflexivity|discriminate].
  - destruct up; cbn; [left|right]; auto.
Qed.

Lemma initialize_done w :
  _initialized (redis_client w) = true -> RedisClient._initialize w = w.
Proof. unfold RedisClient._initialize. intros ->. reflexivity. Qed.

Lemma initialize_twice w :
  RedisClient._initialize (RedisClient._initialize w) = RedisClient._initialize w.
Proof.
  unfold RedisClient._initialize.
  destruct (_initialized (redis_client w)) eqn:E; [rewrite E|]; reflexivity.
Qed.

Lemma set_initialize key value ex w :
  RedisClient.set key value ex (RedisClient._initialize w)
  = RedisClient.set key value ex w.
Proof. unfold RedisClient.set. rewrite initialize_twice. reflexivity. Qed.

Lemma set_json_initialize key value ex w :
  RedisClient.set_json key value ex (RedisClient._initialize w)
  = RedisClient.set_json key value ex w.
Proof. unfold RedisClient.set_json. rewrite initialize_twice. reflexivity. Qed.

Lemma get_json_initialize key w :
  RedisClient.get_json key (RedisClient._initialize w) = RedisClient.get_json key w.
Proof. unfold RedisClient.get_json. rewrite initialize_twice. reflexivity. Qed.

Lemma send_valid key value ex w :
  valid_expiry ex = true ->
  RedisClient.send key value ex w
  = Some (RedisClient.with_server (stored key value ex (now w) (server w)) w).
Proof. unfold RedisClient.send, server_set. intros ->. reflexivity. Qed.

Lemma send_rejected key value ex w :
  valid_expiry ex = false -> RedisClient.send key value ex w = None.
Proof. unfold RedisClient.send, server_set. intros ->. reflexivity. Qed.

Lemma set_external key value ex w :
  external w -> valid_expiry ex = true ->
  RedisClient.set key value ex w
  = (true,
     RedisClient.record key (VStr value) ex
       (RedisClient.with_server (stored key value ex (now w) (server w)) w)).
Proof.
  intros (Hi & Hc & Hr) Hex. unfold RedisClient.set.
  rewrite (initialize_done _ Hi), Hc, Hr, (send_valid _ _ _ _ Hex). reflexivity.
Qed.

(** A write the server rejects changes nothing. *)
Lemma set_rejected key value ex w :
  external w -> valid_expiry ex = false ->
  RedisClient.set key value ex w = (false, w).
Proof.
  intros (Hi & Hc & Hr) Hex. unfold RedisClient.set.
  rewrite (initialize_done _ Hi), Hc, Hr, (send_rejected _ _ _ _ Hex). reflexivity.
Qed.

Lemma set_fallback key value ex w :
  fallback w ->
  RedisClient.set key value ex w
  = (true, RedisClient.record key (VStr value) ex
             (RedisClient.remember key (VStr value) w)).
Proof.
  intros (Hi & Hc). unfold RedisClient.set.
  rewrite (initialize_done _ Hi), Hc. reflexivity.
Qed.

Lemma get_external key w :
  external w ->
  RedisClient.get key w = (VStr <$> server_get key (now w) (server w), w).
Proof.
  intros (Hi & Hc & Hr). unfold RedisClient.get.
  rewrite (initialize_done _ Hi), Hc, Hr. reflexivity.
Qed.

Lemma get_fallback key w :
  fallback w ->
  RedisClient.get key w = (_memory_storage (redis_client w) !! key, w).
Proof.
  intros (Hi & Hc). unfold RedisClient.get.
  rewrite (initialize_done _ Hi), Hc. reflexivity.
Qed.

Lemma get_json_fallback key w :
  fallback w ->
  RedisClient.get_json key w = (_memory_storage (redis_client w) !! key, w).
Proof.
  intros (Hi & Hc). unfold RedisClient.get_json.
  rewrite (initialize_done _ Hi), Hc. reflexivity.
Qed.

Lemma external_elapse dt w : external w -> external (elapse dt w).
Proof. exact id. Qed.

Lemma fallback_elapse dt w : fallback w -> fallback (elapse dt w).
Proof. exact id. Qed.

Lemma external_sent key v value ex ex' t w :
  external w ->
  external (RedisClient.record key v ex
              (RedisClient.with_server (stored key value ex' t (server w)) w)).
Proof. exact id. Qed.

Lemma fallback_remembered key v v' ex w :
  fallback w ->
  fallback (RedisClient.record key v ex (RedisClient.remember key v' w)).
Proof. exact id. Qed.

Lemma valid_expiry_positive ex : (0 < ex)%Z -> valid_expiry (Some ex) = true.
Proof. intros H. apply Z.ltb_lt, H. Qed.

(** What a read finds [dt] seconds after a write with expiry [ex]. *)
Lemma server_get_after_set key value ex t dt s :
  server_get key (t + dt) (stored key value (Some ex) t s)
  = if (dt <=? ex)%Z then Some value else None.
Proof.
  unfold server_get, stored. cbn. rewrite lookup_insert_eq. cbn.
  destruct (dt <=? ex)%Z eqn:E.
  - apply Z.leb_le in E. assert ((t + dt <=? t + ex)%Z = true) as ->
      by (apply Z.leb_le; lia). reflexivity.
  - apply Z.leb_gt in E. assert ((t + dt <=? t + ex)%Z = false) as ->
      by (apply Z.leb_gt; lia). reflexivity.
Qed.

Lemma get_after_set_external key value ex dt w :
  external w -> (0 < ex)%Z ->
  fst (RedisClient.get key
         (elapse dt (snd (RedisClient.set key value (Some ex) w))))
  = if (dt <=? ex)%Z then Some (VStr value) else None.
Proof.
  intros H Hex.
  rewrite (set_external _ _ _ _ H (valid_expiry_positive _ Hex)). cbn [snd].
  rewrite get_external by exact H. cbn [fst].
  change (server (elapse dt _)) with (stored key value (Some ex) (now w) (server w)).
  change (now (elapse dt _)) with (now w + dt)%Z.
  rewrite server_get_after_set. destruct (dt <=? ex)%Z; reflexivity.
Qed.

Lemma get_after_set_fallback key value ex dt w :
  fallback w ->
  fst (RedisClient.get key (elapse dt (snd (RedisClient.set key value ex w))))
  = Some (VStr value).
Proof.
  intros H. rewrite (set_fallback _ _ _ _ H). cbn [snd].
  rewrite get_fallback by exact H. cbn. apply lookup_insert_eq.
Qed.

(** One write under the store assumption: it succeeds, is recorded, and
    leaves an initialized client in one of the two modes. *)
Lemma set_store_ok key value ex w :
  store_ok w -> valid_expiry ex = true ->
  exists w',
    RedisClient.set key value ex w = (true, w')
    /\ (external w' \/ fallback w')
    /\ writes w' = writes w ++ [(key, VStr value, ex)]
    /\ now w' = now w
    /\ (forall e dt, ex = Some e -> (dt <= e)%Z ->
        fst (RedisClient.get key (elapse dt w')) = Some (VStr value)).
Proof.
  intros Hok Hex. rewrite <- set_initialize.
  assert (Hw : writes (RedisClient._initialize w) = writes w).
  { unfold RedisClient._initialize. destruct (_initialized _); reflexivity. }
  assert (Hn : now (RedisClient._initialize w) = now w).
  { unfold RedisClient._initialize. destruct (_initialized _); reflexivity. }
  destruct (initialize_mode w Hok) as [H|H].
  - eexists. split; [apply set_external; [exact H|exact Hex]|].
    split; [left; exact H|]. split; [cbn; rewrite Hw; reflexivity|].
    split; [exact Hn|]. intros e dt -> Hdt.
    assert (He : (0 < e)%Z) by (apply Z.ltb_lt, Hex).
    pose proof (get_after_set_external key value e dt _ H He) as Hg.
    rewrite (set_external _ _ _ _ H Hex) in Hg. cbn [snd] in Hg. rewrite Hg.
    assert ((dt <=? e)%Z = true) as -> by (apply Z.leb_le; lia). reflexivity.
  - eexists. split; [apply set_fallback, H|].
    split; [right; exact H|]. split; [cbn; rewrite Hw; reflexivity|].
    split; [exact Hn|]. intros e dt -> Hdt.
    pose proof (get_after_set_fallback key value (Some e) dt _ H) as Hg.
    rewrite (set_fallback _ _ _ _ H) in Hg. exact Hg.
Qed.

Lemma mode_store_ok w : external w \/ fallback w -> store_ok w.
Proof.
  intros [(_ & _ & H) | (_ & H)] _ Hc; [exact H|congruence].
Qed.

Lemma store_ok_elapse dt w : store_ok w -> store_ok (elapse dt w).
Proof. exact id. Qed.

(** *** Reading a record back *)

Lemma optional_status t : optional (py "status") (dict t) = Some (status t).
Proof. reflexivity. Qed.

Lemma loads_model_dump_json t : Json.loads (model_dump_json t) = Ok (dict t).
Proof. exact (JsonFacts.loads_dumps_with [] [] eq_refl eq_refl (dict t)). Qed.

Lemma TaskResult_new_dict t : TaskResult_new (VDict (dict t)) = Ok t.
Proof.
  destruct t as [i s [r|] [e|] c [d|]]; reflexivity.
Qed.

Lemma written_status_json t :
  written_status (VStr (model_dump_json t)) = Some (status t).
Proof.
  unfold written_status. rewrite loads_model_dump_json. apply optional_status.
Qed.

Lemma statuses_written_snoc task_id t ex w w' :
  writes w' = writes w ++ [(RedisKeys.task_key task_id, VStr (model_dump_json t), ex)] ->
  statuses_written task_id w' = statuses_written task_id w ++ [status t].
Proof.
  intros H. unfold statuses_written. rewrite H, omap_app. f_equal.
  unfold omap. cbn [list_omap fst snd]. unfold str_eqb.
  rewrite bool_decide_eq_true_2 by reflexivity.
  rewrite written_status_json. reflexivity.
Qed.



Lemma statuses_written_elapse task_id dt w :
  statuses_written task_id (elapse dt w) = statuses_written task_id w.
Proof. reflexivity. Qed.

(** *** The machine *)

Lemma transition_not_terminal a b : transition a b = true -> terminal a = false.
Proof.
  unfold transition, terminal, str_eqb.
  intros [[Ha _]%andb_true_iff | [Ha _]%andb_true_iff]%orb_true_iff;
    apply bool_decide_eq_true in Ha; subst a; reflexivity.
Qed.

(** No transition leaves a terminal state: in a chained sequence a
    terminal status is the last one. *)
Lemma chained_terminal_last (l : list (list N)) i s :
  chained l = true -> l !! i = Some s -> terminal s = true ->
  l !! S i = None.
Proof.
  revert i. induction l as [|a t IH]; intros i Hc Hi Hs; [reflexivity|].
  destruct t as [|b t']; [reflexivity|].
  cbn [chained] in Hc. apply andb_true_iff in Hc as [Hab Ht].
  destruct i as [|i].
  - cbn in Hi. injection Hi as ->.
    rewrite (transition_not_terminal _ _ Hab) in Hs. discriminate.
  - cbn in Hi. exact (IH i Ht Hi Hs).
Qed.

(** No transition skips [processing]: a terminal status directly follows
    [processing]. *)
Lemma chained_terminal_after_processing (l : list (list N)) i s :
  chained l = true -> l !! S i = Some s -> terminal s = true ->
  l !! i = Some processing.
Proof.
  revert i. induction l as [|a t IH]; intros i Hc Hi Hs; [discriminate|].
  destruct t as [|b t']; [discriminate|].
  cbn [chained] in Hc. apply andb_true_iff in Hc as [Hab Ht].
  destruct i as [|i].
  - cbn in Hi. injection Hi as ->. cbn.
    unfold transition, terminal, str_eqb in *.
    apply orb_true_iff in Hab as [[_ Hb]%andb_true_iff | [Ha _]%andb_true_iff].
    + apply bool_decide_eq_true in Hb. subst s. discriminate.
    + apply bool_decide_eq_true in Ha. subst a. reflexivity.
  - cbn in Hi. cbn. exact (IH i Ht Hi Hs).
Qed.

End StoreFacts.

(** ** The asynchronous route *)

Module TaskFacts.
Import Schemas Env Lifecycle Routers StoreFacts Spec.

Lemma elapse_zero w : elapse 0 w = w.
Proof. destruct w as [t s c l]. unfold elapse. cbn. f_equal. lia. Qed.

Lemma translate_async_unfold request task_id w :
  translate_async request task_id w
  = (mkTaskResponse task_id pending (py "翻译任务已提交，请使用task_id轮询结果"),
     [job_of request task_id],
     snd (RedisClient.set (RedisKeys.task_key task_id)
            (model_dump_json (pending_record task_id (now w))) (Some 3600%Z) w)).
Proof. reflexivity. Qed.

Lemma process_unfold r ai_service dt task_id text source_lang target_lang w :
  _process_translation_task r ai_service dt task_id text source_lang target_lang w
  = snd (RedisClient.set (RedisKeys.task_key task_id)
           (model_dump_json
              (final_record task_id
                 (AIService.translate_text r ai_service text source_lang target_lang)
                 (now w + dt)))
           (Some 3600%Z)
           (elapse dt
              (snd (RedisClient.set (RedisKeys.task_key task_id)
                      (model_dump_json
                         (mkTaskResult task_id processing None None
                            (isoformat (now w)) None))
                      (Some 3600%Z) w)))).
Proof.
  unfold _process_translation_task, final_record.
  destruct (AIService.translate_text r ai_service text source_lang target_lang);
    cbn zeta.
  - assert (Hn : forall key v, now (elapse dt (snd (RedisClient.set key v (Some 3600%Z) w)))
                 = (now w + dt)%Z).
    { intros key v. unfold RedisClient.set, RedisClient._initialize.
      destruct (_initialized (redis_client w)); cbn;
        repeat (match goal with |- context [match ?x with _ => _ end] => destruct x end;
                cbn); reflexivity. }
    rewrite Hn. reflexivity.
  - assert (Hn : forall key v, now (elapse dt (snd (RedisClient.set key v (Some 3600%Z) w)))
                 = (now w + dt)%Z).
    { intros key v. unfold RedisClient.set, RedisClient._initialize.
      destruct (_initialized (redis_client w)); cbn;
        repeat (match goal with |- context [match ?x with _ => _ end] => destruct x end;
                cbn); reflexivity. }
    rewrite Hn. reflexivity.
Qed.

Lemma final_record_terminal task_id outcome t :
  terminal (status (final_record task_id outcome t)) = true.
Proof. destruct outcome; reflexivity. Qed.

Lemma final_record_well_formed task_id outcome t :
  well_formed (final_record task_id outcome t) = true.
Proof. destruct outcome; reflexivity. Qed.

(** The two writes of the background job, under the store assumption. *)
Lemma process_statuses r ai_service dt task_id text source_lang target_lang w :
  store_ok w ->
  exists final,
    statuses_written task_id
      (_process_translation_task r ai_service dt task_id text source_lang
         target_lang w)
    = statuses_written task_id w ++ [processing; final]
    /\ terminal final = true.
Proof.
  intros Hok. rewrite process_unfold.
  destruct (set_store_ok (RedisKeys.task_key task_id)
              (model_dump_json
                 (mkTaskResult task_id processing None None (isoformat (now w)) None))
              (Some 3600%Z) w Hok eq_refl) as (w1 & E1 & M1 & W1 & _).
  rewrite E1. cbn [snd].
  set (fin := final_record task_id _ _).
  destruct (set_store_ok (RedisKeys.task_key task_id) (model_dump_json fin)
              (Some 3600%Z) (elapse dt w1)
              (store_ok_elapse _ _ (mode_store_ok _ M1)) eq_refl)
    as (w2 & E2 & _ & W2 & _).
  rewrite E2. cbn [snd]. exists (status fin).
  split; [|apply final_record_terminal].
  rewrite (statuses_written_snoc _ _ _ _ _ W2), statuses_written_elapse.
  rewrite (statuses_written_snoc _ _ _ _ _ W1), <- app_assoc. reflexivity.
Qed.

End TaskFacts.

(** ** Expiry *)

Module ExpiryFacts.
Import Schemas Env Lifecycle Spec.


Lemma initialize_fallback_unreachable w :
  _initialized (redis_client w) = false -> reachable (server w) = false ->
  fallback (RedisClient._initialize w).
Proof.
  unfold fallback, RedisClient._initialize. intros -> ->. split; reflexivity.
Qed.

End ExpiryFacts.

(** ** Polling *)

Module PollFacts.
Import Schemas Env Lifecycle Routers StoreFacts TaskFacts Spec.

Lemma model_dump_json_truthy t : truthy (model_dump_json t) = true.
Proof. reflexivity. Qed.

Lemma get_json_external key w :
  external w ->
  RedisClient.get_json key w
  = match server_get key (now w) (server w) with
    | Some json_str =>
        if truthy json_str
        then match Json.loads json_str with
             | Ok d => (Some (VDict d), w)
             | Raise _ => (None, w)
             end
        else (None, w)
    | None => (None, w)
    end.
Proof.
  intros (Hi & Hc & Hr). unfold RedisClient.get_json.
  rewrite (initialize_done _ Hi), Hc, Hr. reflexivity.
Qed.

(** An identifier under which the store holds nothing is answered with
    the not-found error, in either mode and also when the server has
    become unreachable. *)
Lemma poll_absent task_id w :
  fst (RedisClient.get_json (RedisKeys.task_key task_id) w) = None ->
  fst (get_task_result task_id w)
  = Raise (HTTPException 404 (py "任务不存在")).
Proof.
  unfold get_task_result, TaskService.get_task.
  destruct (RedisClient.get_json _ w) as [d w']. cbn [fst]. intros ->.
  reflexivity.
Qed.

Lemma get_json_unknown_key task_id w :
  store_ok w ->
  (forall v, db (server w) !! RedisKeys.task_key task_id = Some v -> False) ->
  _memory_storage (redis_client w) !! RedisKeys.task_key task_id = None ->
  fst (RedisClient.get_json (RedisKeys.task_key task_id) w) = None.
Proof.
  intros Hok Hdb Hmem.
  unfold RedisClient.get_json.
  assert (Hs : server (RedisClient._initialize w) = server w).
  { unfold RedisClient._initialize. destruct (_initialized _); reflexivity. }
  assert (Hm : _memory_storage (redis_client (RedisClient._initialize w))
               = _memory_storage (redis_client w)).
  { unfold RedisClient._initialize. destruct (_initialized _); reflexivity. }
  destruct (client (redis_client (RedisClient._initialize w))).
  - rewrite Hs. destruct (reachable (server w)); [|reflexivity].
    unfold server_get.
    destruct (db (server w) !! RedisKeys.task_key task_id) as [v|] eqn:E;
      [|reflexivity].
    destruct (Hdb v eq_refl).
  - cbn [fst]. rewrite Hm. exact Hmem.
Qed.

(** With a connected Redis server the record written at submission is
    returned field for field until it expires, and not found afterwards. *)
Lemma poll_external request task_id dt w :
  external (RedisClient._initialize w) ->
  fst (get_task_result task_id
         (elapse dt (snd (translate_async request task_id w))))
  = if (dt <=? 3600)%Z
    then Ok (mkPoll true (dict (pending_record task_id (now w)))
               (py "获取任务状态成功"))
    else Raise (HTTPException 404 (py "任务不存在")).
Proof.
  intros H. rewrite translate_async_unfold. cbn [snd].
  rewrite <- set_initialize, (set_external _ _ (Some 3600%Z) _ H eq_refl).
  cbn [snd].
  assert (Hn : now (RedisClient._initialize w) = now w).
  { unfold RedisClient._initialize. destruct (_initialized _); reflexivity. }
  unfold get_task_result, TaskService.get_task.
  rewrite get_json_external by exact H.
  change (server (elapse dt _))
    with (stored (RedisKeys.task_key task_id)
            (model_dump_json (pending_record task_id (now w))) (Some 3600%Z)
            (now (RedisClient._initialize w))
            (server (RedisClient._initialize w))).
  change (now (elapse dt _)) with (now (RedisClient._initialize w) + dt)%Z.
  rewrite server_get_after_set.
  destruct (dt <=? 3600)%Z; [|reflexivity].
  rewrite model_dump_json_truthy, loads_model_dump_json.
  cbn [pyval_truthy dict]. rewrite TaskResult_new_dict. reflexivity.
Qed.

End PollFacts.

(** ** The task service *)

Module TaskServiceFacts.
Import Schemas Env Lifecycle StoreFacts TaskService Spec.

Lemma create_task_external cfg task_id t w :
  external w ->
  (0 < Config.TASK_EXPIRE_SECONDS cfg)%Z ->
  create_task cfg task_id t w
  = RedisClient.record (RedisKeys.task_key task_id) (VDict (dict t))
      (Some (Config.TASK_EXPIRE_SECONDS cfg))
      (RedisClient.with_server
         (stored (RedisKeys.task_key task_id)
            (Json.dumps_with (py ", ") (py ": ") (dict t))
            (Some (Config.TASK_EXPIRE_SECONDS cfg)) (now w) (server w)) w).
Proof.
  intros (Hi & Hc & Hr) Httl. unfold create_task, RedisClient.set_json.
  rewrite (initialize_done _ Hi), Hc, Hr.
  change (Json.dumps (dict t))
    with (Ok (A:=list N) (Json.dumps_with (py ", ") (py ": ") (dict t))).
  cbv iota. rewrite (send_valid _ _ _ _ (valid_expiry_positive _ Httl)).
  reflexivity.
Qed.

(** A write the server rejects for its expiry leaves everything as it
    was. *)
Lemma create_task_rejected cfg task_id t w :
  external w ->
  (Config.TASK_EXPIRE_SECONDS cfg <= 0)%Z ->
  create_task cfg task_id t w = w.
Proof.
  intros (Hi & Hc & Hr) Httl. unfold create_task, RedisClient.set_json.
  rewrite (initialize_done _ Hi), Hc, Hr.
  change (Json.dumps (dict t))
    with (Ok (A:=list N) (Json.dumps_with (py ", ") (py ": ") (dict t))).
  cbv iota. rewrite send_rejected; [reflexivity|].
  apply Z.ltb_ge, Httl.
Qed.

Lemma create_task_fallback cfg task_id t w :
  fallback w ->
  create_task cfg task_id t w
  = RedisClient.record (RedisKeys.task_key task_id) (VDict (dict t))
      (Some (Config.TASK_EXPIRE_SECONDS cfg))
      (RedisClient.remember (RedisKeys.task_key task_id) (VDict (dict t)) w).
Proof.
  intros (Hi & Hc). unfold create_task, RedisClient.set_json.
  rewrite (initialize_done _ Hi), Hc. reflexivity.
Qed.

Lemma create_task_mode cfg task_id t w :
  external w \/ fallback w ->
  external (create_task cfg task_id t w) \/ fallback (create_task cfg task_id t w).
Proof.
  intros [H|H].
  - left. destruct (Z.lt_ge_cases 0 (Config.TASK_EXPIRE_SECONDS cfg)) as [Httl|Httl].
    + rewrite create_task_external by assumption. exact H.
    + rewrite create_task_rejected by assumption. exact H.
  - right. rewrite create_task_fallback by exact H. exact H.
Qed.

(** A record created by the service is read back as it was written: with
    a connected server up to the instant of its expiry, in the fallback at
    any time. *)
Lemma get_task_later cfg task_id t dt w :
  (external w /\ (dt <= Config.TASK_EXPIRE_SECONDS cfg)%Z) \/ fallback w ->
  (0 < Config.TASK_EXPIRE_SECONDS cfg)%Z ->
  get_task task_id (elapse dt (create_task cfg task_id t w))
  = (Ok (Some t), elapse dt (create_task cfg task_id t w)).
Proof.
  intros [[H Hdt]|H] Httl.
  - rewrite create_task_external by assumption. unfold get_task.
    rewrite PollFacts.get_json_external by exact H.
    change (server (elapse dt (RedisClient.record _ _ _
              (RedisClient.with_server ?s w)))) with s.
    change (now (elapse dt (RedisClient.record _ _ _
              (RedisClient.with_server _ w)))) with (now w + dt)%Z.
    rewrite server_get_after_set.
    assert ((dt <=? Config.TASK_EXPIRE_SECONDS cfg)%Z = true) as ->
      by (apply Z.leb_le, Hdt).
    change (truthy (Json.dumps_with (py ", ") (py ": ") (dict t))) with true.
    cbv iota.
    rewrite JsonFacts.loads_dumps_default.
    cbn [pyval_truthy dict]. rewrite TaskResult_new_dict. reflexivity.
  - rewrite create_task_fallback by exact H. unfold get_task.
    rewrite get_json_fallback by exact H.
    cbn [_memory_storage redis_client RedisClient.record RedisClient.remember
         RedisClient.with_client elapse].
    rewrite lookup_insert_eq. cbn [pyval_truthy dict].
    rewrite TaskResult_new_dict. reflexivity.
Qed.

Lemma get_task_after_create cfg task_id t w :
  external w \/ fallback w ->
  (0 < Config.TASK_EXPIRE_SECONDS cfg)%Z ->
  get_task task_id (create_task cfg task_id t w)
  = (Ok (Some t), create_task cfg task_id t w).
Proof.
  intros Hmode Httl.
  rewrite <- (TaskFacts.elapse_zero (create_task cfg task_id t w)).
  apply get_task_later; [|exact Httl].
  destruct Hmode as [H|H]; [left; split; [exact H|lia]|right; exact H].
Qed.

Lemma update_task_found cfg task_id updates t w :
  get_task task_id w = (Ok (Some t), w) ->
  update_task cfg task_id updates w
  = (Ok tt, create_task cfg task_id (fold_left setattr updates t) w).
Proof. unfold update_task. intros ->. reflexivity. Qed.

Lemma setattr_frame updates t :
  forallb keeps_identity updates = true ->
  task_id (fold_left setattr updates t) = task_id t
  /\ created_at (fold_left setattr updates t) = created_at t.
Proof.
  revert t. induction updates as [|u us IH]; intros t; [split; reflexivity|].
  cbn [forallb fold_left]. intros [Hu Hus]%andb_true_iff.
  destruct (IH (setattr t u) Hus) as [-> ->].
  destruct u; try discriminate Hu; split; reflexivity.
Qed.

Lemma mode_of_stored (dt ttl : Z) w :
  (external w /\ (dt <= ttl)%Z) \/ fallback w -> external w \/ fallback w.
Proof. intros [[H _]|H]; [left|right]; exact H. Qed.

Lemma process_translation_task_raises cfg call dt task_id text source_lang
    target_lang e t w :
  (external w /\ (dt <= Config.TASK_EXPIRE_SECONDS cfg)%Z) \/ fallback w ->
  (0 < Config.TASK_EXPIRE_SECONDS cfg)%Z ->
  get_task task_id w = (Ok (Some t), w) ->
  (forall prompt kind, call prompt kind = Raise e) ->
  exists w',
    process_translation_task cfg call dt task_id text source_lang target_lang w
    = (Ok tt, w')
    /\ get_task task_id w' = (Ok (Some (failed_record t e)), w').
Proof.
  intros Hmode Httl Hget Hcall. unfold process_translation_task.
  rewrite (update_task_found _ _ _ _ _ Hget). rewrite Hcall. cbv zeta.
  set (w1 := create_task cfg task_id _ w).
  assert (H1 : get_task task_id (elapse dt w1)
               = (Ok (Some (fold_left setattr [set_status (py "processing")] t)),
                  elapse dt w1))
    by (apply get_task_later; assumption).
  rewrite (update_task_found _ _ _ _ _ H1).
  eexists. split; [reflexivity|].
  rewrite get_task_after_create; [reflexivity| |exact Httl].
  exact (create_task_mode cfg task_id _ w (mode_of_stored _ _ _ Hmode)).
Qed.

End TaskServiceFacts.

(** ** The expiry given to each write *)

Module WriterFacts.
Import Schemas Env Lifecycle StoreFacts TaskService TaskServiceFacts Spec.










End WriterFacts.

(** * The claims of the specification *)

(** C1. For every input text the sanitizer returns a text (it does not
    raise), and a dictionary holding that text under one key dumps to a
    JSON document that parses without error to the same dictionary, so
    the text is recovered unchanged. *)
Theorem C1_sanitize_json_round_trip (user_input : list N) :
  exists cleaned doc,
    TextProcessor.prepare_user_input_for_ai (TextProcessor.PyStr user_input)
    = Ok cleaned
    /\ Json.dumps [(py "text", Json.JString cleaned)] = Ok doc
    /\ Json.loads doc = Ok [(py "text", Json.JString cleaned)]
    /\ Json.get (py "text") [(py "text", Json.JString cleaned)]
       = Some (Json.JString cleaned).
Proof.
  exists (TextProcessor.deep_clean_text user_input).
  eexists. split; [apply SanitizerFacts.prepare_is_deep_clean|].
  split; [reflexivity|]. split; [|reflexivity].
  apply JsonFacts.loads_dumps. reflexivity.
Qed.

(** C2, as the specification states it, fails in two states of the store
    a running service can be in. When the client has connected and the
    server no longer answers, the submission is answered with [pending]
    but no record is written, and the poll finds no task. When the client
    runs on the in-process fallback, the poll raises instead of returning
    the record. *)
Lemma C2_counterexample :
  ~ Spec.retrievable_when_submitted Scenario.request_hi Scenario.t1
      Scenario.world_dropped
  /\ Lifecycle.statuses_written Scenario.t1
       (snd (Routers.translate_async Scenario.request_hi Scenario.t1
               Scenario.world_dropped)) = []
  /\ ~ Spec.retrievable_when_submitted Scenario.request_hi Scenario.t1
         Scenario.world_fallback.
Proof.
  split; [|split].
  - unfold Spec.retrievable_when_submitted. vm_compute. discriminate.
  - vm_compute. reflexivity.
  - unfold Spec.retrievable_when_submitted. vm_compute. discriminate.
Qed.

(** C2, amended. While the store takes the writes (the client runs on the
    in-process fallback, or is connected to a server that stays
    reachable), for a fresh task identifier: submitting writes a record
    with status [pending] and nothing else; when the client is connected
    to the Redis server, a poll of the identifier before the background
    job runs returns that record, up to the instant of its expiry; the job
    then writes [processing] and exactly one terminal status, so the
    statuses written for the identifier are [pending], [processing] and
    one of [completed] and [failed], a run of the machine in which the
    terminal status comes directly after [processing] and is the last
    one. *)
Theorem C2_task_lifecycle
    (r : AIProviders.Remote) (ai_service : AIService.t)
    (request : Routers.TranslationRequest) (task_id : list N) (wait dt : Z)
    (w : Env.World) :
  Lifecycle.store_ok w ->
  Lifecycle.statuses_written task_id w = [] ->
  exists w1 final,
    Routers.translate_async request task_id w
    = (Schemas.mkTaskResponse task_id Lifecycle.pending
         (py "翻译任务已提交，请使用task_id轮询结果"),
       [Spec.job_of request task_id], w1)
    /\ (Lifecycle.external (RedisClient._initialize w) ->
        forall early, (early <= 3600)%Z ->
        fst (Routers.get_task_result task_id (Env.elapse early w1))
        = Ok (Routers.mkPoll true
                (Schemas.dict (Spec.pending_record task_id (Env.now w)))
                (py "获取任务状态成功")))
    /\ Lifecycle.statuses_written task_id w1 = [Lifecycle.pending]
    /\ Lifecycle.statuses_written task_id
         (Routers.run_job r ai_service dt (Spec.job_of request task_id)
            (Env.elapse wait w1))
       = [Lifecycle.pending; Lifecycle.processing; final]
    /\ Lifecycle.terminal final = true
    /\ Lifecycle.follows_machine
         [Lifecycle.pending; Lifecycle.processing; final] = true
    /\ (forall i s,
          [Lifecycle.pending; Lifecycle.processing; final] !! i = Some s ->
          Lifecycle.terminal s = true ->
          [Lifecycle.pending; Lifecycle.processing; final] !! S i = None
          /\ exists j, i = S j
             /\ [Lifecycle.pending; Lifecycle.processing; final] !! j
                = Some Lifecycle.processing).
Proof.
  intros Hok Hfresh.
  assert (Hpoll : Lifecycle.external (RedisClient._initialize w) ->
    forall early, (early <= 3600)%Z ->
    fst (Routers.get_task_result task_id
           (Env.elapse early (snd (Routers.translate_async request task_id w))))
    = Ok (Routers.mkPoll true
            (Schemas.dict (Spec.pending_record task_id (Env.now w)))
            (py "获取任务状态成功"))).
  { intros Hext early Hearly.
    rewrite (PollFacts.poll_external request task_id early w Hext).
    assert ((early <=? 3600)%Z = true) as -> by (apply Z.leb_le, Hearly).
    reflexivity. }
  revert Hpoll. rewrite TaskFacts.translate_async_unfold. cbn [snd]. intros Hpoll.
  destruct (StoreFacts.set_store_ok (RedisKeys.task_key task_id)
              (Schemas.model_dump_json (Spec.pending_record task_id (Env.now w)))
              (Some 3600%Z) w Hok eq_refl) as (w1 & E1 & M1 & W1 & _).
  rewrite E1 in Hpoll |- *. cbn [snd] in Hpoll |- *.
  destruct (TaskFacts.process_statuses r ai_service dt task_id
              (Routers.text request) (Routers.source_lang request)
              (Routers.target_lang request) (Env.elapse wait w1)
              (StoreFacts.store_ok_elapse _ _ (StoreFacts.mode_store_ok _ M1)))
    as (final & Hrun & Hterm).
  assert (H1 : Lifecycle.statuses_written task_id w1 = [Lifecycle.pending]).
  { rewrite (StoreFacts.statuses_written_snoc _ _ _ _ _ W1), Hfresh. reflexivity. }
  assert (Hm : Lifecycle.follows_machine
                 [Lifecycle.pending; Lifecycle.processing; final] = true).
  { unfold Lifecycle.terminal, str_eqb in Hterm.
    apply orb_true_iff in Hterm as [Hf|Hf]; apply bool_decide_eq_true in Hf;
      subst final; reflexivity. }
  exists w1, final. split; [reflexivity|].
  split; [exact Hpoll|].
  split; [exact H1|].
  split. { cbn [Routers.run_job Spec.job_of]. rewrite Hrun.
           rewrite StoreFacts.statuses_written_elapse, H1. reflexivity. }
  split; [exact Hterm|]. split; [exact Hm|].
  intros i s Hi Hs.
  assert (Hc : Lifecycle.chained
                 [Lifecycle.pending; Lifecycle.processing; final] = true).
  { unfold Lifecycle.follows_machine in Hm.
    apply andb_true_iff in Hm as [_ Hm]. exact Hm. }
  split; [exact (StoreFacts.chained_terminal_last _ _ _ Hc Hi Hs)|].
  destruct i as [|j].
  - cbn in Hi. injection Hi as <-. discriminate Hs.
  - exists j. split; [reflexivity|].
    exact (StoreFacts.chained_terminal_after_processing _ _ _ Hc Hi Hs).
Qed.

Lemma C2_witness :
  Lifecycle.store_ok Scenario.world_external
  /\ Lifecycle.statuses_written Scenario.t1 Scenario.world_external = []
  /\ fst (Routers.get_task_result Scenario.t1
            (Env.elapse 5
               (snd (Routers.translate_async Scenario.request_hi Scenario.t1
                       Scenario.world_external))))
     = Ok (Routers.mkPoll true
             (Schemas.dict (Spec.pending_record Scenario.t1 100))
             (py "获取任务状态成功"))
  /\ exists final,
       Lifecycle.statuses_written Scenario.t1
         (Routers.run_job Scenario.remote_down (AIService.mk None) 1
            (Spec.job_of Scenario.request_hi Scenario.t1)
            (Env.elapse 5
               (snd (Routers.translate_async Scenario.request_hi Scenario.t1
                       Scenario.world_external))))
       = [Lifecycle.pending; Lifecycle.processing; final]
       /\ Lifecycle.terminal final = true.
Proof.
  assert (H1 : Lifecycle.store_ok Scenario.world_external)
    by (intros H; discriminate H).
  assert (H2 : Lifecycle.statuses_written Scenario.t1 Scenario.world_external = [])
    by reflexivity.
  assert (H3 : Lifecycle.external (RedisClient._initialize Scenario.world_external))
    by (repeat split).
  assert (H4 : (5 <= 3600)%Z) by lia.
  split; [exact H1|]. split; [exact H2|].
  destruct (C2_task_lifecycle Scenario.remote_down (AIService.mk None)
              Scenario.request_hi Scenario.t1 5 1 Scenario.world_external H1 H2)
    as (w1 & final & E & Hpoll & _ & Hrun & Hterm & _).
  rewrite E. cbn [snd]. split; [exact (Hpoll H3 5%Z H4)|].
  exists final. split; [exact Hrun|exact Hterm].
Defined.

(** C3, as the specification states it, fails: an adapter that yields
    [Hello] and then raises makes the caller receive the mock's fragments
    after [Hello] and a done frame, not an error frame. *)
Lemma C3_counterexample :
  ~ Spec.error_terminated Scenario.remote_breaks
      Scenario.service_openai Scenario.request_hi.
Proof.
  intros H.
  specialize (H (AIProviders.OpenAIProvider (py "sk-test")) [py "Hello"]
                ConnectionError eq_refl eq_refl).
  rewrite StreamFacts.event_stream_breaks in H. vm_compute in H. discriminate H.
Qed.

(** C3, amended. When the adapter's stream fails after some fragments, the
    service goes on, in the same generator, with the mock's fragments for
    the sanitized text and ends normally. The caller receives the start
    frame, a chunk frame for each non-blank fragment produced before the
    failure, in order, then the chunk frames of the mock's fragments, and
    last a done frame with the concatenated text; that frame is not an
    error frame. *)
Theorem C3_stream_failure_appends_mock
    (r : AIProviders.Remote) (self : AIService.t)
    (request : Routers.TranslationRequest)
    (p : AIProviders.provider) (pieces : list (list N)) (e : exn) :
  AIService.provider self = Some p ->
  AIProviders.translate_stream r p
    (TextProcessor.deep_clean_text (Routers.text request))
    (Routers.source_lang request) (Routers.target_lang request)
  = (pieces, Some e) ->
  let mock :=
    AIService.words_spaced
      (AIService.mock_text (TextProcessor.deep_clean_text (Routers.text request))
         (Routers.source_lang request) (Routers.target_lang request)) in
  let full_result :=
    concat (List.map strip (List.filter Routers.relayed (pieces ++ mock))) in
  AIService.translate_stream r self (Routers.text request)
    (Routers.source_lang request) (Routers.target_lang request)
  = (pieces ++ mock, None)
  /\ Routers.event_stream r self request
     = [Routers.start_event] ++ Spec.chunk_events pieces
         ++ Spec.chunk_events mock ++ [Routers.done_event full_result]
  /\ forall msg, Routers.done_event full_result <> Routers.error_event msg.
Proof.
  intros Hp Hs mock full_result.
  pose proof (StreamFacts.translate_stream_or_else r self _ _ _ p pieces e Hp Hs)
    as Hstream.
  split; [exact Hstream|]. split; [|intros; apply StreamFacts.done_is_not_error].
  unfold Routers.event_stream. rewrite Hstream.
  fold mock. fold (Spec.chunk_events (pieces ++ mock)).
  rewrite StreamFacts.chunk_events_app, <- app_assoc. reflexivity.
Qed.

Lemma C3_witness :
  Routers.event_stream Scenario.remote_breaks Scenario.service_openai
    Scenario.request_hi
  = [Routers.start_event] ++ Spec.chunk_events [py "Hello"]
      ++ Spec.chunk_events [py "[模拟EN] "; py "hi "]
      ++ [Routers.done_event (py "Hello[模拟EN]hi")].
Proof.
  exact (proj1 (proj2 (C3_stream_failure_appends_mock
    Scenario.remote_breaks Scenario.service_openai Scenario.request_hi
    (AIProviders.OpenAIProvider (py "sk-test")) [py "Hello"] ConnectionError
    eq_refl eq_refl))).
Defined.

(** C4. The code departs from the claim on the path of [TaskService]:
    when the model call raises, [process_translation_task] writes status
    [failed] and the error text but leaves [completed_at] as it was, so a
    task that was pending is persisted as failed with [completed_at] unset.
    This holds however long the call takes before it raises, [dt] seconds,
    as long as the record has not expired on the server meanwhile. (The
    records written by the route handlers do satisfy the invariant, see
    [TaskFacts.final_record_well_formed].) *)
Theorem C4_failed_record_without_completed_at
    (cfg : Config.t) (call : list N -> list N -> res (list N)) (dt : Z)
    (task_id text source_lang target_lang : list N) (e : exn)
    (t : Schemas.TaskResult) (w : Env.World) :
  (Lifecycle.external w /\ (dt <= Config.TASK_EXPIRE_SECONDS cfg)%Z)
  \/ Lifecycle.fallback w ->
  (0 < Config.TASK_EXPIRE_SECONDS cfg)%Z ->
  TaskService.get_task task_id w = (Ok (Some t), w) ->
  (forall prompt kind, call prompt kind = Raise e) ->
  Schemas.completed_at t = None ->
  let w' :=
    snd (TaskService.process_translation_task cfg call dt task_id text
           source_lang target_lang w) in
  fst (TaskService.get_task task_id w')
  = Ok (Some (Schemas.mkTaskResult (Schemas.task_id t) Lifecycle.failed
                (Schemas.result t) (Some (exn_str e)) (Schemas.created_at t) None))
  /\ Lifecycle.well_formed
       (Schemas.mkTaskResult (Schemas.task_id t) Lifecycle.failed
          (Schemas.result t) (Some (exn_str e)) (Schemas.created_at t) None)
     = false.
Proof.
  intros Hmode Httl Hget Hcall Hnone w'.
  destruct (TaskServiceFacts.process_translation_task_raises cfg call dt task_id
              text source_lang target_lang e t w Hmode Httl Hget Hcall)
    as (w2 & Hrun & Hread).
  subst w'. rewrite Hrun. cbn [snd]. rewrite Hread. cbn [fst].
  unfold Spec.failed_record. rewrite Hnone.
  split; [reflexivity|]. unfold Lifecycle.well_formed. cbn. 
  destruct (Schemas.result t); reflexivity.
Qed.

Lemma C4_witness :
  let t := Spec.pending_record Scenario.t1 100 in
  let e := AttributeError (py "'AIService' object has no attribute 'call_ai_model'") in
  let w := TaskService.create_task Scenario.cfg_default Scenario.t1 t
             (RedisClient._initialize Scenario.world_external) in
  TaskService.get_task Scenario.t1 w = (Ok (Some t), w)
  /\ fst (TaskService.get_task Scenario.t1
            (snd (TaskService.process_translation_task Scenario.cfg_default
                    TaskService.call_ai_model_absent 0 Scenario.t1 (py "hi")
                    (py "zh") (py "en") w)))
     = Ok (Some (Schemas.mkTaskResult (Schemas.task_id t) Lifecycle.failed
                   (Schemas.result t) (Some (exn_str e)) (Schemas.created_at t)
                   None)).
Proof.
  intros t e w.
  assert (Hm : Lifecycle.external (RedisClient._initialize Scenario.world_external)
               \/ Lifecycle.fallback (RedisClient._initialize Scenario.world_external))
    by (left; repeat split).
  assert (Httl : (0 < Config.TASK_EXPIRE_SECONDS Scenario.cfg_default)%Z)
    by reflexivity.
  assert (Hget : TaskService.get_task Scenario.t1 w = (Ok (Some t), w))
    by (apply TaskServiceFacts.get_task_after_create; assumption).
  assert (Hw : (Lifecycle.external w
                /\ (0 <= Config.TASK_EXPIRE_SECONDS Scenario.cfg_default)%Z)
               \/ Lifecycle.fallback w).
  { destruct (TaskServiceFacts.create_task_mode Scenario.cfg_default Scenario.t1
                t _ Hm) as [H|H]; [left; split; [exact H|cbn; lia]|right; exact H]. }
  split; [exact Hget|].
  exact (proj1 (C4_failed_record_without_completed_at Scenario.cfg_default
    TaskService.call_ai_model_absent 0 Scenario.t1 (py "hi") (py "zh") (py "en")
    e t w Hw Httl Hget (fun _ _ => eq_refl) eq_refl)).
Defined.

(** C5. When the credential of the configured provider is missing or
    empty, constructing the adapter raises the missing-credential
    [ValueError]; the service then holds no adapter and [translate_text] and
    [summarize_text] return the mock's answer for the sanitized text instead
    of raising. The mock's answer is also what a service with an adapter
    returns when the adapter's call raises. *)
Theorem C5_missing_credential_falls_back_to_mock
    (cfg : Config.t) (r : AIProviders.Remote) :
  Spec.credential_missing cfg ->
  (exists msg, AIProviders.create_provider cfg None = Raise (ValueError msg))
  /\ AIService.provider (AIService.init cfg) = None
  /\ (forall text source_lang target_lang,
        AIService.translate_text r (AIService.init cfg) text source_lang target_lang
        = Ok (AIService.mock_text (TextProcessor.deep_clean_text text)
                source_lang target_lang))
  /\ (forall text,
        AIService.summarize_text r (AIService.init cfg) text
        = Ok (AIService.mock_summary (TextProcessor.deep_clean_text text)))
  /\ (forall p text source_lang target_lang e,
        AIProviders.complete r p
          (AIProviders.translate_prompt (TextProcessor.deep_clean_text text)
             source_lang target_lang) = Raise e ->
        AIService.translate_text r (AIService.mk (Some p)) text source_lang target_lang
        = Ok (AIService.mock_text (TextProcessor.deep_clean_text text)
                source_lang target_lang))
  /\ (forall p text e,
        AIProviders.complete r p
          (AIProviders.summarize_prompt (TextProcessor.deep_clean_text text))
        = Raise e ->
        AIService.summarize_text r (AIService.mk (Some p)) text
        = Ok (AIService.mock_summary (TextProcessor.deep_clean_text text))).
Proof.
  intros Hmiss.
  destruct (ServiceFacts.create_provider_missing cfg Hmiss) as [msg Hmsg].
  assert (Hinit : AIService.init cfg = AIService.mk None).
  { unfold AIService.init. rewrite Hmsg. reflexivity. }
  split; [exists msg; exact Hmsg|]. rewrite Hinit.
  split; [reflexivity|].
  split; [intros; apply ServiceFacts.translate_text_no_provider|].
  split; [intros; apply ServiceFacts.summarize_text_no_provider|].
  split.
  - intros p text source_lang target_lang e He.
    unfold AIService.translate_text.
    rewrite ServiceFacts.preprocess_text_ok. cbn [AIService.provider].
    rewrite (ServiceFacts.translate_raises _ _ _ _ _ _ He). reflexivity.
  - intros p text e He. unfold AIService.summarize_text.
    rewrite ServiceFacts.preprocess_text_ok. cbn [AIService.provider].
    rewrite (ServiceFacts.summarize_raises _ _ _ _ He). reflexivity.
Qed.

Lemma C5_witness :
  Spec.credential_missing Scenario.cfg_empty_key
  /\ AIService.translate_text Scenario.remote_down (AIService.init Scenario.cfg_empty_key)
       (py "  hello   world ") (py "英文") (py "中文")
     = Ok (py "[模拟中文] hello world").
Proof.
  assert (H : Spec.credential_missing Scenario.cfg_empty_key).
  { right; right. split; reflexivity. }
  split; [exact H|].
  destruct (C5_missing_credential_falls_back_to_mock Scenario.cfg_empty_key Scenario.remote_down H)
    as (_ & _ & Ht & _).
  rewrite Ht. reflexivity.
Defined.

(** C6. The code departs from the claim in the in-process fallback: the
    record written at submission is stored as JSON text, the poll reads
    it back without parsing, and building the task from a text raises
    [TypeError] instead of returning the record. *)
Theorem C6_poll_raises_in_fallback
    (request : Routers.TranslationRequest) (task_id : list N) (w : Env.World) :
  Lifecycle.fallback (RedisClient._initialize w) ->
  fst (RedisClient.get (RedisKeys.task_key task_id)
         (snd (Routers.translate_async request task_id w)))
  = Some (Schemas.VStr (Schemas.model_dump_json
            (Spec.pending_record task_id (Env.now w))))
  /\ fst (Routers.get_task_result task_id
            (snd (Routers.translate_async request task_id w)))
     = Raise (TypeError (py "argument after ** must be a mapping, not str")).
Proof.
  intros H. rewrite TaskFacts.translate_async_unfold. cbn [snd].
  rewrite <- StoreFacts.set_initialize, (StoreFacts.set_fallback _ _ _ _ H).
  cbn [snd]. split.
  - rewrite StoreFacts.get_fallback by exact H. cbn. apply lookup_insert_eq.
  - unfold Routers.get_task_result, TaskService.get_task.
    rewrite StoreFacts.get_json_fallback by exact H.
    cbn [Env._memory_storage Env.redis_client RedisClient.record
         RedisClient.remember RedisClient.with_client].
    rewrite lookup_insert_eq. reflexivity.
Qed.

Lemma C6_witness :
  Lifecycle.fallback (RedisClient._initialize Scenario.world_fallback)
  /\ fst (Routers.get_task_result Scenario.t1
            (snd (Routers.translate_async Scenario.request_hi Scenario.t1
                    Scenario.world_fallback)))
     = Raise (TypeError (py "argument after ** must be a mapping, not str")).
Proof.
  assert (H : Lifecycle.fallback (RedisClient._initialize Scenario.world_fallback))
    by (split; reflexivity).
  split; [exact H|].
  exact (proj2 (C6_poll_raises_in_fallback Scenario.request_hi Scenario.t1
                  Scenario.world_fallback H)).
Defined.

(** C7. Sanitizing is idempotent: the sanitizer applied to its own
    result returns that result, and each of the four rewrites of
    [deep_clean_text] (allow-list filter, blank-line collapsing, blank-run
    collapsing, trimming) leaves a sanitized text unchanged. *)
Theorem C7_sanitize_idempotent (x : list N) :
  exists y,
    TextProcessor.prepare_user_input_for_ai (TextProcessor.PyStr x) = Ok y
    /\ TextProcessor.prepare_user_input_for_ai (TextProcessor.PyStr y) = Ok y
    /\ Re.sub TextProcessor.re_disallowed [] y = y
    /\ Re.sub TextProcessor.re_blank_lines [LF; LF] y = y
    /\ Re.sub TextProcessor.re_blanks [SP] y = y
    /\ strip y = y.
Proof.
  exists (TextProcessor.deep_clean_text x).
  destruct (ShapeFacts.deep_clean_text_clean x) as (Ha & Hl & Hr & Hs).
  split; [apply SanitizerFacts.prepare_is_deep_clean|].
  split.
  { rewrite SanitizerFacts.prepare_is_deep_clean,
      SanitizerFacts.deep_clean_text_idempotent. reflexivity. }
  split.
  { rewrite ShapeFacts.sub_disallowed. apply ShapeFacts.filter_allowed_fixed, Ha. }
  split; [apply ShapeFacts.sub_blank_lines_fixed, Hl|].
  split; [apply ShapeFacts.sub_blanks_fixed, Hr|exact Hs].
Qed.

(** C8. The mock adapter is a function of its arguments: translating
    [你好] from [中文] to [英文] gives the text [[模拟EN] 你好], which contains
    the input and the tag [[模拟EN]]; the streamed variant yields the two words
    in order, each followed by a space, and their concatenation, trimmed,
    is the same text. The service without an adapter answers with exactly
    these values whatever the remote endpoints do. *)
Theorem C8_mock_translate_and_stream (r : AIProviders.Remote) :
  let result := AIService.mock_text (py "你好") (py "中文") (py "英文") in
  AIService._mock_translate (py "你好") (py "中文") (py "英文") = Ok result
  /\ result = py "[模拟EN] 你好"
  /\ contains (py "你好") result = true
  /\ contains (py "[模拟EN]") result = true
  /\ AIService._mock_translate_stream (py "你好") (py "中文") (py "英文")
     = ([py "[模拟EN] "; py "你好 "], None)
  /\ strip (concat (fst (AIService._mock_translate_stream
                           (py "你好") (py "中文") (py "英文")))) = result
  /\ AIService.translate_text r (AIService.mk None) (py "你好") (py "中文") (py "英文")
     = Ok result
  /\ AIService.translate_stream r (AIService.mk None) (py "你好") (py "中文") (py "英文")
     = ([py "[模拟EN] "; py "你好 "], None).
Proof. cbv zeta. repeat split; vm_compute; reflexivity. Qed.




(** C10. The code departs from the claim on the route handlers: each
    write of the background job builds a new record whose [created_at] is
    the clock at that write. The identifier is kept, but the record read
    after the job carries the instant of its last write as [created_at],
    not the instant of submission. ([TaskService.update_task] does keep
    both fields, see [TaskServiceFacts.setattr_frame].) *)
Theorem C10_created_at_rewritten
    (r : AIProviders.Remote) (ai_service : AIService.t)
    (request : Routers.TranslationRequest) (task_id : list N) (wait dt : Z)
    (w : Env.World) :
  Lifecycle.store_ok w ->
  let w1 := snd (Routers.translate_async request task_id w) in
  let w2 :=
    Routers.run_job r ai_service dt (Spec.job_of request task_id)
      (Env.elapse wait w1) in
  let outcome :=
    AIService.translate_text r ai_service (Routers.text request)
      (Routers.source_lang request) (Routers.target_lang request) in
  let submitted := Spec.pending_record task_id (Env.now w) in
  let final := Spec.final_record task_id outcome (Env.now w + wait + dt) in
  fst (RedisClient.get (RedisKeys.task_key task_id) w1)
  = Some (Schemas.VStr (Schemas.model_dump_json submitted))
  /\ fst (RedisClient.get (RedisKeys.task_key task_id) w2)
     = Some (Schemas.VStr (Schemas.model_dump_json final))
  /\ Schemas.task_id final = Schemas.task_id submitted
  /\ Schemas.created_at submitted = Env.isoformat (Env.now w)
  /\ Schemas.created_at final = Env.isoformat (Env.now w + wait + dt).
Proof.
  intros Hok w1 w2 outcome submitted final.
  subst w1 w2. rewrite TaskFacts.translate_async_unfold. cbn [snd].
  destruct (StoreFacts.set_store_ok (RedisKeys.task_key task_id)
              (Schemas.model_dump_json submitted) (Some 3600%Z) w Hok eq_refl)
    as (w1 & E1 & M1 & _ & N1 & G1).
  fold submitted. rewrite E1. cbn [snd].
  split. { rewrite <- (TaskFacts.elapse_zero w1). apply (G1 3600%Z); [reflexivity|lia]. }
  split.
  - cbn [Routers.run_job Spec.job_of]. rewrite TaskFacts.process_unfold.
    fold outcome.
    change (Env.now (Env.elapse wait w1)) with (Env.now w1 + wait)%Z.
    rewrite N1. fold final.
    destruct (StoreFacts.set_store_ok (RedisKeys.task_key task_id)
                (Schemas.model_dump_json
                   (Schemas.mkTaskResult task_id Lifecycle.processing None None
                      (Env.isoformat (Env.now w + wait)) None))
                (Some 3600%Z) (Env.elapse wait w1)
                (StoreFacts.store_ok_elapse _ _ (StoreFacts.mode_store_ok _ M1)) eq_refl)
      as (w2 & E2 & M2 & _ & _ & _).
    rewrite E2. cbn [snd].
    destruct (StoreFacts.set_store_ok (RedisKeys.task_key task_id)
                (Schemas.model_dump_json final) (Some 3600%Z) (Env.elapse dt w2)
                (StoreFacts.store_ok_elapse _ _ (StoreFacts.mode_store_ok _ M2)) eq_refl)
      as (w3 & E3 & _ & _ & _ & G3).
    rewrite E3. cbn [snd].
    rewrite <- (TaskFacts.elapse_zero w3). apply (G3 3600%Z); [reflexivity|lia].
  - subst final. destruct outcome; repeat split.
Qed.

Lemma C10_witness :
  let w1 := snd (Routers.translate_async Scenario.request_hi Scenario.t1
                   Scenario.world_external) in
  let w2 := Routers.run_job Scenario.remote_down (AIService.mk None) 1
              (Spec.job_of Scenario.request_hi Scenario.t1)
              (Env.elapse 5 w1) in
  Lifecycle.store_ok Scenario.world_external
  /\ fst (RedisClient.get (RedisKeys.task_key Scenario.t1) w1)
     = Some (Schemas.VStr (Schemas.model_dump_json
               (Schemas.mkTaskResult Scenario.t1 (py "pending") None None
                  (py "100") None)))
  /\ fst (RedisClient.get (RedisKeys.task_key Scenario.t1) w2)
     = Some (Schemas.VStr (Schemas.model_dump_json
               (Schemas.mkTaskResult Scenario.t1 (py "completed")
                  (Some (py "[模拟EN] hi")) None (py "106") (Some (py "106")))))
  /\ py "100" <> py "106".
Proof.
  cbv zeta.
  assert (H : Lifecycle.store_ok Scenario.world_external)
    by (intros H; discriminate H).
  split; [exact H|].
  pose proof (C10_created_at_rewritten Scenario.remote_down (AIService.mk None)
                Scenario.request_hi Scenario.t1 5 1 Scenario.world_external H)
    as (H1 & H2 & _).
  split; [exact H1|]. split; [exact H2|]. discriminate.
Defined.

(** * Properties of the remaining code *)

(** ** Text utilities *)

Module TextFacts.
Import Re TextProcessor Shape Notions ShapeFacts.

Lemma sub_once_delete cls s :
  sub [Atom cls Once] [] s = List.filter (fun c => negb (cls c)) s.
Proof.
  induction s as [|c t IH]; [reflexivity|].
  rewrite sub_cons. cbn [match_here List.filter].
  destruct (cls c); cbn [negb].
  - assert ((length t <? length (c :: t))%nat = true) as ->
      by (apply Nat.ltb_lt; simpl; lia).
    exact IH.
  - f_equal. exact IH.
Qed.

Lemma sub_plus_cons cls x c t :
  sub [Atom cls Plus] [x] (c :: t) =
  if cls c then x :: sub [Atom cls Plus] [x] (drop_while cls t)
  else c :: sub [Atom cls Plus] [x] t.
Proof.
  rewrite sub_cons. cbn [match_here].
  destruct (cls c); [|reflexivity].
  change (match_here []) with (@Some (list N)). rewrite star_all.
  assert ((length (drop_while cls t) <? length (c :: t))%nat = true) as ->.
  { apply Nat.ltb_lt. pose proof (drop_while_length cls t). simpl. lia. }
  reflexivity.
Qed.

Lemma head_drop_while cls t :
  match drop_while cls t with d :: _ => cls d | [] => false end = false.
Proof.
  induction t as [|c t IH]; [reflexivity|]. cbn [drop_while].
  destruct (cls c) eqn:E; [exact IH|exact E].
Qed.

Lemma head_sub_plus cls x s :
  match s with d :: _ => cls d | [] => false end = false ->
  match sub [Atom cls Plus] [x] s with d :: _ => cls d | [] => false end = false.
Proof.
  destruct s as [|c t]; [reflexivity|]. intros E.
  rewrite sub_plus_cons, E. exact E.
Qed.

(** After [c+] has been replaced by one character, no two neighbours are
    of class [c]. *)
Lemma no_run_sub_plus cls x s : no_run cls (sub [Atom cls Plus] [x] s) = true.
Proof.
  remember (length s) as n eqn:Hn. revert s Hn.
  induction n as [n IH] using lt_wf_ind. intros [|c t] Hn; [reflexivity|].
  simpl in Hn. rewrite sub_plus_cons. destruct (cls c) eqn:Ec.
  - cbn [no_run]. pose proof (drop_while_length cls t).
    rewrite (head_sub_plus cls x _ (head_drop_while cls t)).
    rewrite andb_false_r. cbn [negb andb].
    apply (IH (length (drop_while cls t))); [lia|reflexivity].
  - cbn [no_run]. rewrite Ec. cbn [andb negb].
    apply (IH (length t)); [lia|reflexivity].
Qed.

(** A text without such neighbours is left as it is when the class is the
    one character [x]. *)
Lemma sub_plus_fixed cls x s :
  (forall c, cls c = true -> c = x) ->
  no_run cls s = true -> sub [Atom cls Plus] [x] s = s.
Proof.
  intros Hx. induction s as [|c t IH]; [reflexivity|]. cbn [no_run].
  intros [Hc Ht]%andb_true_iff. rewrite sub_plus_cons, (IH Ht).
  destruct (cls c) eqn:Ec; [|reflexivity].
  rewrite (Hx _ Ec). cbn [andb] in Hc. apply negb_true_iff in Hc.
  destruct t as [|d t']; [reflexivity|].
  cbn [drop_while]. rewrite Hc. rewrite (IH Ht). reflexivity.
Qed.

(** Replacing runs of another class by a character outside [f] creates no
    neighbours of class [f]. *)
Lemma no_run_sub_other f cls x s :
  (forall c, cls c = true -> f c = false) -> f x = false ->
  no_run f s = true -> no_run f (sub [Atom cls Plus] [x] s) = true.
Proof.
  intros Hdis Hx.
  remember (length s) as n eqn:Hn. revert s Hn.
  induction n as [n IH] using lt_wf_ind. intros [|c t] Hn; [reflexivity|].
  simpl in Hn. cbn [no_run]. intros [Hc Ht]%andb_true_iff.
  rewrite sub_plus_cons. destruct (cls c) eqn:Ec.
  - cbn [no_run]. rewrite Hx. cbn [andb negb].
    pose proof (drop_while_length cls t).
    apply (IH (length (drop_while cls t))); [lia|reflexivity|].
    clear -Ht. induction t as [|d t IHt]; [reflexivity|]. cbn [drop_while].
    destruct (cls d); [|exact Ht]. cbn [no_run] in Ht.
    apply andb_true_iff in Ht as [_ Ht]. auto.
  - cbn [no_run].
    rewrite (IH (length t)); [|lia|reflexivity|exact Ht].
    rewrite andb_true_r. destruct (f c) eqn:Ef; [|reflexivity].
    cbn [andb] in *. apply negb_true_iff in Hc. apply negb_true_iff.
    destruct t as [|d t']; [reflexivity|].
    rewrite sub_plus_cons. destruct (cls d) eqn:Ed; [exact Hx|exact Hc].
Qed.

(** *** [deep_clean_text] keeps the visible characters and never grows *)

Lemma after_last_lf_split s r :
  after_last_lf s = Some r -> exists w, s = w ++ r /\ forallb isspace w = true.
Proof.
  revert r. induction s as [|c t IH]; [discriminate|]. intros r.
  cbn [after_last_lf]. destruct (isspace c) eqn:Ec; [|discriminate].
  destruct (after_last_lf t) as [r'|].
  - intros [= <-]. destruct (IH _ eq_refl) as (w & -> & Hw).
    exists (c :: w). split; [reflexivity|]. cbn. rewrite Ec. exact Hw.
  - destruct (is_lf c); [|discriminate]. intros [= <-].
    exists [c]. split; [reflexivity|]. cbn. rewrite Ec. reflexivity.
Qed.

Lemma blank_tail_split s r :
  blank_tail s = Some r -> exists w, s = w ++ r /\ forallb isspace w = true.
Proof.
  revert r. induction s as [|c t IH]; [discriminate|]. intros r.
  cbn [blank_tail]. destruct (isspace c) eqn:Ec; [|discriminate].
  destruct (blank_tail t) as [r'|].
  - intros [= <-]. destruct (IH _ eq_refl) as (w & -> & Hw).
    exists (c :: w). split; [reflexivity|]. cbn. rewrite Ec. exact Hw.
  - destruct (is_lf c); [|discriminate]. intros Ha.
    destruct (after_last_lf_split _ _ Ha) as (w & -> & Hw).
    exists (c :: w). split; [reflexivity|]. cbn. rewrite Ec. exact Hw.
Qed.

Lemma visible_app a b : visible (a ++ b) = visible a ++ visible b.
Proof. apply List.filter_app. Qed.

Lemma visible_spaces w : forallb isspace w = true -> visible w = [].
Proof.
  induction w as [|c w IH]; [reflexivity|]. cbn [forallb].
  intros [Hc Hw]%andb_true_iff. unfold visible. cbn [List.filter].
  rewrite Hc. cbn [negb]. exact (IH Hw).
Qed.

Lemma visible_cons_space c s : isspace c = true -> visible (c :: s) = visible s.
Proof. intros H. unfold visible. cbn [List.filter]. rewrite H. reflexivity. Qed.

Lemma visible_cons_other c s :
  isspace c = false -> visible (c :: s) = c :: visible s.
Proof. intros H. unfold visible. cbn [List.filter]. rewrite H. reflexivity. Qed.

Lemma visible_sub_blank_lines s :
  visible (sub re_blank_lines [LF; LF] s) = visible s.
Proof.
  remember (length s) as n eqn:Hn. revert s Hn.
  induction n as [n IH] using lt_wf_ind. intros [|c t] Hn; [reflexivity|].
  simpl in Hn. rewrite sub_blank_lines_cons.
  assert (Hcopy : visible (c :: sub re_blank_lines [LF; LF] t) = visible (c :: t)).
  { destruct (isspace c) eqn:Ec.
    - rewrite !visible_cons_space by exact Ec.
      apply (IH (length t)); [lia|reflexivity].
    - rewrite !visible_cons_other by exact Ec. f_equal.
      apply (IH (length t)); [lia|reflexivity]. }
  destruct (is_lf c) eqn:El; [|exact Hcopy].
  pose proof (blank_tail_spec t) as Hb.
  destruct (blank_tail t) as [r|] eqn:Er; [|exact Hcopy].
  destruct Hb as (_ & _ & Hlen).
  destruct (blank_tail_split _ _ Er) as (w & Hw & Hsp).
  rewrite !(visible_cons_space LF) by reflexivity.
  rewrite (visible_cons_space c) by (apply is_lf_isspace, El).
  rewrite (IH (length r)); [|lia|reflexivity].
  rewrite Hw, visible_app, (visible_spaces _ Hsp). reflexivity.
Qed.

Lemma visible_drop_blanks t : visible (drop_while is_blank t) = visible t.
Proof.
  induction t as [|c t IH]; [reflexivity|]. cbn [drop_while].
  destruct (is_blank c) eqn:Eb; [|reflexivity].
  rewrite (visible_cons_space c) by (apply is_blank_isspace, Eb). exact IH.
Qed.

Lemma visible_sub_blanks s : visible (sub re_blanks [SP] s) = visible s.
Proof.
  remember (length s) as n eqn:Hn. revert s Hn.
  induction n as [n IH] using lt_wf_ind. intros [|c t] Hn; [reflexivity|].
  simpl in Hn. rewrite sub_blanks_cons. destruct (is_blank c) eqn:Eb.
  - rewrite (visible_cons_space SP) by reflexivity.
    rewrite (visible_cons_space c) by (apply is_blank_isspace, Eb).
    pose proof (drop_while_length is_blank t).
    rewrite (IH (length (drop_while is_blank t))); [|lia|reflexivity].
    apply visible_drop_blanks.
  - destruct (isspace c) eqn:Ec.
    + rewrite !visible_cons_space by exact Ec.
      apply (IH (length t)); [lia|reflexivity].
    + rewrite !visible_cons_other by exact Ec. f_equal.
      apply (IH (length t)); [lia|reflexivity].
Qed.

Lemma visible_drop_spaces s : visible (drop_while isspace s) = visible s.
Proof.
  induction s as [|c t IH]; [reflexivity|]. cbn [drop_while].
  destruct (isspace c) eqn:Ec; [|reflexivity].
  rewrite (visible_cons_space c) by exact Ec. exact IH.
Qed.

Lemma visible_rev s : visible (rev s) = rev (visible s).
Proof.
  induction s as [|c t IH]; [reflexivity|]. cbn [rev].
  rewrite visible_app, IH. destruct (isspace c) eqn:Ec.
  - rewrite (visible_cons_space c t) by exact Ec.
    rewrite (visible_cons_space c []) by exact Ec. apply app_nil_r.
  - rewrite (visible_cons_other c t) by exact Ec.
    rewrite (visible_cons_other c []) by exact Ec. reflexivity.
Qed.

Lemma visible_strip s : visible (strip s) = visible s.
Proof.
  unfold strip, rstrip, lstrip.
  rewrite visible_rev, visible_drop_spaces, visible_rev, rev_involutive.
  apply visible_drop_spaces.
Qed.

Lemma visible_filter_allowed s :
  visible (List.filter allowed s)
  = List.filter (fun c => allowed c && negb (isspace c)) s.
Proof.
  unfold visible. induction s as [|c t IH]; [reflexivity|].
  cbn [List.filter]. destruct (allowed c); cbn [andb List.filter];
    [destruct (negb (isspace c)); rewrite IH; reflexivity | exact IH].
Qed.

Lemma visible_deep_clean_text s :
  visible (deep_clean_text s)
  = List.filter (fun c => allowed c && negb (isspace c)) s.
Proof.
  unfold deep_clean_text. destruct s as [|c t]; [reflexivity|].
  cbn [truthy negb].
  rewrite visible_strip, visible_sub_blanks, visible_sub_blank_lines,
    sub_disallowed.
  apply visible_filter_allowed.
Qed.

Lemma strip_head_visible s :
  strip s = s -> s <> [] -> visible s <> [].
Proof.
  intros Hs Hne. destruct s as [|c t]; [congruence|].
  destruct (isspace c) eqn:Ec.
  - exfalso. unfold strip, lstrip in Hs. cbn [drop_while] in Hs.
    rewrite Ec in Hs.
    destruct (rstrip_prefix (drop_while isspace t)) as [w Hw].
    destruct (drop_while_suffix isspace t) as [w' Hw'].
    assert (Hl : length (rstrip (drop_while isspace t)) = S (length t))
      by (rewrite Hs; reflexivity).
    apply (f_equal (@length N)) in Hw, Hw'. rewrite length_app in Hw, Hw'.
    lia.
  - rewrite (visible_cons_other c) by exact Ec. discriminate.
Qed.

Lemma length_filter_le (f : N -> bool) (s : list N) :
  (length (List.filter f s) <= length s)%nat.
Proof. induction s as [|c t IH]; simpl; [lia|]. destruct (f c); simpl; lia. Qed.

Lemma length_sub_blank_lines s :
  (length (sub re_blank_lines [LF; LF] s) <= length s)%nat.
Proof.
  remember (length s) as n eqn:Hn. revert s Hn.
  induction n as [n IH] using lt_wf_ind. intros [|c t] Hn; [simpl; lia|].
  simpl in Hn. rewrite sub_blank_lines_cons.
  assert (Hcopy : (length (c :: sub re_blank_lines [LF; LF] t) <= n)%nat).
  { cbn [length]. pose proof (IH (length t) ltac:(lia) t eq_refl). lia. }
  destruct (is_lf c); [|exact Hcopy].
  pose proof (blank_tail_spec t) as Hb.
  destruct (blank_tail t) as [r|]; [|exact Hcopy].
  destruct Hb as (_ & _ & Hlen). cbn [length].
  pose proof (IH (length r) ltac:(lia) r eq_refl). lia.
Qed.

Lemma length_sub_blanks s :
  (length (sub re_blanks [SP] s) <= length s)%nat.
Proof.
  remember (length s) as n eqn:Hn. revert s Hn.
  induction n as [n IH] using lt_wf_ind. intros [|c t] Hn; [simpl; lia|].
  simpl in Hn. rewrite sub_blanks_cons. destruct (is_blank c).
  - cbn [length]. pose proof (drop_while_length is_blank t).
    pose proof (IH (length (drop_while is_blank t)) ltac:(lia) _ eq_refl). lia.
  - cbn [length]. pose proof (IH (length t) ltac:(lia) t eq_refl). lia.
Qed.

Lemma length_strip s : (length (strip s) <= length s)%nat.
Proof.
  unfold strip, lstrip.
  destruct (rstrip_prefix (drop_while isspace s)) as [w Hw].
  pose proof (drop_while_length isspace s).
  apply (f_equal (@length N)) in Hw. rewrite length_app in Hw. lia.
Qed.

Lemma length_deep_clean_text s : (length (deep_clean_text s) <= length s)%nat.
Proof.
  unfold deep_clean_text. destruct s as [|c t]; [simpl; lia|].
  cbn [truthy negb]. rewrite sub_disallowed.
  pose proof (length_filter_le allowed (c :: t)).
  pose proof (length_sub_blank_lines (List.filter allowed (c :: t))).
  pose proof (length_sub_blanks
                (sub re_blank_lines [LF; LF] (List.filter allowed (c :: t)))).
  pose proof (length_strip
                (sub re_blanks [SP]
                   (sub re_blank_lines [LF; LF] (List.filter allowed (c :: t))))).
  lia.
Qed.

Lemma length_sub_plus cls x s :
  (length (sub [Atom cls Plus] [x] s) <= length s)%nat.
Proof.
  remember (length s) as n eqn:Hn. revert s Hn.
  induction n as [n IH] using lt_wf_ind. intros [|c t] Hn; [simpl; lia|].
  simpl in Hn. rewrite sub_plus_cons. destruct (cls c).
  - cbn [length]. pose proof (drop_while_length cls t).
    pose proof (IH (length (drop_while cls t)) ltac:(lia) _ eq_refl). lia.
  - cbn [length]. pose proof (IH (length t) ltac:(lia) t eq_refl). lia.
Qed.

Lemma no_blank_runs_no_tab s : no_blank_runs s = true -> ~ In TAB s.
Proof.
  induction s as [|c t IH]; [intros _ []|]. cbn [no_blank_runs].
  intros [[Hc _]%andb_true_iff Ht]%andb_true_iff [->|Hin]; [discriminate Hc|].
  exact (IH Ht Hin).
Qed.

Lemma no_blank_runs_no_run s : no_blank_runs s = true -> no_run is_sp s = true.
Proof.
  induction s as [|c t IH]; [reflexivity|]. cbn [no_blank_runs no_run].
  intros [[_ Hc]%andb_true_iff Ht]%andb_true_iff. rewrite (IH Ht), andb_true_r.
  destruct (is_sp c) eqn:Ec; [|reflexivity]. cbn [andb].
  assert (Hb : is_blank c = true).
  { unfold is_blank. unfold is_sp in Ec. rewrite Ec. reflexivity. }
  rewrite Hb in Hc. cbn [andb] in Hc. apply negb_true_iff in Hc.
  destruct t as [|d t']; [reflexivity|]. cbn [head_blank] in Hc.
  apply negb_true_iff. unfold is_blank in Hc. apply orb_false_iff in Hc as [Hc _].
  exact Hc.
Qed.

(** *** [clean_user_input] *)

Lemma flat_map_flat_map (f g : N -> list N) (s : list N) :
  flat_map g (flat_map f s) = flat_map (fun c => flat_map g (f c)) s.
Proof.
  induction s as [|c t IH]; [reflexivity|]. cbn [flat_map].
  rewrite List.flat_map_app, IH. reflexivity.
Qed.

Lemma clean_user_input_chars (text : list N) :
  clean_user_input text = flat_map escaped_twice text.
Proof.
  unfold clean_user_input. destruct text as [|c0 t0]; [reflexivity|].
  cbn [truthy negb]. unfold replace. rewrite !flat_map_flat_map.
  apply List.flat_map_ext. intros c. unfold escaped_twice.
  destruct (c =? QUOTE) eqn:E1.
  { apply N.eqb_eq in E1. subst c. reflexivity. }
  destruct (c =? APOS) eqn:E2.
  { apply N.eqb_eq in E2. subst c. reflexivity. }
  cbn [flat_map app]. rewrite E2. cbn [flat_map app].
  destruct (c =? LF) eqn:E3.
  { apply N.eqb_eq in E3. subst c. reflexivity. }
  cbn [flat_map app].
  destruct (c =? CR) eqn:E4.
  { apply N.eqb_eq in E4. subst c. reflexivity. }
  cbn [flat_map app].
  destruct (c =? TAB) eqn:E5.
  { apply N.eqb_eq in E5. subst c. reflexivity. }
  cbn [flat_map app].
  destruct (c =? BACKSLASH); reflexivity.
Qed.

Lemma escaped_twice_no_break x c :
  In c (escaped_twice x) -> c <> LF /\ c <> CR /\ c <> TAB.
Proof.
  unfold escaped_twice.
  destruct (x =? QUOTE) eqn:E1.
  { cbn. intros [<-|[<-|[<-|[]]]]; repeat split; discriminate. }
  destruct (x =? APOS) eqn:E2.
  { cbn. intros [<-|[<-|[<-|[]]]]; repeat split; discriminate. }
  destruct (x =? LF) eqn:E3.
  { cbn. intros [<-|[<-|[<-|[]]]]; repeat split; discriminate. }
  destruct (x =? CR) eqn:E4.
  { cbn. intros [<-|[<-|[<-|[]]]]; repeat split; discriminate. }
  destruct (x =? TAB) eqn:E5.
  { cbn. intros [<-|[<-|[<-|[]]]]; repeat split; discriminate. }
  destruct (x =? BACKSLASH) eqn:E6.
  { cbn. intros [<-|[<-|[]]]; repeat split; discriminate. }
  cbn. intros [<-|[]].
  apply N.eqb_neq in E3, E4, E5. auto.
Qed.

Lemma escaped_twice_length x : (1 <= length (escaped_twice x))%nat.
Proof.
  unfold escaped_twice.
  repeat match goal with |- context [if ?b then _ else _] => destruct b end;
    simpl; lia.
Qed.

Lemma length_flat_map_ge (f : N -> list N) (s : list N) :
  (forall x, (1 <= length (f x))%nat) -> (length s <= length (flat_map f s))%nat.
Proof.
  intros Hf. induction s as [|c t IH]; [simpl; lia|].
  cbn [flat_map]. rewrite length_app. pose proof (Hf c). simpl. lia.
Qed.

(** *** [truncate_text] *)

Lemma truncate_text_cut (text : list N) max_length suffix :
  text <> [] -> (max_length < Z.of_nat (length text))%Z ->
  truncate_text text max_length suffix
  = slice_to (max_length - Z.of_nat (length suffix)) text ++ suffix.
Proof.
  intros Hne Hlt. unfold truncate_text.
  destruct text as [|c t]; [congruence|]. cbn [truthy negb orb].
  assert ((Z.of_nat (length (c :: t)) <=? max_length)%Z = false) as ->
    by (apply Z.leb_gt; exact Hlt).
  reflexivity.
Qed.

End TextFacts.

(** ** The store client, continued *)

Module ClientFacts.
Import Schemas Env Lifecycle Notions StoreFacts.

Lemma get_initialize key w :
  RedisClient.get key (RedisClient._initialize w) = RedisClient.get key w.
Proof. unfold RedisClient.get. rewrite initialize_twice. reflexivity. Qed.

Lemma delete_initialize key w :
  RedisClient.delete key (RedisClient._initialize w) = RedisClient.delete key w.
Proof. unfold RedisClient.delete. rewrite initialize_twice. reflexivity. Qed.

Lemma initialize_elapse dt w :
  RedisClient._initialize (elapse dt w) = elapse dt (RedisClient._initialize w).
Proof.
  unfold RedisClient._initialize, elapse. cbn.
  destruct (_initialized (redis_client w)); reflexivity.
Qed.

Lemma elapse_elapse a b w : elapse b (elapse a w) = elapse (a + b) w.
Proof. unfold elapse. cbn. f_equal. lia. Qed.

Lemma get_json_world key w :
  snd (RedisClient.get_json key w) = RedisClient._initialize w.
Proof.
  unfold RedisClient.get_json.
  destruct (client (redis_client (RedisClient._initialize w))); [|reflexivity].
  destruct (reachable (server (RedisClient._initialize w))); [|reflexivity].
  destruct (server_get _ _ _) as [j|]; [|reflexivity].
  destruct (truthy j); [|reflexivity].
  destruct (Json.loads j); reflexivity.
Qed.

Lemma server_get_set_other key key' value ex t t' s :
  key <> key' ->
  server_get key' t' (stored key value ex t s) = server_get key' t' s.
Proof.
  intros Hne. unfold server_get, stored. cbn.
  rewrite lookup_insert_ne by exact Hne. reflexivity.
Qed.

(** A write under one key leaves what is read under another key. *)
Lemma get_after_set_other key key' value ex dt w :
  store_ok w -> key <> key' ->
  fst (RedisClient.get key' (elapse dt (snd (RedisClient.set key value ex w))))
  = fst (RedisClient.get key' (elapse dt w)).
Proof.
  intros Hok Hne.
  rewrite <- set_initialize, <- (get_initialize key' (elapse dt w)),
    initialize_elapse.
  destruct (initialize_mode w Hok) as [H|H].
  - destruct (valid_expiry ex) eqn:Hex.
    + rewrite (set_external _ _ _ _ H Hex). cbn [snd].
      rewrite !get_external by exact H. cbn [fst]. f_equal.
      exact (server_get_set_other key key' value ex _ _ _ Hne).
    + rewrite (set_rejected _ _ _ _ H Hex). reflexivity.
  - rewrite (set_fallback _ _ _ _ H). cbn [snd].
    rewrite !get_fallback by exact H. cbn. apply lookup_insert_ne, Hne.
Qed.

Lemma set_mode key value ex w :
  store_ok w ->
  external (snd (RedisClient.set key value ex w))
  \/ fallback (snd (RedisClient.set key value ex w)).
Proof.
  intros Hok. rewrite <- set_initialize.
  destruct (initialize_mode w Hok) as [H|H].
  - left. destruct (valid_expiry ex) eqn:Hex.
    + rewrite (set_external _ _ _ _ H Hex). exact H.
    + rewrite (set_rejected _ _ _ _ H Hex). exact H.
  - right. rewrite (set_fallback _ _ _ _ H). exact H.
Qed.

(** *** [delete] *)

Lemma delete_external key w :
  external w ->
  RedisClient.delete key w
  = (fst (server_del key (now w) (server w)),
     mkWorld (now w) (snd (server_del key (now w) (server w)))
       (redis_client w) (writes w)).
Proof.
  intros (Hi & Hc & Hr). unfold RedisClient.delete.
  rewrite (initialize_done _ Hi), Hc, Hr. reflexivity.
Qed.

Lemma delete_fallback key w :
  fallback w ->
  RedisClient.delete key w
  = (match _memory_storage (redis_client w) !! key with
     | Some _ => true | None => false end,
     RedisClient.with_client
       (mkClient (client (redis_client w))
          (delete key (_memory_storage (redis_client w)))
          (_initialized (redis_client w))) w).
Proof.
  intros (Hi & Hc). unfold RedisClient.delete.
  rewrite (initialize_done _ Hi), Hc. reflexivity.
Qed.

Lemma delete_spec key w :
  store_ok w ->
  fst (RedisClient.get key (snd (RedisClient.delete key w))) = None
  /\ (fst (RedisClient.delete key w) = true
      <-> fst (RedisClient.get key w) <> None)
  /\ (forall key', key <> key' ->
        fst (RedisClient.get key' (snd (RedisClient.delete key w)))
        = fst (RedisClient.get key' w)).
Proof.
  intros Hok.
  rewrite <- delete_initialize, <- (get_initialize key w).
  assert (Hother : forall key',
    fst (RedisClient.get key' w) = fst (RedisClient.get key' (RedisClient._initialize w)))
    by (intros; rewrite get_initialize; reflexivity).
  destruct (initialize_mode w Hok) as [H|H].
  - rewrite (delete_external _ _ H). cbn [fst snd].
    set (w0 := RedisClient._initialize w) in *.
    assert (He : external
      (mkWorld (now w0) (snd (server_del key (now w0) (server w0)))
         (redis_client w0) (writes w0))) by exact H.
    split; [|split].
    + rewrite (get_external _ _ He). cbn. unfold server_get. cbn.
      rewrite lookup_delete_eq. reflexivity.
    + rewrite (get_external _ _ H). cbn [fst]. unfold server_del. cbn [fst].
      destruct (server_get key _ _); cbn; split; intros; congruence.
    + intros key' Hne. rewrite Hother. fold w0.
      rewrite (get_external _ _ He), (get_external _ _ H).
      cbn. unfold server_get. cbn. rewrite lookup_delete_ne by exact Hne.
      reflexivity.
  - rewrite (delete_fallback _ _ H). cbn [fst snd].
    assert (Hf : fallback
      (RedisClient.with_client
         (mkClient (client (redis_client (RedisClient._initialize w)))
            (delete key (_memory_storage (redis_client (RedisClient._initialize w))))
            (_initialized (redis_client (RedisClient._initialize w))))
         (RedisClient._initialize w))) by exact H.
    split; [|split].
    + rewrite (get_fallback _ _ Hf). cbn. apply lookup_delete_eq.
    + rewrite (get_fallback _ _ H). cbn [fst].
      destruct (_ !! key); split; intros; congruence.
    + intros key' Hne. rewrite Hother, (get_fallback _ _ Hf), (get_fallback _ _ H).
      cbn. apply lookup_delete_ne, Hne.
Qed.

(** *** The mode is chosen once *)

Lemma act_keeps_client a w :
  _initialized (redis_client w) = true ->
  _initialized (redis_client (act a w)) = true
  /\ client (redis_client (act a w)) = client (redis_client w).
Proof.
  intros Hi. destruct a; cbn [act].
  - unfold RedisClient.set, RedisClient.send. rewrite (initialize_done _ Hi).
    destruct (client (redis_client w)) eqn:Ec;
      [destruct (reachable (server w)); [destruct (server_set _ _ _ _ _)|]|];
      cbn; rewrite ?Ec; auto.
  - unfold RedisClient.get. rewrite (initialize_done _ Hi).
    destruct (client (redis_client w)) eqn:Ec; [destruct (reachable (server w))|];
      cbn; rewrite ?Ec; auto.
  - unfold RedisClient.set_json, RedisClient.send. rewrite (initialize_done _ Hi).
    destruct (client (redis_client w)) eqn:Ec;
      [destruct (Json.dumps value);
       [destruct (reachable (server w)); [destruct (server_set _ _ _ _ _)|]|]|];
      cbn; rewrite ?Ec; auto.
  - rewrite get_json_world, (initialize_done _ Hi). auto.
  - unfold RedisClient.delete. rewrite (initialize_done _ Hi).
    destruct (client (redis_client w)) eqn:Ec; [destruct (reachable (server w))|];
      cbn; rewrite ?Ec; auto.
  - unfold RedisClient.is_connected. rewrite (initialize_done _ Hi). auto.
  - auto.
  - auto.
Qed.

End ClientFacts.

(** ** The task service, continued *)

Module ServiceTaskFacts.
Import Schemas Env Lifecycle Notions StoreFacts ClientFacts TaskService
  TaskServiceFacts Spec.

Lemma create_task_initialize cfg task_id t w :
  create_task cfg task_id t (RedisClient._initialize w) = create_task cfg task_id t w.
Proof. unfold create_task. rewrite set_json_initialize. reflexivity. Qed.

Lemma get_task_initialize task_id w :
  get_task task_id (RedisClient._initialize w) = get_task task_id w.
Proof. unfold get_task. rewrite get_json_initialize. reflexivity. Qed.

Lemma get_task_world task_id w :
  snd (get_task task_id w) = RedisClient._initialize w.
Proof.
  unfold get_task.
  pose proof (get_json_world (RedisKeys.task_key task_id) w) as Hw.
  destruct (RedisClient.get_json _ w) as [d w']. cbn [snd] in Hw. subst w'.
  destruct d as [v|]; [|reflexivity].
  destruct (pyval_truthy v); [|reflexivity].
  destruct (TaskResult_new v); reflexivity.
Qed.

Lemma get_task_missing task_id w :
  fst (RedisClient.get_json (RedisKeys.task_key task_id) w) = None ->
  get_task task_id w = (Ok None, RedisClient._initialize w).
Proof.
  intros H. unfold get_task.
  pose proof (get_json_world (RedisKeys.task_key task_id) w) as Hw.
  destruct (RedisClient.get_json _ w) as [d w']. cbn in H, Hw. subst. reflexivity.
Qed.

Lemma update_task_missing cfg task_id updates w :
  fst (RedisClient.get_json (RedisKeys.task_key task_id) w) = None ->
  update_task cfg task_id updates w = (Ok tt, RedisClient._initialize w).
Proof. intros H. unfold update_task. rewrite (get_task_missing _ _ H). reflexivity. Qed.

Lemma get_json_missing_initialize key w :
  fst (RedisClient.get_json key w) = None ->
  fst (RedisClient.get_json key (RedisClient._initialize w)) = None.
Proof. rewrite get_json_initialize. exact id. Qed.

(** A record created by the service, read [dt] seconds later. *)
Lemma get_task_later_external cfg task_id t dt w :
  external w ->
  (0 < Config.TASK_EXPIRE_SECONDS cfg)%Z ->
  fst (get_task task_id (elapse dt (create_task cfg task_id t w)))
  = if (dt <=? Config.TASK_EXPIRE_SECONDS cfg)%Z then Ok (Some t) else Ok None.
Proof.
  intros H Httl. rewrite create_task_external by assumption. unfold get_task.
  rewrite PollFacts.get_json_external by exact H.
  change (server (elapse dt (RedisClient.record _ _ _
            (RedisClient.with_server ?s w)))) with s.
  change (now (elapse dt (RedisClient.record _ _ _
            (RedisClient.with_server _ w)))) with (now w + dt)%Z.
  rewrite server_get_after_set.
  destruct (dt <=? Config.TASK_EXPIRE_SECONDS cfg)%Z; [|reflexivity].
  change (truthy (Json.dumps_with (py ", ") (py ": ") (dict t))) with true.
  cbv iota. rewrite JsonFacts.loads_dumps_default.
  cbn [pyval_truthy dict]. rewrite TaskResult_new_dict. reflexivity.
Qed.

Lemma get_task_later_fallback cfg task_id t dt w :
  fallback w ->
  fst (get_task task_id (elapse dt (create_task cfg task_id t w))) = Ok (Some t).
Proof.
  intros H. rewrite create_task_fallback by exact H. unfold get_task.
  rewrite get_json_fallback by exact H.
  cbn [_memory_storage redis_client RedisClient.record RedisClient.remember
       RedisClient.with_client elapse].
  rewrite lookup_insert_eq. cbn [pyval_truthy dict].
  rewrite TaskResult_new_dict. reflexivity.
Qed.

Lemma create_task_writes cfg task_id t w :
  external w \/ fallback w ->
  (0 < Config.TASK_EXPIRE_SECONDS cfg)%Z ->
  writes (create_task cfg task_id t w)
  = writes w ++ [(RedisKeys.task_key task_id, VDict (dict t),
                  Some (Config.TASK_EXPIRE_SECONDS cfg))].
Proof.
  intros [H|H] Httl;
    [rewrite create_task_external by assumption
    |rewrite create_task_fallback by exact H]; reflexivity.
Qed.

Lemma create_task_now cfg task_id t w :
  external w \/ fallback w -> now (create_task cfg task_id t w) = now w.
Proof.
  intros [H|H].
  - destruct (Z.lt_ge_cases 0 (Config.TASK_EXPIRE_SECONDS cfg)) as [Httl|Httl].
    + rewrite create_task_external by assumption. reflexivity.
    + rewrite create_task_rejected by assumption. reflexivity.
  - rewrite create_task_fallback by exact H. reflexivity.
Qed.

(** The run of a job of the task service on a stored task: the awaited
    call takes [dt] seconds, and the record written before it must still be
    there when the call is over. *)
Lemma process_translation_task_outcome cfg call dt task_id text source_lang
    target_lang outcome t w :
  (external w /\ (dt <= Config.TASK_EXPIRE_SECONDS cfg)%Z) \/ fallback w ->
  (0 < Config.TASK_EXPIRE_SECONDS cfg)%Z ->
  get_task task_id w = (Ok (Some t), w) ->
  (forall prompt kind, call prompt kind = outcome) ->
  let t1 := setattr t (set_status (py "processing")) in
  let t2 :=
    match outcome with
    | Ok answer =>
        fold_left setattr
          [set_status (py "completed"); set_result (Some answer);
           set_completed_at (Some (isoformat (now w + dt)))] t1
    | Raise e =>
        fold_left setattr [set_status (py "failed"); set_error (Some (exn_str e))] t1
    end in
  process_translation_task cfg call dt task_id text source_lang target_lang w
  = (Ok tt,
     create_task cfg task_id t2 (elapse dt (create_task cfg task_id t1 w))).
Proof.
  intros Hmode Httl Hget Hcall t1 t2. unfold process_translation_task.
  rewrite (update_task_found _ _ _ _ _ Hget). rewrite Hcall.
  cbn [fold_left]. fold t1. cbv zeta.
  assert (H1 : get_task task_id (elapse dt (create_task cfg task_id t1 w))
               = (Ok (Some t1), elapse dt (create_task cfg task_id t1 w)))
    by (apply get_task_later; assumption).
  assert (Hn : now (elapse dt (create_task cfg task_id t1 w)) = (now w + dt)%Z).
  { cbn [now elapse].
    rewrite (create_task_now _ _ _ _ (mode_of_stored _ _ _ Hmode)). reflexivity. }
  subst t2. destruct outcome as [answer|e].
  - rewrite (update_task_found _ _ _ _ _ H1). rewrite Hn. reflexivity.
  - rewrite (update_task_found _ _ _ _ _ H1). reflexivity.
Qed.

Lemma process_summary_task_outcome cfg call dt task_id text max_length outcome
    t w :
  (external w /\ (dt <= Config.TASK_EXPIRE_SECONDS cfg)%Z) \/ fallback w ->
  (0 < Config.TASK_EXPIRE_SECONDS cfg)%Z ->
  get_task task_id w = (Ok (Some t), w) ->
  (forall prompt kind, call prompt kind = outcome) ->
  let t1 := setattr t (set_status (py "processing")) in
  let t2 :=
    match outcome with
    | Ok answer =>
        fold_left setattr
          [set_status (py "completed"); set_result (Some answer);
           set_completed_at (Some (isoformat (now w + dt)))] t1
    | Raise e =>
        fold_left setattr [set_status (py "failed"); set_error (Some (exn_str e))] t1
    end in
  process_summary_task cfg call dt task_id text max_length w
  = (Ok tt,
     create_task cfg task_id t2 (elapse dt (create_task cfg task_id t1 w))).
Proof.
  intros Hmode Httl Hget Hcall t1 t2. unfold process_summary_task.
  rewrite (update_task_found _ _ _ _ _ Hget). rewrite Hcall.
  cbn [fold_left]. fold t1. cbv zeta.
  assert (H1 : get_task task_id (elapse dt (create_task cfg task_id t1 w))
               = (Ok (Some t1), elapse dt (create_task cfg task_id t1 w)))
    by (apply get_task_later; assumption).
  assert (Hn : now (elapse dt (create_task cfg task_id t1 w)) = (now w + dt)%Z).
  { cbn [now elapse].
    rewrite (create_task_now _ _ _ _ (mode_of_stored _ _ _ Hmode)). reflexivity. }
  subst t2. destruct outcome as [answer|e].
  - rewrite (update_task_found _ _ _ _ _ H1). rewrite Hn. reflexivity.
  - rewrite (update_task_found _ _ _ _ _ H1). reflexivity.
Qed.

(** What the job leaves: the record read afterwards, and the statuses
    written. *)
Lemma job_outcome cfg task_id t1 t2 dt w :
  external w \/ fallback w ->
  (0 < Config.TASK_EXPIRE_SECONDS cfg)%Z ->
  let w' := create_task cfg task_id t2 (elapse dt (create_task cfg task_id t1 w)) in
  fst (get_task task_id w') = Ok (Some t2)
  /\ statuses_written task_id w'
     = statuses_written task_id w ++ [status t1; status t2].
Proof.
  intros Hmode Httl w'. subst w'.
  pose proof (create_task_mode cfg task_id t1 w Hmode) as Hmode1.
  assert (Hmode1' : external (elapse dt (create_task cfg task_id t1 w))
                    \/ fallback (elapse dt (create_task cfg task_id t1 w)))
    by exact Hmode1.
  split.
  - rewrite get_task_after_create by assumption. reflexivity.
  - unfold statuses_written.
    rewrite (create_task_writes _ _ _ _ Hmode1' Httl).
    change (writes (elapse dt ?x)) with (writes x).
    rewrite (create_task_writes _ _ _ _ Hmode Httl).
    rewrite !omap_app, <- app_assoc. f_equal.
    unfold omap. cbn [list_omap fst snd app]. unfold str_eqb.
    rewrite bool_decide_eq_true_2 by reflexivity. reflexivity.
Qed.

(** A key under which [get_json] finds nothing stays so as time passes. *)
Lemma get_json_none_later key dt w :
  (0 <= dt)%Z ->
  fst (RedisClient.get_json key w) = None ->
  fst (RedisClient.get_json key (elapse dt w)) = None.
Proof.
  intros Hdt. unfold RedisClient.get_json. rewrite initialize_elapse.
  set (w0 := RedisClient._initialize w).
  change (client (redis_client (elapse dt w0))) with (client (redis_client w0)).
  change (reachable (server (elapse dt w0))) with (reachable (server w0)).
  change (server (elapse dt w0)) with (server w0).
  change (now (elapse dt w0)) with (now w0 + dt)%Z.
  change (_memory_storage (redis_client (elapse dt w0)))
    with (_memory_storage (redis_client w0)).
  destruct (client (redis_client w0)); [|exact id].
  destruct (reachable (server w0)); [|reflexivity].
  unfold server_get.
  destruct (db (server w0) !! key) as [[v [deadline|]]|]; [| |reflexivity].
  - destruct (now w0 + dt <=? deadline)%Z eqn:E; [|reflexivity].
    apply Z.leb_le in E.
    assert ((now w0 <=? deadline)%Z = true) as -> by (apply Z.leb_le; lia).
    destruct (truthy v); [|reflexivity].
    destruct (Json.loads v); [discriminate|reflexivity].
  - destruct (truthy v); [|reflexivity].
    destruct (Json.loads v); [discriminate|reflexivity].
Qed.

Lemma task_key_inj a b : RedisKeys.task_key a = RedisKeys.task_key b -> a = b.
Proof. unfold RedisKeys.task_key. apply app_inv_head. Qed.

End ServiceTaskFacts.

(** ** Polling, continued *)

Module PollFacts2.
Import Schemas Env Lifecycle Notions StoreFacts ClientFacts Routers Spec.

Lemma get_json_unknown task_id w :
  db (server w) !! RedisKeys.task_key task_id = None ->
  _memory_storage (redis_client w) !! RedisKeys.task_key task_id = None ->
  fst (RedisClient.get_json (RedisKeys.task_key task_id) w) = None.
Proof.
  intros Hdb Hmem. unfold RedisClient.get_json.
  assert (Hs : server (RedisClient._initialize w) = server w).
  { unfold RedisClient._initialize. destruct (_initialized _); reflexivity. }
  assert (Hm : _memory_storage (redis_client (RedisClient._initialize w))
               = _memory_storage (redis_client w)).
  { unfold RedisClient._initialize. destruct (_initialized _); reflexivity. }
  destruct (client (redis_client (RedisClient._initialize w))).
  - rewrite Hs. destruct (reachable (server w)); [|reflexivity].
    unfold server_get. rewrite Hdb. reflexivity.
  - cbn [fst]. rewrite Hm. exact Hmem.
Qed.

Lemma get_task_result_by_get_json task_id w1 w2 :
  fst (RedisClient.get_json (RedisKeys.task_key task_id) w1)
  = fst (RedisClient.get_json (RedisKeys.task_key task_id) w2) ->
  fst (get_task_result task_id w1) = fst (get_task_result task_id w2).
Proof.
  unfold get_task_result, TaskService.get_task.
  destruct (RedisClient.get_json _ w1) as [d1 w1'].
  destruct (RedisClient.get_json _ w2) as [d2 w2']. cbn [fst]. intros ->.
  destruct d2 as [v|]; [|reflexivity].
  destruct (pyval_truthy v); [|reflexivity].
  destruct (TaskResult_new v); reflexivity.
Qed.

Lemma get_json_after_set_other key key' value ex dt w :
  store_ok w -> key <> key' ->
  fst (RedisClient.get_json key'
         (elapse dt (snd (RedisClient.set key value ex w))))
  = fst (RedisClient.get_json key' (elapse dt w)).
Proof.
  intros Hok Hne.
  rewrite <- set_initialize, <- (get_json_initialize key' (elapse dt w)),
    initialize_elapse.
  destruct (initialize_mode w Hok) as [H|H].
  - destruct (valid_expiry ex) eqn:Hex;
      [|rewrite (set_rejected _ _ _ _ H Hex); reflexivity].
    rewrite (set_external _ _ _ _ H Hex). cbn [snd].
    rewrite !PollFacts.get_json_external by exact H.
    change (server (elapse dt (RedisClient.record _ _ _
              (RedisClient.with_server ?s ?w0)))) with s.
    change (now (elapse dt (RedisClient.record _ _ _
              (RedisClient.with_server _ ?w0)))) with (now (elapse dt w0)).
    change (server (elapse dt ?w0)) with (server w0).
    rewrite (server_get_set_other key key' value ex _ _ _ Hne).
    destruct (server_get key' _ _) as [j|]; [|reflexivity].
    destruct (truthy j); [|reflexivity]. destruct (Json.loads j); reflexivity.
  - rewrite (set_fallback _ _ _ _ H). cbn [snd].
    rewrite !get_json_fallback by exact H. cbn. apply lookup_insert_ne, Hne.
Qed.

(** With a connected server, the poll [dt] seconds after a record has
    been written with the expiry of one hour. *)
Lemma poll_after_set task_id t dt w :
  external w ->
  fst (get_task_result task_id
         (elapse dt
            (snd (RedisClient.set (RedisKeys.task_key task_id)
                    (model_dump_json t) (Some 3600%Z) w))))
  = if (dt <=? 3600)%Z
    then Ok (mkPoll true (dict t) (py "获取任务状态成功"))
    else Raise (HTTPException 404 (py "任务不存在")).
Proof.
  intros H. rewrite (set_external _ _ (Some 3600%Z) _ H eq_refl). cbn [snd].
  unfold get_task_result, TaskService.get_task.
  rewrite PollFacts.get_json_external by exact H.
  change (server (elapse dt (RedisClient.record _ _ _
            (RedisClient.with_server ?s w)))) with s.
  change (now (elapse dt (RedisClient.record _ _ _
            (RedisClient.with_server _ w)))) with (now w + dt)%Z.
  rewrite server_get_after_set.
  destruct (dt <=? 3600)%Z; [|reflexivity].
  rewrite PollFacts.model_dump_json_truthy, loads_model_dump_json.
  cbn [pyval_truthy dict]. rewrite TaskResult_new_dict. reflexivity.
Qed.

End PollFacts2.

(** ** Words, fragments and frames *)

Module WordFacts.
Import TextProcessor Notions ShapeFacts TextFacts AIService Routers.

Lemma drop_while_nonspace (l : list N) :
  forallb nonspace l = true -> drop_while isspace l = l.
Proof.
  destruct l as [|c t]; [reflexivity|]. cbn [forallb drop_while].
  intros [Hc _]%andb_true_iff. unfold nonspace in Hc.
  apply negb_true_iff in Hc. rewrite Hc. reflexivity.
Qed.

Lemma forallb_rev (f : N -> bool) (l : list N) :
  forallb f l = true -> forallb f (rev l) = true.
Proof.
  rewrite !forallb_forall. intros H x Hx. apply H, in_rev, Hx.
Qed.

Lemma strip_word_space w :
  w <> [] -> forallb nonspace w = true -> strip (w ++ [SP]) = w.
Proof.
  intros Hne Hw. unfold strip, lstrip.
  assert (Hl : drop_while isspace (w ++ [SP]) = w ++ [SP]).
  { destruct w as [|c t]; [congruence|]. cbn [app drop_while].
    cbn [forallb] in Hw. apply andb_true_iff in Hw as [Hc _].
    unfold nonspace in Hc. apply negb_true_iff in Hc. rewrite Hc. reflexivity. }
  rewrite Hl. unfold rstrip, lstrip. rewrite rev_app_distr. cbn [rev app drop_while].
  change (isspace SP) with true. cbv iota.
  rewrite (drop_while_nonspace _ (forallb_rev _ _ Hw)). apply rev_involutive.
Qed.

Lemma replace_absent old new (s : list N) :
  ~ In old s -> replace old new s = s.
Proof.
  unfold replace. induction s as [|c t IH]; [reflexivity|]. intros Hn.
  cbn [flat_map]. destruct (c =? old) eqn:E.
  - apply N.eqb_eq in E. subst c. exfalso. apply Hn. left. reflexivity.
  - cbn [app]. f_equal. apply IH. intros Hin. apply Hn. right. exact Hin.
Qed.

Lemma nonspace_not_in (w : list N) c :
  isspace c = true -> forallb nonspace w = true -> ~ In c w.
Proof.
  intros Hc Hw Hin. rewrite forallb_forall in Hw. specialize (Hw c Hin).
  unfold nonspace in Hw. rewrite Hc in Hw. discriminate.
Qed.

Lemma clean_chunk_word_space w :
  w <> [] -> forallb nonspace w = true -> clean_chunk (w ++ [SP]) = w.
Proof.
  intros Hne Hw. unfold clean_chunk. rewrite (strip_word_space _ Hne Hw).
  rewrite (replace_absent LF), (replace_absent CR), (replace_absent TAB);
    [reflexivity| | |]; apply nonspace_not_in; try exact Hw; reflexivity.
Qed.

Lemma relayed_word_space w :
  w <> [] -> forallb nonspace w = true -> relayed (w ++ [SP]) = true.
Proof.
  intros Hne Hw. unfold relayed. rewrite (strip_word_space _ Hne Hw).
  destruct w; [congruence|reflexivity].
Qed.

Lemma split_go_words cur s :
  forallb nonspace cur = true -> Forall wordlike (split_go cur s).
Proof.
  revert cur. induction s as [|c t IH]; intros cur Hcur.
  - cbn [split_go]. destruct cur as [|x cur']; [constructor|].
    constructor; [|constructor]. split.
    + intros E. apply (f_equal (@length N)) in E. rewrite length_rev in E.
      discriminate E.
    + apply forallb_rev, Hcur.
  - cbn [split_go]. destruct (isspace c) eqn:Ec.
    + destruct cur as [|x cur']; [apply IH; reflexivity|].
      constructor; [|apply IH; reflexivity]. split.
      * intros E. apply (f_equal (@length N)) in E. rewrite length_rev in E.
        discriminate E.
      * apply forallb_rev, Hcur.
    + apply IH. cbn [forallb]. unfold nonspace at 1. rewrite Ec. exact Hcur.
Qed.

Lemma concat_split_go cur s : concat (split_go cur s) = rev cur ++ visible s.
Proof.
  revert cur. induction s as [|c t IH]; intros cur.
  - cbn [split_go]. destruct cur; [reflexivity|].
    cbn [concat]. rewrite !app_nil_r. reflexivity.
  - cbn [split_go]. destruct (isspace c) eqn:Ec.
    + rewrite (visible_cons_space c t Ec).
      destruct cur as [|x cur']; [rewrite IH; reflexivity|].
      cbn [concat]. rewrite IH. reflexivity.
    + rewrite (visible_cons_other c t Ec), IH. cbn [rev].
      rewrite <- app_assoc. reflexivity.
Qed.

(** The words of a text, glued together, are its visible characters. *)
Lemma concat_split s : concat (split s) = visible s.
Proof. unfold split. rewrite concat_split_go. reflexivity. Qed.

Lemma split_words s : Forall wordlike (split s).
Proof. apply split_go_words. reflexivity. Qed.

Lemma words_spaced_relayed s :
  List.filter relayed (words_spaced s) = words_spaced s.
Proof.
  unfold words_spaced. induction (split_words s) as [|w ws [Hne Hw] _ IH];
    [reflexivity|].
  cbn [List.map List.filter]. rewrite (relayed_word_space _ Hne Hw), IH.
  reflexivity.
Qed.

Lemma words_spaced_stripped s :
  List.map strip (words_spaced s) = split s.
Proof.
  unfold words_spaced. induction (split_words s) as [|w ws [Hne Hw] _ IH];
    [reflexivity|].
  cbn [List.map]. rewrite (strip_word_space _ Hne Hw), IH. reflexivity.
Qed.

Lemma words_spaced_clean s :
  List.map (fun chunk => chunk_event (clean_chunk chunk)) (words_spaced s)
  = List.map chunk_event (split s).
Proof.
  unfold words_spaced. induction (split_words s) as [|w ws [Hne Hw] _ IH];
    [reflexivity|].
  cbn [List.map]. rewrite (clean_chunk_word_space _ Hne Hw), IH. reflexivity.
Qed.

(** Fragments that are not relayed contribute nothing to the text. *)
Lemma concat_strip_relayed (chunks : list (list N)) :
  concat (List.map strip (List.filter relayed chunks))
  = concat (List.map strip chunks).
Proof.
  induction chunks as [|c cs IH]; [reflexivity|]. cbn [List.filter List.map].
  destruct (relayed c) eqn:E.
  - cbn [List.map concat]. rewrite IH. reflexivity.
  - cbn [concat]. rewrite IH.
    assert (strip c = []) as ->; [|reflexivity].
    unfold relayed in E. apply andb_false_iff in E as [E|E].
    + destruct c; [reflexivity|discriminate].
    + destruct (strip c); [reflexivity|discriminate].
Qed.

(** *** Single-spaced texts *)

Lemma concat_words_spaced_go cur s :
  forallb nonspace cur = true ->
  single_spaced_from (match cur with [] => false | _ => true end) s = true ->
  concat (List.map (fun word => word ++ [SP]) (split_go cur s))
  = rev cur ++ s ++ [SP].
Proof.
  revert cur. induction s as [|c t IH]; intros cur Hcur Hs.
  - cbn [single_spaced_from] in Hs. destruct cur as [|x cur']; [discriminate|].
    cbn [split_go List.map concat]. rewrite app_nil_r. reflexivity.
  - cbn [single_spaced_from split_go] in *. destruct (isspace c) eqn:Ec.
    + apply andb_true_iff in Hs as [[Hc Hb]%andb_true_iff Ht].
      apply N.eqb_eq in Hc. subst c.
      destruct cur as [|x cur']; [discriminate|].
      cbn [List.map concat]. rewrite (IH [] eq_refl Ht).
      cbn [rev app]. rewrite <- app_assoc. reflexivity.
    + rewrite (IH (c :: cur)).
      * cbn [rev]. rewrite <- app_assoc. reflexivity.
      * cbn [forallb]. unfold nonspace at 1. rewrite Ec. exact Hcur.
      * exact Hs.
Qed.

Lemma rstrip_snoc_space (s : list N) : rstrip (s ++ [SP]) = rstrip s.
Proof.
  unfold rstrip, lstrip. rewrite rev_app_distr. reflexivity.
Qed.

Lemma rstrip_cons c (u : list N) :
  rstrip (c :: u)
  = match rstrip u with
    | [] => if isspace c then [] else [c]
    | r => c :: r
    end.
Proof.
  unfold rstrip, lstrip. cbn [rev].
  assert (H : forall l : list N,
    drop_while isspace (l ++ [c])
    = match drop_while isspace l with
      | [] => if isspace c then [] else [c]
      | r => r ++ [c]
      end).
  { induction l as [|x l IH]; [cbn; destruct (isspace c); reflexivity|].
    cbn [app drop_while]. destruct (isspace x); [exact IH|reflexivity]. }
  rewrite H. destruct (drop_while isspace (rev u)) as [|x r] eqn:E.
  - destruct (isspace c); reflexivity.
  - rewrite rev_app_distr. cbn [rev app].
    destruct (rev r ++ [x]) eqn:E2; [destruct (rev r); discriminate|].
    reflexivity.
Qed.

Lemma rstrip_single_spaced b s : single_spaced_from b s = true -> rstrip s = s.
Proof.
  revert b. induction s as [|c t IH]; intros b Hs; [reflexivity|].
  cbn [single_spaced_from] in Hs. rewrite rstrip_cons.
  destruct (isspace c) eqn:Ec.
  - apply andb_true_iff in Hs as [_ Ht]. rewrite (IH _ Ht).
    destruct t; [discriminate Ht|reflexivity].
  - rewrite (IH _ Hs). destruct t; reflexivity.
Qed.

Lemma strip_words_spaced s :
  single_spaced s = true -> strip (concat (words_spaced s)) = s.
Proof.
  intros Hs. unfold words_spaced, split.
  rewrite (concat_words_spaced_go [] s eq_refl Hs). cbn [rev app].
  unfold strip, lstrip.
  assert (Hl : drop_while isspace (s ++ [SP]) = s ++ [SP]).
  { unfold single_spaced in Hs. destruct s as [|c t]; [discriminate|].
    cbn [single_spaced_from] in Hs. cbn [app drop_while].
    destruct (isspace c); [|reflexivity].
    rewrite andb_false_r in Hs. discriminate. }
  rewrite Hl, rstrip_snoc_space. exact (rstrip_single_spaced _ _ Hs).
Qed.

End WordFacts.

(** ** The provider factory *)

Module ProviderFacts.
Import AIProviders Notions.

Lemma is_set_key (k : option (list N)) :
  is_set k = true -> exists s, k = Some s /\ default [] k = s.
Proof. destruct k as [s|]; [eexists; split; reflexivity|discriminate]. Qed.

Lemma create_openai cfg :
  create_provider cfg (Some (py "openai")) = OpenAIProvider_init cfg.
Proof. reflexivity. Qed.

Lemma create_claude cfg :
  create_provider cfg (Some (py "claude")) = ClaudeProvider_init cfg.
Proof. reflexivity. Qed.

Lemma create_qianwen cfg :
  create_provider cfg (Some (py "qianwen")) = QianwenProvider_init cfg.
Proof. reflexivity. Qed.

Lemma create_provider_default cfg provider_name :
  create_provider cfg provider_name
  = create_provider cfg (Some (default (Config.AI_PROVIDER cfg) provider_name)).
Proof. reflexivity. Qed.

Lemma create_provider_other cfg name :
  name <> py "openai" -> name <> py "claude" -> name <> py "qianwen" ->
  create_provider cfg (Some name)
  = Raise (ValueError (py "不支持的AI服务提供商: " ++ name)).
Proof.
  intros H1 H2 H3. unfold create_provider, str_eqb. cbn [default].
  rewrite !bool_decide_eq_false_2 by assumption. reflexivity.
Qed.

Lemma name_cases (name : list N) :
  name = py "openai" \/ name = py "claude" \/ name = py "qianwen"
  \/ (name <> py "openai" /\ name <> py "claude" /\ name <> py "qianwen").
Proof.
  destruct (decide (name = py "openai")); [tauto|].
  destruct (decide (name = py "claude")); [tauto|].
  destruct (decide (name = py "qianwen")); tauto.
Qed.

Lemma create_provider_ok cfg name p :
  create_provider cfg (Some name) = Ok p ->
  credential_present cfg name /\ built_with cfg name p.
Proof.
  destruct (name_cases name) as [->|[->|[->|(H1 & H2 & H3)]]].
  - rewrite create_openai. unfold OpenAIProvider_init, credential_present.
    destruct (is_set (Config.OPENAI_API_KEY cfg)) eqn:E; [|discriminate].
    cbn [negb]. intros [= <-]. split; [left; split; reflexivity|].
    destruct (is_set_key _ E) as (s & Hs & Hd). rewrite Hd.
    split; [reflexivity|exact Hs].
  - rewrite create_claude. unfold ClaudeProvider_init, credential_present.
    destruct (is_set (Config.CLAUDE_API_KEY cfg)) eqn:E; [|discriminate].
    cbn [negb]. intros [= <-]. split; [right; left; split; reflexivity|].
    destruct (is_set_key _ E) as (s & Hs & Hd). rewrite Hd.
    split; [reflexivity|exact Hs].
  - rewrite create_qianwen. unfold QianwenProvider_init, credential_present.
    destruct (is_set (Config.QIANWEN_API_KEY cfg)) eqn:E; [|discriminate].
    cbn [negb]. intros [= <-]. split; [right; right; split; reflexivity|].
    destruct (is_set_key _ E) as (s & Hs & Hd). rewrite Hd.
    split; [reflexivity|exact Hs].
  - rewrite create_provider_other by assumption. discriminate.
Qed.

Lemma create_provider_present cfg name :
  credential_present cfg name -> exists p, create_provider cfg (Some name) = Ok p.
Proof.
  intros [[-> H] | [[-> H] | [-> H]]].
  - rewrite create_openai. unfold OpenAIProvider_init. rewrite H.
    eexists; reflexivity.
  - rewrite create_claude. unfold ClaudeProvider_init. rewrite H.
    eexists; reflexivity.
  - rewrite create_qianwen. unfold QianwenProvider_init. rewrite H.
    eexists; reflexivity.
Qed.

Lemma create_provider_raises cfg name e :
  create_provider cfg (Some name) = Raise e -> exists msg, e = ValueError msg.
Proof.
  destruct (name_cases name) as [->|[->|[->|(H1 & H2 & H3)]]].
  - rewrite create_openai. unfold OpenAIProvider_init.
    destruct (negb _); [|discriminate]. intros [= <-]. eexists; reflexivity.
  - rewrite create_claude. unfold ClaudeProvider_init.
    destruct (negb _); [|discriminate]. intros [= <-]. eexists; reflexivity.
  - rewrite create_qianwen. unfold QianwenProvider_init.
    destruct (negb _); [|discriminate]. intros [= <-]. eexists; reflexivity.
  - rewrite create_provider_other by assumption. intros [= <-].
    eexists; reflexivity.
Qed.

Lemma get_available_providers_filter cfg :
  get_available_providers cfg
  = List.filter (fun name => is_ok (create_provider cfg (Some name)))
      [py "openai"; py "claude"; py "qianwen"].
Proof.
  unfold get_available_providers, omap. cbn [list_omap fst snd List.filter].
  rewrite create_openai, create_claude, create_qianwen.
  destruct (OpenAIProvider_init cfg), (ClaudeProvider_init cfg),
    (QianwenProvider_init cfg); reflexivity.
Qed.

End ProviderFacts.

(** ** The routes *)

Module RouteFacts.
Import Schemas Env Lifecycle AIProviders AIService StoreFacts Spec.

Lemma now_after_set key v ex dt w :
  now (elapse dt (snd (RedisClient.set key v ex w))) = (now w + dt)%Z.
Proof.
  assert (Hn : now (RedisClient._initialize w) = now w).
  { unfold RedisClient._initialize. destruct (_initialized _); reflexivity. }
  unfold RedisClient.set, RedisClient.send, server_set.
  destruct (client _); [destruct (reachable _); [destruct (valid_expiry ex)|]|];
    cbn; rewrite Hn; reflexivity.
Qed.

Lemma summarize_async_unfold request task_id w :
  Summary.summarize_async request task_id w
  = (mkTaskResponse task_id pending (py "总结任务已提交，请使用task_id轮询结果"),
     [Summary.process_summary task_id (Summary.text request)],
     snd (RedisClient.set (RedisKeys.task_key task_id)
            (model_dump_json (pending_record task_id (now w))) (Some 3600%Z) w)).
Proof. reflexivity. Qed.

Lemma summary_process_unfold r ai_service dt task_id text w :
  Summary._process_summary_task r ai_service dt task_id text w
  = snd (RedisClient.set (RedisKeys.task_key task_id)
           (model_dump_json
              (final_record task_id (AIService.summarize_text r ai_service text)
                 (now w + dt)))
           (Some 3600%Z)
           (elapse dt
              (snd (RedisClient.set (RedisKeys.task_key task_id)
                      (model_dump_json
                         (mkTaskResult task_id processing None None
                            (isoformat (now w)) None))
                      (Some 3600%Z) w)))).
Proof.
  unfold Summary._process_summary_task, final_record.
  destruct (AIService.summarize_text r ai_service text); cbn zeta;
    rewrite now_after_set; reflexivity.
Qed.

(** The two writes of a background job and what the store holds after
    them. *)
Lemma job_writes task_id fin dt w :
  store_ok w ->
  let w2 :=
    snd (RedisClient.set (RedisKeys.task_key task_id) (model_dump_json fin)
           (Some 3600%Z)
           (elapse dt
              (snd (RedisClient.set (RedisKeys.task_key task_id)
                      (model_dump_json
                         (mkTaskResult task_id processing None None
                            (isoformat (now w)) None))
                      (Some 3600%Z) w)))) in
  statuses_written task_id w2
  = statuses_written task_id w ++ [processing; status fin]
  /\ fst (RedisClient.get (RedisKeys.task_key task_id) w2)
     = Some (VStr (model_dump_json fin)).
Proof.
  intros Hok.
  destruct (set_store_ok (RedisKeys.task_key task_id)
              (model_dump_json
                 (mkTaskResult task_id processing None None (isoformat (now w)) None))
              (Some 3600%Z) w Hok eq_refl) as (w1 & E1 & M1 & W1 & _).
  rewrite E1. cbn [snd].
  destruct (set_store_ok (RedisKeys.task_key task_id) (model_dump_json fin)
              (Some 3600%Z) (elapse dt w1)
              (store_ok_elapse _ _ (mode_store_ok _ M1)) eq_refl)
    as (w2 & E2 & _ & W2 & _ & G2).
  rewrite E2. cbn [snd]. cbv zeta. split.
  - rewrite (statuses_written_snoc _ _ _ _ _ W2), statuses_written_elapse.
    rewrite (statuses_written_snoc _ _ _ _ _ W1), <- app_assoc. reflexivity.
  - rewrite <- (TaskFacts.elapse_zero w2). apply (G2 3600%Z); [reflexivity|lia].
Qed.

(** The service streams always end normally. *)
Lemma translate_stream_ends r self text source_lang target_lang :
  snd (AIService.translate_stream r self text source_lang target_lang) = None.
Proof.
  unfold AIService.translate_stream. rewrite ServiceFacts.preprocess_text_ok.
  destruct (provider self) as [p|]; [|reflexivity].
  destruct (AIProviders.translate_stream r p _ _ _) as [items [e|]]; reflexivity.
Qed.

Lemma summarize_stream_ends r self text :
  snd (AIService.summarize_stream r self text) = None.
Proof.
  unfold AIService.summarize_stream. rewrite ServiceFacts.preprocess_text_ok.
  destruct (provider self) as [p|]; [|reflexivity].
  destruct (AIProviders.summarize_stream r p _) as [items [e|]]; reflexivity.
Qed.

Lemma start_is_not_error msg : Routers.start_event <> Routers.error_event msg.
Proof. unfold Routers.start_event, Routers.error_event, Routers.sse. vm_compute. discriminate. Qed.

Lemma chunk_is_not_error c msg : Routers.chunk_event c <> Routers.error_event msg.
Proof. unfold Routers.chunk_event, Routers.error_event, Routers.sse. vm_compute. discriminate. Qed.

Lemma mock_text_has_space text source_lang target_lang :
  In SP (mock_text text source_lang target_lang).
Proof.
  unfold mock_text. destruct (_ && _).
  - apply in_or_app. left. vm_compute. tauto.
  - destruct (_ && _).
    + apply in_or_app. left. vm_compute. tauto.
    + apply in_or_app. right. apply in_or_app. right.
      apply in_or_app. left. vm_compute. tauto.
Qed.

Lemma visible_no_space s : ~ In SP (Notions.visible s).
Proof.
  unfold Notions.visible. intros H. apply List.filter_In in H as [_ H].
  discriminate H.
Qed.

End RouteFacts.

(** * Further properties, by source function *)

(** X1. The sanitizer keeps exactly the allow-listed characters that are not
    whitespace, in their order; its result is empty exactly when the input
    has no such character (empty, all-whitespace or all-filtered input). *)
Theorem X1_sanitizer_keeps_visible_characters (user_input : list N) :
  exists cleaned,
    TextProcessor.prepare_user_input_for_ai (TextProcessor.PyStr user_input)
    = Ok cleaned
    /\ Notions.visible cleaned
       = List.filter (fun c => TextProcessor.allowed c && negb (isspace c))
           user_input
    /\ (cleaned = []
        <-> List.filter (fun c => TextProcessor.allowed c && negb (isspace c))
              user_input = []).
Proof.
  exists (TextProcessor.deep_clean_text user_input).
  split; [reflexivity|].
  pose proof (TextFacts.visible_deep_clean_text user_input) as Hv.
  split; [exact Hv|]. rewrite <- Hv. split.
  - intros ->. reflexivity.
  - intros Hnil.
    destruct (ShapeFacts.deep_clean_text_clean user_input) as (_ & _ & _ & Hs).
    destruct (TextProcessor.deep_clean_text user_input) as [|c t] eqn:E;
      [reflexivity|].
    destruct (TextFacts.strip_head_visible _ Hs ltac:(discriminate) Hnil).
Qed.

(** X2. The sanitizer never makes a text longer. *)
Theorem X2_sanitizer_never_grows (user_input : list N) :
  exists cleaned,
    TextProcessor.prepare_user_input_for_ai (TextProcessor.PyStr user_input)
    = Ok cleaned
    /\ (length cleaned <= length user_input)%nat.
Proof.
  exists (TextProcessor.deep_clean_text user_input).
  split; [reflexivity|apply TextFacts.length_deep_clean_text].
Qed.

(** X3. A sanitized text holds allow-listed characters only, no tab, no two
    neighbouring spaces, no whitespace run with three line feeds, and
    neither starts nor ends with whitespace. *)
Theorem X3_sanitized_shape (text : list N) :
  let cleaned := TextProcessor.deep_clean_text text in
  (forall c, In c cleaned -> TextProcessor.allowed c = true /\ c <> TAB)
  /\ Notions.no_run TextProcessor.is_sp cleaned = true
  /\ Shape.no_blank_lines cleaned = true
  /\ lstrip cleaned = cleaned /\ rstrip cleaned = cleaned.
Proof.
  intros cleaned.
  destruct (ShapeFacts.deep_clean_text_clean text) as (Ha & Hl & Hr & Hs).
  fold cleaned in Ha, Hl, Hr, Hs.
  split.
  { intros c Hin. split.
    - rewrite forallb_forall in Ha. exact (Ha c Hin).
    - intros ->. exact (TextFacts.no_blank_runs_no_tab _ Hr Hin). }
  split; [apply TextFacts.no_blank_runs_no_run, Hr|].
  split; [exact Hl|].
  assert (Hls : lstrip cleaned = cleaned).
  { unfold lstrip. apply ShapeFacts.drop_while_fixed.
    rewrite <- Hs. unfold strip, lstrip.
    apply ShapeFacts.head_space_rstrip, ShapeFacts.head_space_drop. }
  split; [exact Hls|].
  unfold strip in Hs. rewrite Hls in Hs. exact Hs.
Qed.

(** X4. [clean_control_characters] removes exactly the characters of its
    class, U+0000 to U+001F and U+007F, without tab, line feed and carriage
    return when [preserve_newlines] is set; it keeps every other character
    in order, the controls U+0080 to U+009F among them, and applying it
    again changes nothing; removing all of the class after the milder pass
    is the same as removing them at once. *)
Theorem X4_clean_control_characters (text : list N) (preserve_newlines : bool) :
  let class :=
    if preserve_newlines then TextProcessor.is_control_but_newlines
    else TextProcessor.is_control in
  let cleaned := TextProcessor.clean_control_characters text preserve_newlines in
  (forall c,
     class c = true
     <-> ((c <= 31)%N \/ c = 127%N)
         /\ (preserve_newlines = true -> c <> TAB /\ c <> LF /\ c <> CR))
  /\ cleaned = List.filter (fun c => negb (class c)) text
  /\ (forall c, In c cleaned -> class c = false)
  /\ TextProcessor.clean_control_characters cleaned preserve_newlines = cleaned
  /\ TextProcessor.clean_control_characters
       (TextProcessor.clean_control_characters text true) false
     = TextProcessor.clean_control_characters text false.
Proof.
  assert (Hf : forall t p,
    TextProcessor.clean_control_characters t p
    = List.filter (fun c => negb ((if p then TextProcessor.is_control_but_newlines
                                   else TextProcessor.is_control) c)) t).
  { intros t p. unfold TextProcessor.clean_control_characters.
    destruct t as [|c t]; [reflexivity|]. cbn [truthy negb].
    destruct p; apply TextFacts.sub_once_delete. }
  intros class cleaned. subst cleaned. rewrite !Hf. fold class.
  split.
  { intros c. subst class. unfold TAB, LF, CR.
    destruct preserve_newlines;
      unfold TextProcessor.is_control_but_newlines, TextProcessor.is_control;
      rewrite ?orb_true_iff, ?andb_true_iff, ?N.leb_le, ?N.eqb_eq.
    - split; [intros H; split; [lia|intros _; lia]|].
      intros [H1 H2]. specialize (H2 eq_refl). lia.
    - split; [intros H; split; [lia|discriminate]|intros [H1 _]; lia]. }
  split; [reflexivity|]. split.
  { intros c [_ Hc]%filter_In. apply negb_true_iff, Hc. }
  split.
  { induction text as [|c t IH]; [reflexivity|]. cbn [List.filter].
    destruct (negb (class c)) eqn:E; [|exact IH].
    cbn [List.filter]. rewrite E, IH. reflexivity. }
  induction text as [|c t IH]; [reflexivity|]. cbn [List.filter].
  destruct (TextProcessor.is_control c) eqn:E1;
    destruct (TextProcessor.is_control_but_newlines c) eqn:E2;
    cbn [negb List.filter]; rewrite ?E1; cbn [negb]; rewrite ?IH; try reflexivity.
  exfalso. revert E1 E2. unfold TextProcessor.is_control,
    TextProcessor.is_control_but_newlines.
  intros E1 E2. apply orb_false_iff in E1 as [E1 E1'].
  apply N.leb_gt in E1. apply N.eqb_neq in E1'.
  repeat (apply orb_true_iff in E2 as [E2|E2]).
  - apply N.leb_le in E2. lia.
  - apply N.eqb_eq in E2. lia.
  - apply N.eqb_eq in E2. lia.
  - apply andb_true_iff in E2 as [_ E2]. apply N.leb_le in E2. lia.
  - apply N.eqb_eq in E2. lia.
Qed.

(** X5. [normalize_whitespace] leaves no two neighbouring spaces and no two
    neighbouring tabs, never makes the text longer, and applying it again
    changes nothing. *)
Theorem X5_normalize_whitespace (text : list N) :
  let normal := TextProcessor.normalize_whitespace text in
  Notions.no_run TextProcessor.is_sp normal = true
  /\ Notions.no_run TextProcessor.is_tab normal = true
  /\ (length normal <= length text)%nat
  /\ TextProcessor.normalize_whitespace normal = normal.
Proof.
  intros normal. subst normal. unfold TextProcessor.normalize_whitespace.
  destruct text as [|c t]; [repeat split; simpl; lia|]. cbn [truthy negb].
  set (s1 := Re.sub [Re.Atom TextProcessor.is_sp Re.Plus] [SP] (c :: t)).
  set (s2 := Re.sub [Re.Atom TextProcessor.is_tab Re.Plus] [TAB] s1).
  assert (H1 : Notions.no_run TextProcessor.is_sp s2 = true).
  { apply TextFacts.no_run_sub_other.
    - intros d Hd. unfold TextProcessor.is_tab in Hd. apply N.eqb_eq in Hd.
      subst d. reflexivity.
    - reflexivity.
    - apply TextFacts.no_run_sub_plus. }
  assert (H2 : Notions.no_run TextProcessor.is_tab s2 = true)
    by apply TextFacts.no_run_sub_plus.
  split; [exact H1|]. split; [exact H2|]. split.
  { pose proof (TextFacts.length_sub_plus TextProcessor.is_sp SP (c :: t)).
    pose proof (TextFacts.length_sub_plus TextProcessor.is_tab TAB s1).
    fold s1 in H. fold s2 in H0. lia. }
  destruct s2 as [|d u] eqn:E2; [reflexivity|]. cbn [truthy negb].
  rewrite (TextFacts.sub_plus_fixed TextProcessor.is_sp SP (d :: u)).
  - apply TextFacts.sub_plus_fixed; [|exact H2].
    intros x Hx. apply N.eqb_eq in Hx. exact Hx.
  - intros x Hx. apply N.eqb_eq in Hx. exact Hx.
  - exact H1.
Qed.

(** X6. When [truncate_text] cuts a text (it is not empty and longer than
    [max_length]), the result ends with the suffix; it has exactly
    [max_length] characters and starts with the text's first
    [max_length - len(suffix)] characters when the suffix fits, and it is
    longer than [max_length] when the suffix does not fit. *)
Theorem X6_truncate_text_cut (text : list N) (max_length : Z) (suffix : list N) :
  text <> [] ->
  (max_length < Z.of_nat (length text))%Z ->
  let result := TextProcessor.truncate_text text max_length suffix in
  (exists kept, result = kept ++ suffix)
  /\ ((Z.of_nat (length suffix) <= max_length)%Z ->
      Z.of_nat (length result) = max_length
      /\ result
         = take (Z.to_nat (max_length - Z.of_nat (length suffix))) text ++ suffix)
  /\ ((max_length < Z.of_nat (length suffix))%Z ->
      (max_length < Z.of_nat (length result))%Z).
Proof.
  intros Hne Hlt result. subst result.
  rewrite (TextFacts.truncate_text_cut _ _ _ Hne Hlt).
  split; [eexists; reflexivity|]. split.
  - intros Hfit. unfold TextProcessor.slice_to.
    assert ((max_length - Z.of_nat (length suffix) <? 0)%Z = false) as ->
      by (apply Z.ltb_ge; lia).
    split; [|reflexivity].
    rewrite length_app, length_take. lia.
  - intros Hbig. rewrite length_app. lia.
Qed.

Lemma X6_witness :
  TextProcessor.truncate_text (py "abcdefghij") 8 (py "...") = py "abcde..."
  /\ (2 < Z.of_nat (length (TextProcessor.truncate_text (py "abcd") 2 (py "..."))))%Z.
Proof.
  assert (H1 : py "abcdefghij" <> []) by discriminate.
  assert (H2 : (8 < Z.of_nat (length (py "abcdefghij")))%Z) by reflexivity.
  assert (H3 : py "abcd" <> []) by discriminate.
  assert (H4 : (2 < Z.of_nat (length (py "abcd")))%Z) by reflexivity.
  split.
  - exact (proj2 (proj1 (proj2 (X6_truncate_text_cut (py "abcdefghij") 8 (py "...")
                                  H1 H2)) ltac:(vm_compute; discriminate))).
  - exact (proj2 (proj2 (X6_truncate_text_cut (py "abcd") 2 (py "...") H3 H4))
             eq_refl).
Defined.

(** X7. [clean_user_input] works character by character: a quote, an
    apostrophe, a line feed, a carriage return and a tab come out behind
    two backslashes (the last replacement doubles the backslash the
    earlier ones put in), a backslash is doubled, any other character is
    kept. The result holds no line feed, carriage return or tab and is at
    least as long as the input. *)
Theorem X7_clean_user_input_characterwise (text : list N) :
  TextProcessor.clean_user_input text = flat_map Notions.escaped_twice text
  /\ (forall c, In c (TextProcessor.clean_user_input text) ->
        c <> LF /\ c <> CR /\ c <> TAB)
  /\ (length text <= length (TextProcessor.clean_user_input text))%nat.
Proof.
  rewrite TextFacts.clean_user_input_chars. split; [reflexivity|]. split.
  - intros c (x & _ & Hx)%in_flat_map.
    exact (TextFacts.escaped_twice_no_break x c Hx).
  - apply TextFacts.length_flat_map_ge, TextFacts.escaped_twice_length.
Qed.

(** X8. A task record survives both ways of writing it: the JSON text of
    [model_dump_json], and the JSON text [json.dumps] makes of [dict()],
    parse to a dictionary from which the constructor rebuilds the same
    record. *)
Theorem X8_task_record_wire_round_trip (t : Schemas.TaskResult) :
  (exists d,
     Json.loads (Schemas.model_dump_json t) = Ok d
     /\ Schemas.TaskResult_new (Schemas.VDict d) = Ok t)
  /\ (exists doc d,
        Json.dumps (Schemas.dict t) = Ok doc
        /\ Json.loads doc = Ok d
        /\ Schemas.TaskResult_new (Schemas.VDict d) = Ok t).
Proof.
  split.
  - exists (Schemas.dict t).
    split; [apply StoreFacts.loads_model_dump_json|apply StoreFacts.TaskResult_new_dict].
  - eexists. exists (Schemas.dict t). split; [reflexivity|].
    split; [apply JsonFacts.loads_dumps_default|apply StoreFacts.TaskResult_new_dict].
Qed.

(** X9. While the store works, a write under one key does not change what
    a read under another key returns, at any later time. *)
Theorem X9_set_leaves_other_keys
    (key key' value : list N) (ex : option Z) (dt : Z) (w : Env.World) :
  Lifecycle.store_ok w -> key <> key' ->
  fst (RedisClient.get key'
         (Env.elapse dt (snd (RedisClient.set key value ex w))))
  = fst (RedisClient.get key' (Env.elapse dt w)).
Proof. apply ClientFacts.get_after_set_other. Qed.

Lemma X9_witness :
  fst (RedisClient.get (py "b")
         (Env.elapse 10
            (snd (RedisClient.set (py "a") (py "v") (Some 5%Z)
                    Scenario.world_external))))
  = fst (RedisClient.get (py "b") (Env.elapse 10 Scenario.world_external)).
Proof.
  apply (X9_set_leaves_other_keys (py "a") (py "b") (py "v") (Some 5%Z) 10
           Scenario.world_external);
    [intros H; discriminate H | discriminate].
Defined.

(** X10. While the store works, after [delete] a read under the key
    finds nothing; [delete] answers [True] exactly when a read would have
    found a value; reads under other keys are unchanged. *)
Theorem X10_delete (key : list N) (w : Env.World) :
  Lifecycle.store_ok w ->
  fst (RedisClient.get key (snd (RedisClient.delete key w))) = None
  /\ (fst (RedisClient.delete key w) = true
      <-> fst (RedisClient.get key w) <> None)
  /\ (forall key', key <> key' ->
        fst (RedisClient.get key' (snd (RedisClient.delete key w)))
        = fst (RedisClient.get key' w)).
Proof. apply ClientFacts.delete_spec. Qed.

Lemma X10_witness :
  let w := snd (RedisClient.set (py "a") (py "v") (Some 5%Z)
                  Scenario.world_fallback) in
  fst (RedisClient.get (py "a") w) = Some (Schemas.VStr (py "v"))
  /\ fst (RedisClient.delete (py "a") w) = true
  /\ fst (RedisClient.get (py "a") (snd (RedisClient.delete (py "a") w))) = None.
Proof.
  intros w.
  assert (Hok : Lifecycle.store_ok w) by (intros _ Hc; exfalso; apply Hc; reflexivity).
  destruct (X10_delete (py "a") w Hok) as (H1 & H2 & _).
  assert (Hg : fst (RedisClient.get (py "a") w) = Some (Schemas.VStr (py "v")))
    by reflexivity.
  split; [exact Hg|]. split; [|exact H1].
  apply H2. rewrite Hg. discriminate.
Defined.

(** X11. The client chooses its mode at its first use and keeps it:
    whatever is done with the client afterwards, however much time passes
    and whether the server goes down or comes back, [is_connected] answers
    what the first probe found. *)
Theorem X11_mode_fixed_at_first_use (acts : list Notions.action) (w : Env.World) :
  fst (RedisClient.is_connected
         (Notions.run acts (snd (RedisClient.is_connected w))))
  = fst (RedisClient.is_connected w)
  /\ (Env._initialized (Env.redis_client w) = false ->
      fst (RedisClient.is_connected w) = Env.reachable (Env.server w)).
Proof.
  split.
  - assert (Hinit : Env._initialized
                      (Env.redis_client (snd (RedisClient.is_connected w))) = true).
    { unfold RedisClient.is_connected, RedisClient._initialize. cbn [snd].
      destruct (Env._initialized (Env.redis_client w)) eqn:E; [exact E|reflexivity]. }
    assert (Hfirst : fst (RedisClient.is_connected w)
      = match Env.client (Env.redis_client (snd (RedisClient.is_connected w))) with
        | Some _ => true | None => false end) by reflexivity.
    rewrite Hfirst. clear Hfirst.
    generalize dependent (snd (RedisClient.is_connected w)).
    induction acts as [|a acts IH]; intros w0 Hinit.
    + cbn [Notions.run fold_left]. unfold RedisClient.is_connected.
      rewrite (StoreFacts.initialize_done _ Hinit). reflexivity.
    + cbn [Notions.run fold_left].
      destruct (ClientFacts.act_keeps_client a w0 Hinit) as [Hi Hc].
      rewrite <- Hc. exact (IH _ Hi).
  - intros Hno. unfold RedisClient.is_connected, RedisClient._initialize.
    rewrite Hno. cbn. destruct (Env.reachable (Env.server w)); reflexivity.
Qed.

(** X12. When the server cannot be reached after the client has connected,
    a submission is still answered with status [pending] and queues its job,
    but nothing is stored, neither on the server nor in the in-process
    dictionary; the job's writes are lost as well and polling the returned
    identifier answers not found. *)
Theorem X12_writes_lost_when_server_drops
    (r : AIProviders.Remote) (ai_service : AIService.t)
    (request : Routers.TranslationRequest) (task_id : list N) (dt : Z)
    (w : Env.World) :
  Env._initialized (Env.redis_client w) = true ->
  Env.client (Env.redis_client w) = Some Env.Redis ->
  Env.reachable (Env.server w) = false ->
  Routers.translate_async request task_id w
  = (Schemas.mkTaskResponse task_id Lifecycle.pending
       (py "翻译任务已提交，请使用task_id轮询结果"),
     [Spec.job_of request task_id], w)
  /\ Routers.run_job r ai_service dt (Spec.job_of request task_id) w
     = Env.elapse dt w
  /\ fst (Routers.get_task_result task_id (Env.elapse dt w))
     = Raise (HTTPException 404 (py "任务不存在")).
Proof.
  intros Hi Hc Hr.
  assert (Hset : forall key value ex w',
    Env._initialized (Env.redis_client w') = true ->
    Env.client (Env.redis_client w') = Some Env.Redis ->
    Env.reachable (Env.server w') = false ->
    RedisClient.set key value ex w' = (false, w')).
  { intros key value ex w' Hi' Hc' Hr'. unfold RedisClient.set.
    rewrite (StoreFacts.initialize_done _ Hi'), Hc', Hr'. reflexivity. }
  split; [|split].
  - rewrite TaskFacts.translate_async_unfold, Hset by assumption. reflexivity.
  - cbn [Routers.run_job Spec.job_of]. rewrite TaskFacts.process_unfold.
    rewrite (Hset _ _ _ w) by assumption. cbn [snd].
    rewrite (Hset _ _ _ (Env.elapse dt w)) by assumption. reflexivity.
  - apply PollFacts.poll_absent. unfold RedisClient.get_json.
    rewrite StoreFacts.initialize_done by exact Hi.
    change (Env.client (Env.redis_client (Env.elapse dt w)))
      with (Env.client (Env.redis_client w)).
    change (Env.reachable (Env.server (Env.elapse dt w)))
      with (Env.reachable (Env.server w)).
    rewrite Hc, Hr. reflexivity.
Qed.

Lemma X12_witness :
  let w := Env.set_reachable false
             (snd (RedisClient.is_connected Scenario.world_external)) in
  Routers.translate_async Scenario.request_hi Scenario.t1 w
  = (Schemas.mkTaskResponse Scenario.t1 Lifecycle.pending
       (py "翻译任务已提交，请使用task_id轮询结果"),
     [Spec.job_of Scenario.request_hi Scenario.t1], w).
Proof.
  intros w.
  exact (proj1 (X12_writes_lost_when_server_drops Scenario.remote_down
                  (AIService.mk None) Scenario.request_hi Scenario.t1 1 w
                  eq_refl eq_refl eq_refl)).
Defined.

(** X13. While the store works and the configured time-to-live is
    positive, a record created by [TaskService] is read back unchanged by
    [get_task]. With a connected Redis server this holds up to the instant
    at which [TASK_EXPIRE_SECONDS] have passed, after which [get_task]
    finds nothing; in the in-process fallback it holds at any later
    time. *)
Theorem X13_create_then_get_task
    (cfg : Config.t) (task_id : list N) (t : Schemas.TaskResult) (dt : Z)
    (w : Env.World) :
  Lifecycle.store_ok w ->
  (0 < Config.TASK_EXPIRE_SECONDS cfg)%Z ->
  let w' := RedisClient._initialize w in
  (Lifecycle.external w' ->
   fst (TaskService.get_task task_id
          (Env.elapse dt (TaskService.create_task cfg task_id t w)))
   = if (dt <=? Config.TASK_EXPIRE_SECONDS cfg)%Z then Ok (Some t) else Ok None)
  /\ (Lifecycle.fallback w' ->
      fst (TaskService.get_task task_id
             (Env.elapse dt (TaskService.create_task cfg task_id t w)))
      = Ok (Some t))
  /\ (Lifecycle.external w' \/ Lifecycle.fallback w').
Proof.
  intros Hok Httl w'. rewrite <- ServiceTaskFacts.create_task_initialize. fold w'.
  split; [|split].
  - intros H. apply ServiceTaskFacts.get_task_later_external; assumption.
  - apply ServiceTaskFacts.get_task_later_fallback.
  - apply StoreFacts.initialize_mode, Hok.
Qed.

Lemma X13_witness :
  let t := Spec.pending_record Scenario.t1 100 in
  fst (TaskService.get_task Scenario.t1
         (Env.elapse 3600
            (TaskService.create_task Scenario.cfg_default Scenario.t1 t
               Scenario.world_external)))
  = Ok (Some t)
  /\ fst (TaskService.get_task Scenario.t1
            (Env.elapse 3601
               (TaskService.create_task Scenario.cfg_default Scenario.t1 t
                  Scenario.world_external)))
     = Ok None.
Proof.
  intros t.
  assert (H : Lifecycle.store_ok Scenario.world_external)
    by (intros H; discriminate H).
  assert (He : Lifecycle.external (RedisClient._initialize Scenario.world_external))
    by (repeat split).
  assert (Httl : (0 < Config.TASK_EXPIRE_SECONDS Scenario.cfg_default)%Z)
    by reflexivity.
  split.
  - exact (proj1 (X13_create_then_get_task Scenario.cfg_default Scenario.t1 t 3600
                    Scenario.world_external H Httl) He).
  - exact (proj1 (X13_create_then_get_task Scenario.cfg_default Scenario.t1 t 3601
                    Scenario.world_external H Httl) He).
Defined.

(** X14. For an identifier under which the store holds nothing,
    [update_task] and [process_translation_task] write nothing and report
    nothing: no record is created, whatever the model call answers and
    however long it takes. *)
Theorem X14_unknown_task_is_ignored
    (cfg : Config.t) (call : list N -> list N -> res (list N)) (dt : Z)
    (task_id text source_lang target_lang : list N)
    (updates : list TaskService.update) (w : Env.World) :
  (0 <= dt)%Z ->
  fst (RedisClient.get_json (RedisKeys.task_key task_id) w) = None ->
  TaskService.update_task cfg task_id updates w
  = (Ok tt, RedisClient._initialize w)
  /\ TaskService.process_translation_task cfg call dt task_id text source_lang
       target_lang w
     = (Ok tt, Env.elapse dt (RedisClient._initialize w))
  /\ Env.writes (Env.elapse dt (RedisClient._initialize w)) = Env.writes w
  /\ fst (TaskService.get_task task_id (Env.elapse dt (RedisClient._initialize w)))
     = Ok None.
Proof.
  intros Hdt Hnone.
  pose proof (ServiceTaskFacts.get_json_missing_initialize _ _ Hnone) as Hnone'.
  pose proof (ServiceTaskFacts.get_json_none_later _ dt _ Hdt Hnone') as Hlater.
  assert (Hinit : RedisClient._initialize (Env.elapse dt (RedisClient._initialize w))
                  = Env.elapse dt (RedisClient._initialize w)).
  { rewrite ClientFacts.initialize_elapse, StoreFacts.initialize_twice.
    reflexivity. }
  split; [apply ServiceTaskFacts.update_task_missing, Hnone|].
  split.
  - unfold TaskService.process_translation_task.
    rewrite (ServiceTaskFacts.update_task_missing _ _ _ _ Hnone). cbv zeta.
    destruct (call _ _);
      rewrite (ServiceTaskFacts.update_task_missing _ _ _ _ Hlater);
      rewrite Hinit; reflexivity.
  - split.
    + unfold RedisClient._initialize.
      destruct (Env._initialized (Env.redis_client w)); reflexivity.
    + rewrite (ServiceTaskFacts.get_task_missing _ _ Hlater). reflexivity.
Qed.

Lemma X14_witness :
  TaskService.process_translation_task Scenario.cfg_default
    TaskService.call_ai_model_absent 0 Scenario.t1 (py "hi") (py "zh") (py "en")
    Scenario.world_fallback
  = (Ok tt, Env.elapse 0 (RedisClient._initialize Scenario.world_fallback)).
Proof.
  assert (Hdt : (0 <= 0)%Z) by lia.
  exact (proj1 (proj2 (X14_unknown_task_is_ignored Scenario.cfg_default
    TaskService.call_ai_model_absent 0 Scenario.t1 (py "hi") (py "zh") (py "en")
    [] Scenario.world_fallback Hdt eq_refl))).
Defined.

(** X15. When the model call answers after [dt] seconds, and the record
    has not expired on the server meanwhile, [process_translation_task]
    moves a stored task through [processing] to [completed]: the record
    read afterwards has the answer as [result], [completed_at] set to the
    clock after the call, and the identifier, [created_at] and [error] it
    had; it satisfies the record invariant when [error] was unset. *)
Theorem X15_task_service_completes
    (cfg : Config.t) (call : list N -> list N -> res (list N)) (dt : Z)
    (task_id text source_lang target_lang answer : list N)
    (t : Schemas.TaskResult) (w : Env.World) :
  (Lifecycle.external w /\ (dt <= Config.TASK_EXPIRE_SECONDS cfg)%Z)
  \/ Lifecycle.fallback w ->
  (0 < Config.TASK_EXPIRE_SECONDS cfg)%Z ->
  TaskService.get_task task_id w = (Ok (Some t), w) ->
  (forall prompt kind, call prompt kind = Ok answer) ->
  let run :=
    TaskService.process_translation_task cfg call dt task_id text source_lang
      target_lang w in
  let final :=
    Schemas.mkTaskResult (Schemas.task_id t) Lifecycle.completed (Some answer)
      (Schemas.error t) (Schemas.created_at t)
      (Some (Env.isoformat (Env.now w + dt))) in
  fst run = Ok tt
  /\ fst (TaskService.get_task task_id (snd run)) = Ok (Some final)
  /\ Lifecycle.statuses_written task_id (snd run)
     = Lifecycle.statuses_written task_id w
         ++ [Lifecycle.processing; Lifecycle.completed]
  /\ (Schemas.error t = None -> Lifecycle.well_formed final = true).
Proof.
  intros Hmode Httl Hget Hcall run final. subst run.
  rewrite (ServiceTaskFacts.process_translation_task_outcome cfg call dt task_id
             text source_lang target_lang (Ok answer) t w Hmode Httl Hget Hcall).
  cbn [fst snd].
  destruct (ServiceTaskFacts.job_outcome cfg task_id
              (TaskService.setattr t (TaskService.set_status (py "processing")))
              (fold_left TaskService.setattr
                 [TaskService.set_status (py "completed");
                  TaskService.set_result (Some answer);
                  TaskService.set_completed_at
                    (Some (Env.isoformat (Env.now w + dt)))]
                 (TaskService.setattr t (TaskService.set_status (py "processing"))))
              dt w (TaskServiceFacts.mode_of_stored _ _ _ Hmode) Httl)
    as [Hread Hst].
  split; [reflexivity|]. split; [exact Hread|]. split; [exact Hst|].
  intros He. subst final. unfold Lifecycle.well_formed. cbn. rewrite He.
  reflexivity.
Qed.

Lemma X15_witness :
  let t := Spec.pending_record Scenario.t1 100 in
  let w := TaskService.create_task Scenario.cfg_default Scenario.t1 t
             (RedisClient._initialize Scenario.world_fallback) in
  fst (TaskService.get_task Scenario.t1
         (snd (TaskService.process_translation_task Scenario.cfg_default
                 (fun _ _ => Ok (py "hello")) 7 Scenario.t1 (py "hi") (py "zh")
                 (py "en") w)))
  = Ok (Some (Schemas.mkTaskResult (Schemas.task_id t) Lifecycle.completed
                (Some (py "hello")) (Schemas.error t) (Schemas.created_at t)
                (Some (Env.isoformat (Env.now w + 7))))).
Proof.
  intros t w.
  assert (Hm : Lifecycle.external (RedisClient._initialize Scenario.world_fallback)
               \/ Lifecycle.fallback (RedisClient._initialize Scenario.world_fallback))
    by (right; split; reflexivity).
  assert (Httl : (0 < Config.TASK_EXPIRE_SECONDS Scenario.cfg_default)%Z)
    by reflexivity.
  assert (Hw : (Lifecycle.external w
                /\ (7 <= Config.TASK_EXPIRE_SECONDS Scenario.cfg_default)%Z)
               \/ Lifecycle.fallback w).
  { destruct (TaskServiceFacts.create_task_mode Scenario.cfg_default Scenario.t1
                t _ Hm) as [H|H]; [left; split; [exact H|cbn; lia]|right; exact H]. }
  exact (proj1 (proj2 (X15_task_service_completes Scenario.cfg_default
    (fun _ _ => Ok (py "hello")) 7 Scenario.t1 (py "hi") (py "zh") (py "en")
    (py "hello") t w Hw Httl
    (TaskServiceFacts.get_task_after_create _ _ _ _ Hm Httl)
    (fun _ _ => eq_refl)))).
Defined.

(** X16. [update_task] on a stored task applies its keyword arguments in
    order to the stored record and stores the outcome under the same key:
    [get_task] then returns exactly that record, whose identifier and
    [created_at] are the old ones when no argument names them. *)
Theorem X16_update_then_get_task
    (cfg : Config.t) (task_id : list N) (updates : list TaskService.update)
    (t : Schemas.TaskResult) (w : Env.World) :
  Lifecycle.external w \/ Lifecycle.fallback w ->
  (0 < Config.TASK_EXPIRE_SECONDS cfg)%Z ->
  TaskService.get_task task_id w = (Ok (Some t), w) ->
  fst (TaskService.get_task task_id
         (snd (TaskService.update_task cfg task_id updates w)))
  = Ok (Some (fold_left TaskService.setattr updates t))
  /\ (forallb Spec.keeps_identity updates = true ->
      Schemas.task_id (fold_left TaskService.setattr updates t)
      = Schemas.task_id t
      /\ Schemas.created_at (fold_left TaskService.setattr updates t)
         = Schemas.created_at t).
Proof.
  intros Hmode Httl Hget.
  rewrite (TaskServiceFacts.update_task_found _ _ _ _ _ Hget). cbn [snd].
  rewrite TaskServiceFacts.get_task_after_create by assumption.
  split; [reflexivity|apply TaskServiceFacts.setattr_frame].
Qed.

Lemma X16_witness :
  let t := Spec.pending_record Scenario.t1 100 in
  let w := TaskService.create_task Scenario.cfg_default Scenario.t1 t
             (RedisClient._initialize Scenario.world_external) in
  fst (TaskService.get_task Scenario.t1
         (snd (TaskService.update_task Scenario.cfg_default Scenario.t1
                 [TaskService.set_status (py "processing")] w)))
  = Ok (Some (fold_left TaskService.setattr
                [TaskService.set_status (py "processing")] t)).
Proof.
  intros t w.
  assert (Hm : Lifecycle.external (RedisClient._initialize Scenario.world_external)
               \/ Lifecycle.fallback (RedisClient._initialize Scenario.world_external))
    by (left; repeat split).
  assert (Httl : (0 < Config.TASK_EXPIRE_SECONDS Scenario.cfg_default)%Z)
    by reflexivity.
  exact (proj1 (X16_update_then_get_task Scenario.cfg_default Scenario.t1
    [TaskService.set_status (py "processing")] t w
    (TaskServiceFacts.create_task_mode _ _ _ _ Hm) Httl
    (TaskServiceFacts.get_task_after_create _ _ _ _ Hm Httl))).
Defined.

(** X17. Tasks do not interfere: while the store works, submitting a task
    and running its background job changes nothing in what polling
    another identifier answers. *)
Theorem X17_tasks_do_not_interfere
    (r : AIProviders.Remote) (ai_service : AIService.t)
    (request : Routers.TranslationRequest) (task_id other : list N)
    (wait dt : Z) (w : Env.World) :
  Lifecycle.store_ok w -> task_id <> other ->
  fst (Routers.get_task_result other
         (Routers.run_job r ai_service dt (Spec.job_of request task_id)
            (Env.elapse wait (snd (Routers.translate_async request task_id w)))))
  = fst (Routers.get_task_result other (Env.elapse (wait + dt) w)).
Proof.
  intros Hok Hne.
  assert (Hk : RedisKeys.task_key task_id <> RedisKeys.task_key other).
  { intros E. apply Hne. exact (ServiceTaskFacts.task_key_inj _ _ E). }
  apply PollFacts2.get_task_result_by_get_json.
  rewrite TaskFacts.translate_async_unfold. cbn [snd Routers.run_job Spec.job_of].
  rewrite TaskFacts.process_unfold.
  set (w1 := snd (RedisClient.set (RedisKeys.task_key task_id) _ (Some 3600%Z) w)).
  assert (Hok1 : Lifecycle.store_ok (Env.elapse wait w1)).
  { apply StoreFacts.store_ok_elapse, StoreFacts.mode_store_ok,
      ClientFacts.set_mode, Hok. }
  set (w2 := snd (RedisClient.set (RedisKeys.task_key task_id) _ (Some 3600%Z)
                    (Env.elapse wait w1))).
  assert (Hok2 : Lifecycle.store_ok (Env.elapse dt w2)).
  { apply StoreFacts.store_ok_elapse, StoreFacts.mode_store_ok,
      ClientFacts.set_mode, Hok1. }
  rewrite <- (TaskFacts.elapse_zero (snd (RedisClient.set _ _ _ (Env.elapse dt w2)))).
  rewrite (PollFacts2.get_json_after_set_other _ _ _ _ _ _ Hok2 Hk).
  rewrite TaskFacts.elapse_zero. subst w2.
  rewrite (PollFacts2.get_json_after_set_other _ _ _ _ _ _ Hok1 Hk).
  rewrite ClientFacts.elapse_elapse. subst w1.
  apply (PollFacts2.get_json_after_set_other _ _ _ _ _ _ Hok Hk).
Qed.

Lemma X17_witness :
  fst (Routers.get_task_result (py "t2")
         (Routers.run_job Scenario.remote_down (AIService.mk None) 1
            (Spec.job_of Scenario.request_hi Scenario.t1)
            (Env.elapse 5
               (snd (Routers.translate_async Scenario.request_hi Scenario.t1
                       Scenario.world_external)))))
  = fst (Routers.get_task_result (py "t2")
           (Env.elapse (5 + 1) Scenario.world_external)).
Proof.
  apply (X17_tasks_do_not_interfere Scenario.remote_down (AIService.mk None)
           Scenario.request_hi Scenario.t1 (py "t2") 5 1 Scenario.world_external);
    [intros H; discriminate H | discriminate].
Defined.

(** X18. With a connected Redis server, what polling a submitted task
    answers: before the background job runs, the submitted record field
    for field, up to the instant at which its hour has passed; once the job
    has run, the completed record with the answer of the service, for one
    hour counted from the job's last write, whatever time had passed
    before, and not found after that. *)
Theorem X18_poll_timeline
    (r : AIProviders.Remote) (ai_service : AIService.t)
    (request : Routers.TranslationRequest) (task_id : list N)
    (wait dt : Z) (w : Env.World) :
  Lifecycle.external (RedisClient._initialize w) ->
  let w1 := snd (Routers.translate_async request task_id w) in
  let w2 :=
    Routers.run_job r ai_service dt (Spec.job_of request task_id)
      (Env.elapse wait w1) in
  (forall early, (early <= wait)%Z ->
     fst (Routers.get_task_result task_id (Env.elapse early w1))
     = if (early <=? 3600)%Z
       then Ok (Routers.mkPoll true
                  (Schemas.dict (Spec.pending_record task_id (Env.now w)))
                  (py "获取任务状态成功"))
       else Raise (HTTPException 404 (py "任务不存在")))
  /\ exists answer,
       AIService.translate_text r ai_service (Routers.text request)
         (Routers.source_lang request) (Routers.target_lang request) = Ok answer
       /\ forall later,
            fst (Routers.get_task_result task_id (Env.elapse later w2))
            = if (later <=? 3600)%Z
              then Ok (Routers.mkPoll true
                         (Schemas.dict
                            (Schemas.mkTaskResult task_id Lifecycle.completed
                               (Some answer) None
                               (Env.isoformat (Env.now w + wait + dt))
                               (Some (Env.isoformat (Env.now w + wait + dt)))))
                         (py "获取任务状态成功"))
              else Raise (HTTPException 404 (py "任务不存在")).
Proof.
  intros H w1 w2. split.
  - intros early _. apply PollFacts.poll_external, H.
  - destruct (ServiceFacts.translate_text_total r ai_service (Routers.text request)
                (Routers.source_lang request) (Routers.target_lang request))
      as [answer Ha].
    exists answer. split; [exact Ha|]. intros later.
    assert (E1 : w1
      = RedisClient.record (RedisKeys.task_key task_id)
          (Schemas.VStr (Schemas.model_dump_json
             (Spec.pending_record task_id (Env.now w))))
          (Some 3600%Z)
          (RedisClient.with_server
             (Env.stored (RedisKeys.task_key task_id)
                (Schemas.model_dump_json (Spec.pending_record task_id (Env.now w)))
                (Some 3600%Z) (Env.now (RedisClient._initialize w))
                (Env.server (RedisClient._initialize w)))
             (RedisClient._initialize w))).
    { subst w1. rewrite TaskFacts.translate_async_unfold. cbn [snd].
      rewrite <- StoreFacts.set_initialize.
      rewrite (StoreFacts.set_external _ _ (Some 3600%Z) _ H eq_refl).
      reflexivity. }
    assert (H1 : Lifecycle.external (Env.elapse wait w1))
      by (rewrite E1; exact H).
    assert (Hn : Env.now (Env.elapse wait w1) = (Env.now w + wait)%Z).
    { rewrite E1. cbn. unfold RedisClient._initialize.
      destruct (Env._initialized (Env.redis_client w)); reflexivity. }
    subst w2. cbn [Routers.run_job Spec.job_of].
    rewrite TaskFacts.process_unfold, Ha, Hn.
    rewrite (StoreFacts.set_external _ _ (Some 3600%Z) (Env.elapse wait w1)
               H1 eq_refl).
    cbn [snd].
    apply PollFacts2.poll_after_set. exact H1.
Qed.

Lemma X18_witness :
  fst (Routers.get_task_result Scenario.t1
         (Env.elapse 2
            (snd (Routers.translate_async Scenario.request_hi Scenario.t1
                    Scenario.world_external))))
  = Ok (Routers.mkPoll true
          (Schemas.dict (Spec.pending_record Scenario.t1 100))
          (py "获取任务状态成功")).
Proof.
  assert (He : Lifecycle.external (RedisClient._initialize Scenario.world_external))
    by (repeat split).
  assert (H2 : (2 <= 5)%Z) by lia.
  exact (proj1 (X18_poll_timeline Scenario.remote_down (AIService.mk None)
                  Scenario.request_hi Scenario.t1 5 1 Scenario.world_external He)
           2%Z H2).
Defined.

(** X19. Polling an identifier under whose key neither the server nor the
    in-process dictionary holds anything answers not found, in either mode
    and whether or not the server can be reached: the HTTP error 404, never
    another error. *)
Theorem X19_poll_unknown_is_not_found (task_id : list N) (w : Env.World) :
  Env.db (Env.server w) !! RedisKeys.task_key task_id = None ->
  Env._memory_storage (Env.redis_client w) !! RedisKeys.task_key task_id = None ->
  fst (Routers.get_task_result task_id w)
  = Raise (HTTPException 404 (py "任务不存在")).
Proof.
  intros Hdb Hmem. apply PollFacts.poll_absent, PollFacts2.get_json_unknown; assumption.
Qed.

Lemma X19_witness :
  fst (Routers.get_task_result Scenario.t1 Scenario.world_fallback)
  = Raise (HTTPException 404 (py "任务不存在")).
Proof.
  exact (X19_poll_unknown_is_not_found Scenario.t1 Scenario.world_fallback
           eq_refl eq_refl).
Defined.

(** X20. [AIProviderFactory.create_provider] returns a provider exactly
    when the chosen name, the argument or else the configured one, is one
    of [openai], [claude] and [qianwen] and the settings hold a key with
    content for it; the provider returned is of that name and holds that
    key; in every other case the exception raised is a [ValueError]. *)
Theorem X20_create_provider (cfg : Config.t) (provider_name : option (list N)) :
  let chosen := default (Config.AI_PROVIDER cfg) provider_name in
  ((exists p, AIProviders.create_provider cfg provider_name = Ok p)
   <-> Notions.credential_present cfg chosen)
  /\ (forall p, AIProviders.create_provider cfg provider_name = Ok p ->
      Notions.built_with cfg chosen p)
  /\ (forall e, AIProviders.create_provider cfg provider_name = Raise e ->
      exists msg, e = ValueError msg).
Proof.
  intros chosen. rewrite ProviderFacts.create_provider_default. fold chosen.
  split; [split|split].
  - intros [p Hp]. exact (proj1 (ProviderFacts.create_provider_ok _ _ _ Hp)).
  - apply ProviderFacts.create_provider_present.
  - intros p Hp. exact (proj2 (ProviderFacts.create_provider_ok _ _ _ Hp)).
  - apply ProviderFacts.create_provider_raises.
Qed.

(** X21. [get_available_providers] lists, in the order of the table, the
    names for which [create_provider] succeeds, and no other name; the
    service object holds a provider exactly when the configured name is in
    that list. *)
Theorem X21_get_available_providers (cfg : Config.t) :
  AIProviders.get_available_providers cfg
  = List.filter
      (fun name => Notions.is_ok (AIProviders.create_provider cfg (Some name)))
      [py "openai"; py "claude"; py "qianwen"]
  /\ (forall name,
        In name (AIProviders.get_available_providers cfg)
        <-> exists p, AIProviders.create_provider cfg (Some name) = Ok p)
  /\ (In (Config.AI_PROVIDER cfg) (AIProviders.get_available_providers cfg)
      <-> AIService.provider (AIService.init cfg) <> None).
Proof.
  assert (Hin : forall name,
    In name (AIProviders.get_available_providers cfg)
    <-> exists p, AIProviders.create_provider cfg (Some name) = Ok p).
  { intros name. rewrite ProviderFacts.get_available_providers_filter.
    rewrite List.filter_In. split.
    - intros [_ H]. destruct (AIProviders.create_provider cfg (Some name)) as [p|e];
        [exists p; reflexivity|discriminate H].
    - intros [p Hp]. split; [|rewrite Hp; reflexivity].
      destruct (proj1 (ProviderFacts.create_provider_ok _ _ _ Hp))
        as [[-> _] | [[-> _] | [-> _]]]; cbn; tauto. }
  split; [apply ProviderFacts.get_available_providers_filter|].
  split; [exact Hin|].
  rewrite Hin. unfold AIService.init.
  rewrite (ProviderFacts.create_provider_default cfg None). cbn [default].
  destruct (AIProviders.create_provider cfg (Some (Config.AI_PROVIDER cfg)))
    as [p|e]; cbn [AIService.provider]; split.
  - discriminate.
  - intros _. exists p. reflexivity.
  - intros [p Hp]. discriminate Hp.
  - intros H. contradiction H. reflexivity.
Qed.

(** X22. The synchronous routes never answer with the HTTP error 500: for
    every service object, remote behaviour and request, [translate_sync]
    and [summarize_sync] return the success envelope, with the text of the
    request unchanged as [original_text] and the answer of the service as
    the translation or summary. *)
Theorem X22_sync_routes_never_fail
    (r : AIProviders.Remote) (ai_service : AIService.t)
    (request : Routers.TranslationRequest) (srequest : Summary.SummaryRequest) :
  (exists answer,
     AIService.translate_text r ai_service (Routers.text request)
       (Routers.source_lang request) (Routers.target_lang request) = Ok answer
     /\ Routers.translate_sync r ai_service request
        = Ok (true,
              Routers.mkTranslationData (Routers.text request) answer
                (Routers.source_lang request) (Routers.target_lang request),
              py "翻译成功"))
  /\ (exists answer,
        AIService.summarize_text r ai_service (Summary.text srequest) = Ok answer
        /\ Summary.summarize_sync r ai_service srequest
           = Ok (true,
                 Summary.mkSummaryData (Summary.text srequest) answer
                   (Summary.max_length srequest),
                 py "总结成功")).
Proof.
  split.
  - destruct (ServiceFacts.translate_text_total r ai_service (Routers.text request)
                (Routers.source_lang request) (Routers.target_lang request))
      as [answer H].
    exists answer. split; [exact H|]. unfold Routers.translate_sync.
    rewrite H. reflexivity.
  - destruct (ServiceFacts.summarize_text_total r ai_service (Summary.text srequest))
      as [answer H].
    exists answer. split; [exact H|]. unfold Summary.summarize_sync.
    rewrite H. reflexivity.
Qed.

(** X23. While the store works, the background job of the translation
    route never ends in [failed]: it writes [processing] and then
    [completed], and the record the store returns afterwards carries the
    answer of the service as [result], no [error], and the clock after the
    call as both [created_at] and [completed_at]. *)
Theorem X23_translation_job_completes
    (r : AIProviders.Remote) (ai_service : AIService.t) (dt : Z)
    (task_id text source_lang target_lang : list N) (w : Env.World) :
  Lifecycle.store_ok w ->
  let w' :=
    Routers._process_translation_task r ai_service dt task_id text source_lang
      target_lang w in
  exists answer,
    AIService.translate_text r ai_service text source_lang target_lang = Ok answer
    /\ Lifecycle.statuses_written task_id w'
       = Lifecycle.statuses_written task_id w
           ++ [Lifecycle.processing; Lifecycle.completed]
    /\ fst (RedisClient.get (RedisKeys.task_key task_id) w')
       = Some (Schemas.VStr (Schemas.model_dump_json
                 (Schemas.mkTaskResult task_id Lifecycle.completed (Some answer)
                    None (Env.isoformat (Env.now w + dt))
                    (Some (Env.isoformat (Env.now w + dt)))))).
Proof.
  intros Hok w'. subst w'. rewrite TaskFacts.process_unfold.
  destruct (ServiceFacts.translate_text_total r ai_service text source_lang
              target_lang) as [answer H].
  exists answer. split; [exact H|]. rewrite H.
  exact (RouteFacts.job_writes task_id
           (Spec.final_record task_id (Ok answer) (Env.now w + dt)) dt w Hok).
Qed.

Lemma X23_witness :
  Lifecycle.store_ok Scenario.world_external
  /\ exists answer,
       Lifecycle.statuses_written Scenario.t1
         (Routers._process_translation_task Scenario.remote_down
            Scenario.service_openai 2 Scenario.t1 (py "hi") (py "中文")
            (py "英文") Scenario.world_external)
       = Lifecycle.statuses_written Scenario.t1 Scenario.world_external
           ++ [Lifecycle.processing; Lifecycle.completed]
       /\ AIService.translate_text Scenario.remote_down Scenario.service_openai
            (py "hi") (py "中文") (py "英文") = Ok answer.
Proof.
  assert (H1 : Lifecycle.store_ok Scenario.world_external)
    by (intros H; discriminate H).
  split; [exact H1|].
  destruct (X23_translation_job_completes Scenario.remote_down
              Scenario.service_openai 2 Scenario.t1 (py "hi") (py "中文")
              (py "英文") Scenario.world_external H1) as (answer & Ha & Hs & _).
  exists answer. split; [exact Hs|exact Ha].
Defined.

(** X24. The summary route has the life cycle of the translation route:
    while the store works and the identifier is fresh, [summarize_async]
    answers [pending], queues one job for the text of the request and
    stores the pending record; the job then writes [processing] and
    [completed], never [failed], and the record stored last carries the
    answer of [summarize_text]. *)
Theorem X24_summary_task_lifecycle
    (r : AIProviders.Remote) (ai_service : AIService.t)
    (request : Summary.SummaryRequest) (task_id : list N) (wait dt : Z)
    (w : Env.World) :
  Lifecycle.store_ok w ->
  Lifecycle.statuses_written task_id w = [] ->
  exists w1 answer,
    Summary.summarize_async request task_id w
    = (Schemas.mkTaskResponse task_id Lifecycle.pending
         (py "总结任务已提交，请使用task_id轮询结果"),
       [Summary.process_summary task_id (Summary.text request)], w1)
    /\ fst (RedisClient.get (RedisKeys.task_key task_id) w1)
       = Some (Schemas.VStr (Schemas.model_dump_json
                 (Spec.pending_record task_id (Env.now w))))
    /\ AIService.summarize_text r ai_service (Summary.text request) = Ok answer
    /\ Lifecycle.statuses_written task_id
         (Summary._process_summary_task r ai_service dt task_id
            (Summary.text request) (Env.elapse wait w1))
       = [Lifecycle.pending; Lifecycle.processing; Lifecycle.completed]
    /\ fst (RedisClient.get (RedisKeys.task_key task_id)
              (Summary._process_summary_task r ai_service dt task_id
                 (Summary.text request) (Env.elapse wait w1)))
       = Some (Schemas.VStr (Schemas.model_dump_json
                 (Schemas.mkTaskResult task_id Lifecycle.completed (Some answer)
                    None (Env.isoformat (Env.now w + wait + dt))
                    (Some (Env.isoformat (Env.now w + wait + dt)))))).
Proof.
  intros Hok Hfresh. rewrite RouteFacts.summarize_async_unfold.
  destruct (StoreFacts.set_store_ok (RedisKeys.task_key task_id)
              (Schemas.model_dump_json (Spec.pending_record task_id (Env.now w)))
              (Some 3600%Z) w Hok eq_refl) as (w1 & E1 & M1 & W1 & N1 & G1).
  rewrite E1. cbn [snd].
  destruct (ServiceFacts.summarize_text_total r ai_service (Summary.text request))
    as [answer Ha].
  exists w1, answer. split; [reflexivity|].
  split. { rewrite <- (TaskFacts.elapse_zero w1). apply (G1 3600%Z); [reflexivity|lia]. }
  split; [exact Ha|].
  rewrite RouteFacts.summary_process_unfold, Ha.
  destruct (RouteFacts.job_writes task_id
              (Spec.final_record task_id (Ok answer)
                 (Env.now (Env.elapse wait w1) + dt)) dt (Env.elapse wait w1)
              (StoreFacts.store_ok_elapse _ _ (StoreFacts.mode_store_ok _ M1)))
    as [Hs Hg].
  split.
  - rewrite Hs, StoreFacts.statuses_written_elapse.
    rewrite (StoreFacts.statuses_written_snoc _ _ _ _ _ W1), Hfresh. reflexivity.
  - rewrite Hg. cbn [Env.now Env.elapse]. rewrite N1. reflexivity.
Qed.

Lemma X24_witness :
  Lifecycle.store_ok Scenario.world_fallback
  /\ Lifecycle.statuses_written Scenario.t1 Scenario.world_fallback = []
  /\ Lifecycle.statuses_written Scenario.t1
       (Summary._process_summary_task Scenario.remote_down (AIService.mk None) 1
          Scenario.t1 (py "hi")
          (Env.elapse 5
             (snd (Summary.summarize_async
                     (Summary.mkSummaryRequest (py "hi") (Some 200%Z))
                     Scenario.t1 Scenario.world_fallback))))
     = [Lifecycle.pending; Lifecycle.processing; Lifecycle.completed].
Proof.
  assert (H1 : Lifecycle.store_ok Scenario.world_fallback)
    by (intros H; discriminate H).
  assert (H2 : Lifecycle.statuses_written Scenario.t1 Scenario.world_fallback = [])
    by reflexivity.
  split; [exact H1|]. split; [exact H2|].
  destruct (X24_summary_task_lifecycle Scenario.remote_down (AIService.mk None)
              (Summary.mkSummaryRequest (py "hi") (Some 200%Z)) Scenario.t1 5 1
              Scenario.world_fallback H1 H2)
    as (w1 & answer & E & _ & _ & Hrun & _).
  rewrite E. cbn [snd]. exact Hrun.
Defined.

(** X25. The streaming routes never report a failure of the provider: the
    stream of the service always ends normally, so [event_stream] sends the
    start frame, one frame for each fragment with content and the done
    frame, whose [full_result] is the trimmed fragments glued together, and
    none of its frames is an error frame; [generate] of the summary route
    always ends with the completed frame and the end marker. *)
Theorem X25_streams_end_normally
    (r : AIProviders.Remote) (ai_service : AIService.t)
    (request : Routers.TranslationRequest) (srequest : Summary.SummaryRequest) :
  (exists chunks,
     AIService.translate_stream r ai_service (Routers.text request)
       (Routers.source_lang request) (Routers.target_lang request)
     = (chunks, None)
     /\ Routers.event_stream r ai_service request
        = [Routers.start_event] ++ Spec.chunk_events chunks
            ++ [Routers.done_event (concat (List.map strip chunks))]
     /\ forall msg,
          ~ In (Routers.error_event msg) (Routers.event_stream r ai_service request))
  /\ (exists chunks,
        AIService.summarize_stream r ai_service (Summary.text srequest)
        = (chunks, None)
        /\ Summary.generate r ai_service srequest
           = (([Summary.started_event]
                 ++ List.map
                      (fun chunk => Summary.chunk_event (Routers.clean_chunk chunk))
                      (List.filter (fun chunk => truthy (strip chunk)) chunks))
                ++ [Summary.completed_event; Summary.done_marker],
              None)).
Proof.
  split.
  - pose proof (RouteFacts.translate_stream_ends r ai_service (Routers.text request)
                  (Routers.source_lang request) (Routers.target_lang request)) as Hend.
    unfold Routers.event_stream.
    destruct (AIService.translate_stream r ai_service (Routers.text request)
                (Routers.source_lang request) (Routers.target_lang request))
      as [chunks fin].
    cbn [snd] in Hend. subst fin. exists chunks. split; [reflexivity|].
    cbv zeta. rewrite WordFacts.concat_strip_relayed.
    split; [reflexivity|].
    intros msg [H|H]%in_app_or.
    + destruct H as [H|[]]. exact (RouteFacts.start_is_not_error msg H).
    + apply in_app_or in H as [H|H].
      * apply in_map_iff in H as (c & H & _).
        exact (RouteFacts.chunk_is_not_error _ msg H).
      * destruct H as [H|[]]. exact (StreamFacts.done_is_not_error _ msg H).
  - pose proof (RouteFacts.summarize_stream_ends r ai_service (Summary.text srequest))
      as Hend.
    unfold Summary.generate.
    destruct (AIService.summarize_stream r ai_service (Summary.text srequest))
      as [chunks fin].
    cbn [snd] in Hend. subst fin. exists chunks. split; reflexivity.
Qed.

(** X26. Without a provider the translation stream of the route is made of
    the words of the mock translation of the sanitized text: one chunk
    frame for each word, the word without the space the mock appends, and a
    done frame whose [full_result] is the mock translation with all white
    space removed; as that translation always contains a space, the
    [full_result] is never the text the synchronous route returns for the
    same request. *)
Theorem X26_mock_stream_frames
    (r : AIProviders.Remote) (request : Routers.TranslationRequest) :
  let mock :=
    AIService.mock_text (TextProcessor.deep_clean_text (Routers.text request))
      (Routers.source_lang request) (Routers.target_lang request) in
  Routers.event_stream r (AIService.mk None) request
  = [Routers.start_event] ++ List.map Routers.chunk_event (split mock)
      ++ [Routers.done_event (Notions.visible mock)]
  /\ Forall Notions.wordlike (split mock)
  /\ Routers.translate_sync r (AIService.mk None) request
     = Ok (true,
           Routers.mkTranslationData (Routers.text request) mock
             (Routers.source_lang request) (Routers.target_lang request),
           py "翻译成功")
  /\ Notions.visible mock <> mock.
Proof.
  intros mock. split; [|split; [apply WordFacts.split_words|split; [reflexivity|]]].
  - unfold Routers.event_stream, AIService.translate_stream.
    rewrite ServiceFacts.preprocess_text_ok.
    cbn [AIService.provider AIService._mock_translate_stream]. fold mock.
    cbv zeta. rewrite WordFacts.words_spaced_relayed.
    rewrite WordFacts.words_spaced_clean, WordFacts.words_spaced_stripped.
    rewrite WordFacts.concat_split. reflexivity.
  - intros H. apply (RouteFacts.visible_no_space mock). rewrite H.
    apply RouteFacts.mock_text_has_space.
Qed.

(** X27. The fragments of the mock stream, glued together and trimmed, give
    back the mock translation whenever its words are separated by single
    spaces and it holds no other white space. *)
Theorem X27_mock_stream_reassembles (text source_lang target_lang : list N) :
  Notions.single_spaced (AIService.mock_text text source_lang target_lang) = true ->
  strip (concat (fst (AIService._mock_translate_stream text source_lang target_lang)))
  = AIService.mock_text text source_lang target_lang.
Proof.
  intros H. cbn [AIService._mock_translate_stream fst].
  apply WordFacts.strip_words_spaced, H.
Qed.

Lemma X27_witness :
  strip (concat (fst (AIService._mock_translate_stream (py "hello big world")
                        (py "英文") (py "中文"))))
  = AIService.mock_text (py "hello big world") (py "英文") (py "中文").
Proof.
  apply (X27_mock_stream_reassembles (py "hello big world") (py "英文") (py "中文")).
  vm_compute. reflexivity.
Defined.

(** X28. [process_summary_task] raises nothing and leaves a stored task in
    a state decided by the model call alone, whatever the text and
    [max_length]: when the call answers after [dt] seconds, the record read
    afterwards is [completed] with the answer as [result] and
    [completed_at] set to the clock after the call; when the call raises,
    it is [failed] with the text of the exception as [error] and
    [completed_at] as it was before. The identifier and [created_at] are
    kept, and both [processing] and the final status are written. With a
    connected server the record must not have expired during the call. *)
Theorem X28_summary_task_service
    (cfg : Config.t) (call : list N -> list N -> res (list N)) (dt : Z)
    (outcome : res (list N)) (task_id text : list N) (max_length : Z)
    (t : Schemas.TaskResult) (w : Env.World) :
  (Lifecycle.external w /\ (dt <= Config.TASK_EXPIRE_SECONDS cfg)%Z)
  \/ Lifecycle.fallback w ->
  (0 < Config.TASK_EXPIRE_SECONDS cfg)%Z ->
  TaskService.get_task task_id w = (Ok (Some t), w) ->
  (forall prompt kind, call prompt kind = outcome) ->
  let run :=
    TaskService.process_summary_task cfg call dt task_id text max_length w in
  let final :=
    match outcome with
    | Ok answer =>
        Schemas.mkTaskResult (Schemas.task_id t) Lifecycle.completed (Some answer)
          (Schemas.error t) (Schemas.created_at t)
          (Some (Env.isoformat (Env.now w + dt)))
    | Raise e =>
        Schemas.mkTaskResult (Schemas.task_id t) Lifecycle.failed
          (Schemas.result t) (Some (exn_str e)) (Schemas.created_at t)
          (Schemas.completed_at t)
    end in
  fst run = Ok tt
  /\ fst (TaskService.get_task task_id (snd run)) = Ok (Some final)
  /\ Lifecycle.statuses_written task_id (snd run)
     = Lifecycle.statuses_written task_id w
         ++ [Lifecycle.processing; Schemas.status final].
Proof.
  intros Hmode Httl Hget Hcall run final. subst run.
  rewrite (ServiceTaskFacts.process_summary_task_outcome cfg call dt task_id text
             max_length outcome t w Hmode Httl Hget Hcall).
  cbn [fst snd].
  set (t1 := TaskService.setattr t (TaskService.set_status (py "processing"))).
  set (t2 := match outcome with Ok _ => _ | Raise _ => _ end).
  destruct (ServiceTaskFacts.job_outcome cfg task_id t1 t2 dt w
              (TaskServiceFacts.mode_of_stored _ _ _ Hmode) Httl) as [Hread Hst].
  assert (E : t2 = final) by (subst t2 final; destruct outcome; reflexivity).
  split; [reflexivity|]. rewrite <- E. split; [exact Hread|exact Hst].
Qed.

Lemma X28_witness :
  let t := Spec.pending_record Scenario.t1 100 in
  let w := TaskService.create_task Scenario.cfg_default Scenario.t1 t
             (RedisClient._initialize Scenario.world_fallback) in
  fst (TaskService.get_task Scenario.t1
         (snd (TaskService.process_summary_task Scenario.cfg_default
                 (fun _ _ => Ok (py "short")) 7 Scenario.t1 (py "hi") 200 w)))
  = Ok (Some (Schemas.mkTaskResult (Schemas.task_id t) Lifecycle.completed
                (Some (py "short")) (Schemas.error t) (Schemas.created_at t)
                (Some (Env.isoformat (Env.now w + 7))))).
Proof.
  intros t w.
  assert (Hm : Lifecycle.external (RedisClient._initialize Scenario.world_fallback)
               \/ Lifecycle.fallback (RedisClient._initialize Scenario.world_fallback))
    by (right; split; reflexivity).
  assert (Httl : (0 < Config.TASK_EXPIRE_SECONDS Scenario.cfg_default)%Z)
    by reflexivity.
  assert (Hw : (Lifecycle.external w
                /\ (7 <= Config.TASK_EXPIRE_SECONDS Scenario.cfg_default)%Z)
               \/ Lifecycle.fallback w).
  { destruct (TaskServiceFacts.create_task_mode Scenario.cfg_default Scenario.t1
                t _ Hm) as [H|H]; [left; split; [exact H|cbn; lia]|right; exact H]. }
  exact (proj1 (proj2 (X28_summary_task_service Scenario.cfg_default
    (fun _ _ => Ok (py "short")) 7 (Ok (py "short")) Scenario.t1 (py "hi") 200 t w
    Hw Httl
    (TaskServiceFacts.get_task_after_create _ _ _ _ Hm Httl)
    (fun _ _ => eq_refl)))).
Defined.
